(** * scikit-fda: outliergram detector, RKHS variable selection, basis smoother

    A shallow embedding of

    - [skfda/exploratory/outliers/_outliergram.py]
      ([OutliergramOutlierDetector]),
    - [skfda/preprocessing/dim_reduction/variable_selection/_rkvs.py]
      ([_rkhs_vs], [RKHSVariableSelection]),
    - [skfda/preprocessing/smoothing/_basis.py] ([BasisSmoother]),
    - [skfda/ml/classification/_depth_classifiers.py]
      ([MaximumDepthClassifier], [DDTransform]),
    - [skfda/exploratory/visualization/clustering.py]
      ([_plot_clustering_checks], [_get_labels] and the arrays drawn by
      [ClusterMembershipPlot.plot]),

    and of the NumPy and scikit-learn primitives these call.

    Conventions.
    - Python exceptions are values of [exn]; a computation that may raise
      returns [res A]; a method that assigns attributes of [self] before it
      may raise returns the new [self] together with its [res].
    - Observed data (grid points, data matrices) and the depth and distance
      arrays of the outliergram are finite numbers, modelled as exact
      rationals [Q].  Arrays computed inside [_rkhs_vs] can hold the IEEE
      special values (the mean of an empty class is [nan], a division by a
      zero variance is [inf] or [nan], a product beyond the range of
      float64 is [inf]); they are modelled by [float], the rationals
      extended with [NaN], [PInf] and [NInf].  The range of float64 is
      modelled: a sum, product or quotient too large becomes an infinity,
      one too small becomes zero.  Rounding within the range and signed
      zeros are not modelled, and sums are taken in index order.
    - NumPy is NumPy 1.x, the NumPy that has [np.float_], which [_rkhs_vs]
      uses.
    - Code of the package that is imported by the three files but is not
      part of them ([ModifiedBandDepth], [modified_epigraph_index], the
      least-squares back ends, [_LinearSmoother]) and the numerical kernels
      [np.sqrt] and [np.linalg.lstsq] are section variables. *)

From Stdlib Require Import QArith Qround Qabs Qminmax Lqa Lia ZArith String Sorted.
From stdpp Require Import base list strings pretty.

(** ** Exceptions and results *)

(** The [ValueError]s raised by the modelled code, by raise site. *)
Inductive value_error : Type :=
| TwoLabels (n_unique_labels : nat)
    (* "RK-VS can only be used when there are only two different labels,
        but there are {n_unique_labels}" *)
| DomainCodomainDim
    (* "Domain and codomain dimensions must be 1" *)
| DifferentNumberOfPoints
    (* "The trajectories have a different number of points than the ones
        fitted" *)
| CheckArray
    (* raised by sklearn.utils.validation.check_X_y / check_array *)
| NotFData
    (* "fd must be a FDataGrid or FDataIrregular" *)
| Broadcast
    (* "operands could not be broadcast together" *)
| ArgmaxEmpty.
    (* "attempt to get argmax of an empty sequence" *)

Inductive exn : Type :=
| ValueError (why : value_error)
| AssertionError
| NotFittedError
| AttributeError (name : string)
| IndexError (array : string)
| ZeroDivisionError
| LinAlgError.

Inductive res (A : Type) : Type :=
| Ok (a : A)
| Err (e : exn).
Arguments Ok {A} a.
Arguments Err {A} e.

#[global] Instance res_ret : MRet res := fun A a => Ok a.
#[global] Instance res_bind : MBind res :=
  fun A B f m => match m with Ok a => f a | Err e => Err e end.
#[global] Instance res_fmap : FMap res :=
  fun A B f m => match m with Ok a => Ok (f a) | Err e => Err e end.

(** Reading an attribute that [fit] has not assigned yet. *)
Definition getattr {A} (name : string) (field : option A) : res A :=
  match field with
  | Some v => Ok v
  | None => Err (AttributeError name)
  end.

(** The error classes of the specification's taxonomy (section 7). *)
Inductive error_kind : Type :=
| InvalidShape | InvalidArgument | NotFitted | OtherError.

Definition kind_of (e : exn) : error_kind :=
  match e with
  | ValueError (TwoLabels _) => InvalidArgument
  | ValueError DomainCodomainDim => InvalidShape
  | ValueError DifferentNumberOfPoints => InvalidShape
  | NotFittedError => NotFitted
  | _ => OtherError
  end.

(** ** Functional data *)

Record FDataGrid : Type := mkFDataGrid {
  grid_points : list (list Q);   (* one array per domain dimension *)
  data_matrix : list (list Q);   (* data_matrix[..., 0], one row per sample *)
  dim_codomain : nat
}.

Definition n_samples (X : FDataGrid) : nat := length (data_matrix X).
Definition dim_domain (X : FDataGrid) : nat := length (grid_points X).

(** ** NumPy on arrays of finite numbers *)

Module NumPyQ.
Local Open Scope Q_scope.

Definition Qltb (a b : Q) : bool := negb (Qle_bool b a).

(** [np.sort] *)
Fixpoint insert_sorted (x : Q) (l : list Q) : list Q :=
  match l with
  | [] => [x]
  | y :: l' => if Qle_bool x y then x :: l else y :: insert_sorted x l'
  end.

Definition np_sort (a : list Q) : list Q := foldr insert_sorted [] a.

(** A list in non-decreasing order. *)
Definition ascending (l : list Q) : Prop := StronglySorted Qle l.

(** [np.percentile(a, q)] with the default linear interpolation: the
    sorted array is read at the virtual index [(n - 1) * q / 100]. *)
Definition lerp (a b t : Q) : Q := a + (b - a) * t.

Definition np_percentile (a : list Q) (q : Q) : res Q :=
  match a with
  | [] => Err (IndexError "percentile")
  | _ :: _ =>
    let n := length a in
    let arr := np_sort a in
    let virtual_index := inject_Z (Z.of_nat (n - 1)) * (q / 100) in
    let previous := Qfloor virtual_index in
    let next := Z.min (previous + 1) (Z.of_nat (n - 1)) in
    let gamma := virtual_index - inject_Z previous in
    Ok (lerp (nth (Z.to_nat previous) arr 0) (nth (Z.to_nat next) arr 0) gamma)
  end.

(** [a - b] on one-dimensional arrays, with broadcasting. *)
Definition np_sub (a b : list Q) : res (list Q) :=
  if decide (length a = length b) then Ok (zip_with Qminus a b)
  else match a, b with
       | [x], _ => Ok (map (fun y => x - y) b)
       | _, [y] => Ok (map (fun x => x - y) a)
       | _, _ => Err (ValueError Broadcast)
       end.

(** [a > t] for an array and a scalar. *)
Definition np_gt (a : list Q) (t : Q) : list bool := map (fun x => Qltb t x) a.

(** A boolean used in integer arithmetic. *)
Definition np_int (b : bool) : Z := if b then 1%Z else 0%Z.

(** The true division of two Python integers. *)
Definition py_truediv (a b : Z) : res Q :=
  if (b =? 0)%Z then Err ZeroDivisionError else Ok (inject_Z a / inject_Z b).

End NumPyQ.

(** ** [_outliergram.py] *)

Module Outliergram.
Import NumPyQ.
Local Open Scope Q_scope.

Record OutliergramOutlierDetector : Type := mkDetector {
  factor : Q;
  mbd_ : option (list Q);
  mei_ : option (list Q);
  parabola_ : option (list Q);
  distances_ : option (list Q);
  max_inlier_distance_ : option Q
}.

(** [__init__(self, *, factor=1.5)]; [None] stands for an argument that
    is left out. *)
Definition default_factor : Q := 3 # 2.

Definition __init__ (factor : option Q) : OutliergramOutlierDetector :=
  mkDetector (default default_factor factor) None None None None None.

Definition set_mbd_ (self : OutliergramOutlierDetector) v :=
  mkDetector (factor self) (Some v) (mei_ self) (parabola_ self)
             (distances_ self) (max_inlier_distance_ self).
Definition set_mei_ (self : OutliergramOutlierDetector) v :=
  mkDetector (factor self) (mbd_ self) (Some v) (parabola_ self)
             (distances_ self) (max_inlier_distance_ self).
Definition set_parabola_ (self : OutliergramOutlierDetector) v :=
  mkDetector (factor self) (mbd_ self) (mei_ self) (Some v)
             (distances_ self) (max_inlier_distance_ self).
Definition set_distances_ (self : OutliergramOutlierDetector) v :=
  mkDetector (factor self) (mbd_ self) (mei_ self) (parabola_ self)
             (Some v) (max_inlier_distance_ self).
Definition set_max_inlier_distance_ (self : OutliergramOutlierDetector) v :=
  mkDetector (factor self) (mbd_ self) (mei_ self) (parabola_ self)
             (distances_ self) (Some v).

(** The public and class-private names the class and its bases
    ([BaseEstimator], [OutlierMixin]) define; [fit_predict] of
    [OutlierMixin] is overridden below.  The special methods of [object]
    and the private helpers of [BaseEstimator] are left out: none of them
    is called [predict]. *)
Definition class_attributes : list string :=
  ["__init__"; "_compute_parabola"; "_compute_maximum_inlier_distance";
   "fit"; "fit_predict"; "get_params"; "set_params"]%string.

(** Attribute lookup of a method name on an instance. *)
Definition lookup_method (name : string) : res unit :=
  if decide (name ∈ class_attributes) then Ok tt
  else Err (AttributeError name).

(** [self.name(...)]: the attribute is looked up, then the body runs. *)
Definition invoke {A} (name : string) (body : res A) : res A :=
  _ ← lookup_method name; body.

Section Detector.

(** [ModifiedBandDepth()(X)] and [modified_epigraph_index(X)], imported
    from [..depth._depth] and [..stats]. *)
Variable ModifiedBandDepth : FDataGrid -> res (list Q).
Variable modified_epigraph_index : FDataGrid -> res (list Q).

Definition _compute_parabola (self : OutliergramOutlierDetector)
    (X : FDataGrid) : res (list Q) :=
  let n := Z.of_nat (n_samples X) in
  a_0 ← py_truediv (-2) (n * (n - 1));
  a_1 ← py_truediv (2 * (n + 1)) (n - 1);
  let a_2 := a_0 in
  mei ← getattr "mei_" (mei_ self);
  Ok (map (fun m => a_0 + a_1 * m + inject_Z (n ^ 2) * a_2 * m ^ 2) mei).

Definition _compute_maximum_inlier_distance
    (self : OutliergramOutlierDetector) (distances : list Q) : res Q :=
  first_quartile ← np_percentile distances 25;
  third_quartile ← np_percentile distances 75;
  let iqr := third_quartile - first_quartile in
  Ok (third_quartile + factor self * iqr).

Definition fit (self : OutliergramOutlierDetector) (X : FDataGrid)
    : OutliergramOutlierDetector * res unit :=
  match ModifiedBandDepth X with
  | Err e => (self, Err e)
  | Ok mbd =>
  let self := set_mbd_ self mbd in
  match modified_epigraph_index X with
  | Err e => (self, Err e)
  | Ok mei =>
  let self := set_mei_ self mei in
  match _compute_parabola self X with
  | Err e => (self, Err e)
  | Ok parabola =>
  let self := set_parabola_ self parabola in
  match np_sub parabola mbd with
  | Err e => (self, Err e)
  | Ok distances =>
  let self := set_distances_ self distances in
  match _compute_maximum_inlier_distance self distances with
  | Err e => (self, Err e)
  | Ok d => (set_max_inlier_distance_ self d, Ok tt)
  end end end end end.

Definition fit_predict (self : OutliergramOutlierDetector) (X : FDataGrid)
    : OutliergramOutlierDetector * res (list Z) :=
  match fit self X with
  | (self, Err e) => (self, Err e)
  | (self, Ok _) =>
    (self,
     distances ← getattr "distances_" (distances_ self);
     max_inlier_distance ←
       getattr "max_inlier_distance_" (max_inlier_distance_ self);
     let outliers := np_gt distances max_inlier_distance in
     (* Predict as scikit-learn outlier detectors *)
     Ok (map (fun o => np_int (negb o) + np_int o * -1)%Z outliers))
  end.

End Detector.

End Outliergram.

(** ** NumPy on floating-point arrays *)

Module NumPy.
Local Open Scope Q_scope.

(** A float64 without rounding within its range: a rational, an infinity
    or [nan]. *)
Inductive float : Type :=
| NaN
| NInf
| Fin (q : Q)
| PInf.

Definition isnan (x : float) : bool :=
  match x with NaN => true | _ => false end.

Definition isfinite (x : float) : bool :=
  match x with Fin _ => true | _ => false end.

Definition Qsgn (q : Q) : Z := Z.sgn (Qnum q).

(** The sign of a float that is not [nan] ([nan] gets 0). *)
Definition sgn (x : float) : Z :=
  match x with
  | NaN => 0%Z
  | NInf => (-1)%Z
  | Fin q => Qsgn q
  | PInf => 1%Z
  end.

(** The infinity of a given sign; sign 0 stands for an invalid operation. *)
Definition inf_of_sign (s : Z) : float :=
  match s with
  | Z0 => NaN
  | Zpos _ => PInf
  | Zneg _ => NInf
  end.

(** The range of float64, rounding to nearest: an exact result of
    magnitude [2^1024 - 2^970] or more becomes an infinity, one of
    magnitude [2^-1075] or less becomes zero. *)
Definition overflow_threshold : Q := inject_Z (2 ^ 1024 - 2 ^ 970).
Definition underflow_threshold : Q := 1 # 2 ^ 1075.

Definition to_range (q : Q) : float :=
  if Qle_bool overflow_threshold (Qabs q) then inf_of_sign (Qsgn q)
  else if Qle_bool (Qabs q) underflow_threshold then Fin 0
  else Fin q.

Definition fneg (x : float) : float :=
  match x with
  | NaN => NaN
  | NInf => PInf
  | Fin q => Fin (- q)
  | PInf => NInf
  end.

Definition fadd (x y : float) : float :=
  match x, y with
  | NaN, _ | _, NaN => NaN
  | Fin a, Fin b => to_range (a + b)
  | PInf, NInf | NInf, PInf => NaN
  | PInf, _ | _, PInf => PInf
  | NInf, _ | _, NInf => NInf
  end.

Definition fsub (x y : float) : float := fadd x (fneg y).

Definition fmul (x y : float) : float :=
  match x, y with
  | NaN, _ | _, NaN => NaN
  | Fin a, Fin b => to_range (a * b)
  | _, _ => inf_of_sign (sgn x * sgn y)
  end.

Definition fdiv (x y : float) : float :=
  match x, y with
  | NaN, _ | _, NaN => NaN
  | Fin a, Fin b =>
    if Qeq_bool b 0 then inf_of_sign (Qsgn a) else to_range (a / b)
  | Fin _, _ => Fin 0
  | _, Fin b => inf_of_sign (sgn x * (if Qeq_bool b 0 then 1 else Qsgn b))
  | _, _ => NaN
  end.

Definition fabs (x : float) : float :=
  match x with
  | NaN => NaN
  | NInf | PInf => PInf
  | Fin q => Fin (Qabs q)
  end.

(** [x <= y] and [x < y]; every comparison with [nan] is false. *)
Definition fle (x y : float) : bool :=
  match x, y with
  | NaN, _ | _, NaN => false
  | NInf, _ => true
  | _, PInf => true
  | Fin a, Fin b => Qle_bool a b
  | _, _ => false
  end.

Definition flt (x y : float) : bool := fle x y && negb (fle y x).

Definition of_Z (z : Z) : float := Fin (inject_Z z).
Definition of_nat (n : nat) : float := of_Z (Z.of_nat n).

(** [np.sqrt] over a square root on the finite non-negative numbers. *)
Definition np_sqrt (sqrtQ : Q -> Q) (x : float) : float :=
  match x with
  | NaN | NInf => NaN
  | Fin q => if Qle_bool 0 q then Fin (sqrtQ q) else NaN
  | PInf => PInf
  end.

(** A two-dimensional array: its shape and its rows. *)
Record ndarray : Type := mkArray {
  shape0 : nat;
  shape1 : nat;
  rows : list (list float)
}.

Definition column (t : nat) (M : ndarray) : list float :=
  map (fun r => nth t r NaN) (rows M).

Definition fsum (a : list float) : float := foldl fadd (Fin 0) a.

(** [np.mean] of a one-dimensional array; [nan] for an empty one. *)
Definition fmean (a : list float) : float := fdiv (fsum a) (of_nat (length a)).

(** [np.mean(M, axis=0)] *)
Definition np_mean0 (M : ndarray) : list float :=
  map (fun t => fmean (column t M)) (seq 0 (shape1 M)).

(** [np.atleast_2d(np.cov(M, rowvar=False, bias=True))].  The columns are
    the variables: they are centred, multiplied pairwise, and the sums
    scaled by [1 / fact], where [fact] is the number of rows.  An array of
    one row is the exception: NumPy 1.x does not transpose it
    ([if not rowvar and X.shape[0] != 1: X = X.T]), so its row is taken as
    the observations of one variable, and the result is the variance of
    the entries of the row, an array of shape 1 x 1. *)
Definition np_cov (M : ndarray) : list (list float) :=
  match rows M with
  | [row] =>
    let avg := fmean row in
    let fact := of_nat (length row) in
    let centred := map (fun x => fsub x avg) row in
    [[fmul (fsum (zip_with fmul centred centred)) (fdiv (Fin 1) fact)]]
  | _ =>
    let avg := np_mean0 M in
    let fact := of_nat (length (rows M)) in
    let centred t := map (fun x => fsub x (nth t avg NaN)) (column t M) in
    map (fun s =>
           map (fun t =>
                  fmul (fsum (zip_with fmul (centred s) (centred t)))
                       (fdiv (Fin 1) fact))
               (seq 0 (shape1 M)))
        (seq 0 (shape1 M))
  end.

(** [a + b] for two-dimensional arrays of one shape, or one of them of
    shape 1 x 1, which is broadcast. *)
Definition np_add_2d (a b : list (list float)) : res (list (list float)) :=
  if decide (map length a = map length b) then
    Ok (zip_with (zip_with fadd) a b)
  else
    match a, b with
    | [[x]], _ => Ok (map (map (fadd x)) b)
    | _, [[y]] => Ok (map (map (fun x => fadd x y)) a)
    | _, _ => Err (ValueError Broadcast)
    end.

(** [a / b] for one-dimensional arrays of one length, or one of them of
    length 1, which is broadcast. *)
Definition np_divide (a b : list float) : res (list float) :=
  if decide (length a = length b) then Ok (zip_with fdiv a b)
  else
    match a, b with
    | [x], _ => Ok (map (fdiv x) b)
    | _, [y] => Ok (map (fun x => fdiv x y) a)
    | _, _ => Err (ValueError Broadcast)
    end.

Definition np_diag (V : list (list float)) : list float :=
  imap (fun t row => nth t row NaN) V.

(** [M[mask]] for a boolean mask over the rows. *)
Fixpoint select (mask : list bool) (l : list (list float)) : list (list float) :=
  match mask, l with
  | b :: mask', r :: l' => if b then r :: select mask' l' else select mask' l'
  | _, _ => []
  end.

Definition mask_rows (M : ndarray) (mask : list bool) : res ndarray :=
  if decide (length mask = shape0 M) then
    let sel := select mask (rows M) in
    Ok (mkArray (length sel) (shape1 M) sel)
  else Err (IndexError "X").

(** [a[i]] for an index that is not negative. *)
Definition getitem {A} (name : string) (a : list A) (i : nat) : res A :=
  match a !! i with
  | Some x => Ok x
  | None => Err (IndexError name)
  end.

(** [a[idx]] for an array of indices. *)
Definition take_indices {A} (name : string) (a : list A) (idx : list nat)
    : res (list A) :=
  mapM (getitem name a) idx.

(** [V[idx[:, np.newaxis], idx]] *)
Definition submatrix (name : string) (V : list (list float)) (idx : list nat)
    : res (list (list float)) :=
  sel ← take_indices name V idx;
  mapM (fun row => take_indices name row idx) sel.

(** [np.delete(a, i)] *)
Definition np_delete {A} (name : string) (a : list A) (i : nat) : res (list A) :=
  if decide (i < length a)%nat then Ok (delete i a)
  else Err (IndexError name).

(** [np.argmax]: the scan keeps the first maximum and stops at a [nan],
    which counts as the maximum. *)
Fixpoint argmax_scan (mp : float) (max_ind i : nat) (a : list float) : nat :=
  match a with
  | [] => max_ind
  | x :: a' =>
    if fle x mp then argmax_scan mp max_ind (S i) a'
    else if isnan x then i
    else argmax_scan x i (S i) a'
  end.

Definition np_argmax (a : list float) : res nat :=
  match a with
  | [] => Err (ValueError ArgmaxEmpty)
  | x :: a' => Ok (if isnan x then 0%nat else argmax_scan x 0 1 a')
  end.

(** [a @ b] for a row and a column. *)
Definition dot (a b : list float) : float := fsum (zip_with fmul a b).

(** [len(np.unique(y))] *)
Definition n_unique (y : list Z) : nat := length (remove_dups y).

(** [sum(Y)] *)
Definition py_sum (Y : list Z) : Z := foldl Z.add 0%Z Y.

Definition py_assert (b : bool) : res unit :=
  if b then Ok tt else Err AssertionError.

(** A loop over [l] that threads a state and stops at the first raise. *)
Fixpoint for_each {S A} (l : list A) (body : A -> S -> res S) (s : S) : res S :=
  match l with
  | [] => Ok s
  | x :: l' => s' ← body x s; for_each l' body s'
  end.

End NumPy.

(** ** [_rkvs.py] *)

Module RKVS.
Import NumPy.
Local Open Scope Q_scope.

Section Selection.

(** The square root of [np.sqrt] on finite non-negative numbers, and
    [numpy.linalg.lstsq(a, b, rcond=None)[0]], which raises [LinAlgError]
    when its decomposition does not converge ([None]). *)
Variable sqrtQ : Q -> Q.
Variable lstsq : list (list float) -> list float -> option (list float).

Definition linalg_lstsq (a : list (list float)) (b : list float)
    : res (list float) :=
  match lstsq a b with
  | Some x => Ok x
  | None => Err LinAlgError
  end.

(** The state of the selection loop. *)
Record loop_state : Type := mkLoop {
  selected_features : list nat;
  score : list float;
  indexes : list nat
}.

(** The class means and the pooled covariance of [_rkhs_vs]. *)
Definition class_means (class_1_trajectories class_0_trajectories : ndarray)
    : list float :=
  zip_with fsub (np_mean0 class_1_trajectories) (np_mean0 class_0_trajectories).

Definition pooled_covariance (class_1_proportion class_0_proportion : float)
    (class_1_trajectories class_0_trajectories : ndarray)
    : res (list (list float)) :=
  np_add_2d
    (map (map (fmul class_1_proportion)) (np_cov class_1_trajectories))
    (map (map (fmul class_0_proportion)) (np_cov class_0_trajectories)).

(** [np.abs(means) / np.sqrt(np.diag(variances))] *)
Definition mu_sigma_of (means : list float) (variances : list (list float))
    : res (list float) :=
  np_divide (map fabs means) (map (np_sqrt sqrtQ) (np_diag variances)).

(** The score of one candidate: the body of the loop over [j]. *)
Definition candidate_score (means : list float) (variances : list (list float))
    (selected : list nat) (candidate : nat) : res float :=
  let new_selection := selected ++ [candidate] in
  new_means ← take_indices "means" means new_selection;
  sub ← submatrix "variances" variances new_selection;
  lstsq_solution ← linalg_lstsq sub new_means;
  Ok (dot new_means lstsq_solution).

(** The body of the loop over [i]. *)
Definition select_next (means : list float) (variances : list (list float))
    (i : nat) (st : loop_state) : res loop_state :=
  aux ← mapM (candidate_score means variances (take i (selected_features st)))
             (indexes st);
  aux2 ← np_argmax aux;
  chosen ← getitem "indexes" (indexes st) aux2;
  best ← getitem "aux" aux aux2;
  rest ← np_delete "indexes" (indexes st) aux2;
  Ok (mkLoop (<[i := chosen]> (selected_features st))
             (<[i := best]> (score st))
             rest).

(** The block "Calculate means and covariance matrix" of [_rkhs_vs]. *)
Definition means_and_variances (X : ndarray) (Y : list Z)
    : res (list float * list (list float)) :=
  class_1_trajectories ← mask_rows X (map (Z.eqb 1) Y);
  class_0_trajectories ← mask_rows X (map (Z.eqb 0) Y);
  let means := class_means class_1_trajectories class_0_trajectories in
  let class_1_count := py_sum Y in
  let class_0_count := (Z.of_nat (length Y) - class_1_count)%Z in
  (* sum(Y) and Y.shape[0] are Python integers when Y is empty *)
  _ ← (if decide (length Y = 0%nat) then Err ZeroDivisionError else Ok tt);
  let class_1_proportion := fdiv (of_Z class_1_count) (of_nat (length Y)) in
  let class_0_proportion := fdiv (of_Z class_0_count) (of_nat (length Y)) in
  (* The result should be casted to 2D because of bug #11502 in numpy *)
  variances ←
    pooled_covariance class_1_proportion class_0_proportion
                      class_1_trajectories class_0_trajectories;
  Ok (means, variances).

Definition _rkhs_vs (X : ndarray) (Y : list Z) (n_components : Z)
    : res (list nat * list float) :=
  _ ← py_assert (1 <=? n_components)%Z;
  _ ← py_assert (n_components <=? Z.of_nat (shape1 X))%Z;
  let n := Z.to_nat n_components in
  let st :=
    mkLoop (replicate n 0%nat) (replicate n (Fin 0)) (seq 0 (shape1 X)) in
  (* Calculate means and covariance matrix *)
  stats ← means_and_variances X Y;
  let means := stats.1 in
  let variances := stats.2 in
  (* The first variable maximizes |mu(t)|/sigma(t) *)
  mu_sigma ← mu_sigma_of means variances;
  first ← np_argmax mu_sigma;
  first_score ← getitem "mu_sigma" mu_sigma first;
  rest ← np_delete "indexes" (indexes st) first;
  let st :=
    mkLoop (<[0%nat := first]> (selected_features st))
           (<[0%nat := first_score]> (score st))
           rest in
  st ← for_each (seq 1 (n - 1)) (select_next means variances) st;
  Ok (selected_features st, score st).

(** *** The estimator *)

Record RKHSVariableSelection : Type := mkSelector {
  n_components : Z;
  _features_shape_ : option nat;
  _features_ : option (list nat);
  _scores_ : option (list float)
}.

(** [__init__(self, n_components=1)]; [None] stands for an argument that
    is left out. *)
Definition __init__ (n_components : option Z) : RKHSVariableSelection :=
  mkSelector (default 1%Z n_components) None None None.

(** The number of points of the grid, the second axis of
    [X.data_matrix[..., 0]] when the domain has one dimension. *)
Definition n_points (X : FDataGrid) : nat :=
  foldr (fun g acc => (length g * acc)%nat) 1%nat (grid_points X).

Definition to_ndarray (X : FDataGrid) : ndarray :=
  mkArray (n_samples X) (n_points X) (map (map Fin) (data_matrix X)).

(** [sklearn.utils.validation.check_array]: a two-dimensional array of
    finite numbers with at least one sample and one feature. *)
Definition check_array (M : ndarray) : res ndarray :=
  if (0 <? shape0 M)%nat && (0 <? shape1 M)%nat
     && forallb (forallb isfinite) (rows M)
  then Ok M else Err (ValueError CheckArray).

(** [sklearn.utils.validation.check_X_y]: [check_array] on [X], and as
    many labels as samples. *)
Definition check_X_y (M : ndarray) (y : list Z) : res (ndarray * list Z) :=
  M ← check_array M;
  if decide (length y = shape0 M) then Ok (M, y)
  else Err (ValueError CheckArray).

Definition fit (self : RKHSVariableSelection) (X : FDataGrid) (y : list Z)
    : RKHSVariableSelection * res unit :=
  let n_unique_labels := n_unique y in
  if negb (n_unique_labels =? 2)%nat then
    (self, Err (ValueError (TwoLabels n_unique_labels)))
  else if negb (dim_domain X =? 1)%nat || negb (dim_codomain X =? 1)%nat then
    (self, Err (ValueError DomainCodomainDim))
  else
    match check_X_y (to_ndarray X) y with
    | Err e => (self, Err e)
    | Ok (X, y) =>
      let self :=
        mkSelector (n_components self) (Some (shape1 X))
                   (_features_ self) (_scores_ self) in
      match _rkhs_vs X y (n_components self) with
      | Err e => (self, Err e)
      | Ok (features, scores) =>
        (mkSelector (n_components self) (_features_shape_ self)
                    (Some features) (Some scores), Ok tt)
      end
    end.

(** [sklearn.utils.validation.check_is_fitted]: some instance attribute
    has a name that ends with an underscore. *)
Definition check_is_fitted (self : RKHSVariableSelection) : res unit :=
  if is_Some_dec (_features_shape_ self) then Ok tt
  else if is_Some_dec (_features_ self) then Ok tt
  else if is_Some_dec (_scores_ self) then Ok tt
  else Err NotFittedError.

Definition transform (self : RKHSVariableSelection) (X : FDataGrid)
    : res (list (list float)) :=
  _ ← check_is_fitted self;
  X_matrix ← check_array (to_ndarray X);
  features_shape ← getattr "_features_shape_" (_features_shape_ self);
  if negb (shape1 X_matrix =? features_shape)%nat then
    Err (ValueError DifferentNumberOfPoints)
  else
    features ← getattr "_features_" (_features_ self);
    mapM (fun row => take_indices "X_matrix" row features) (rows X_matrix).

Definition get_support (self : RKHSVariableSelection) (indices : bool)
    : res (list nat + list bool) :=
  features ← getattr "_features_" (_features_ self);
  if indices then Ok (inl features)
  else
    features_shape ← getattr "_features_shape_" (_features_shape_ self);
    mask ← for_each features
              (fun i mask =>
                 if decide (i < length mask)%nat then Ok (<[i := true]> mask)
                 else Err (IndexError "mask"))
              (replicate features_shape false);
    Ok (inr mask).

End Selection.

End RKVS.

(** ** [_basis.py] *)

Module Basis.
Import NumPyQ.
Local Open Scope Q_scope.

(** The data a smoother receives: a grid, an irregular sample (its points,
    one row per observation, and its values), or another kind of [FData]. *)
Inductive FData : Type :=
| Grid (fd : FDataGrid)
| Irregular (points : list (list Q)) (values : list (list Q))
| OtherFData.

Inductive LstsqMethod : Type := cholesky | qr | svd.

(** What [transform] returns: an [FDataBasis] (its coefficients) or the
    smoothed [FDataGrid] (its values). *)
Inductive smoothed : Type :=
| InBasis (coefficients : list (list Q))
| OnGrid (values : list (list Q)).

Record BasisSmoother : Type := mkSmoother {
  method : LstsqMethod;
  output_points : option (list (list Q));
  return_basis : bool;
  input_points_ : option (list (list Q));
  output_points_ : option (list (list Q));
  hat_matrix_ : option (list (list Q))
}.

(** [__init__(self, basis, *, ..., output_points=None, method='svd',
    return_basis=False)]; [None] stands for an argument that is left out.
    The basis, the weights, the smoothing parameter and the regularization
    are read only by the back ends below. *)
Definition __init__ (output_points : option (list (list Q)))
    (method : option LstsqMethod) (return_basis : option bool)
    : BasisSmoother :=
  mkSmoother (default svd method) output_points (default false return_basis)
             None None None.

(** [_cartesian_product] of the axes of a grid. *)
Definition _cartesian_product (axes : list (list Q)) : list (list Q) :=
  foldr (fun axis acc => x ← axis; p ← acc; [x :: p]) [[]] axes.

Fixpoint transpose (ncols : nat) (M : list (list Q)) : list (list Q) :=
  match ncols with
  | O => []
  | S k => transpose k M ++ [map (fun r => nth k r 0) M]
  end.

Definition _eval_points (fd : FData) : res (list (list Q)) :=
  match fd with
  | Grid g => Ok (_cartesian_product (grid_points g))
  | Irregular points _ => Ok points
  | OtherFData => Err (ValueError NotFData)
  end.

Definition _input_points (fd : FData) : res (list (list Q)) :=
  match fd with
  | Grid g => Ok (grid_points g)
  | Irregular points _ => Ok points
  | OtherFData => Err (ValueError NotFData)
  end.

(** [fd.data_matrix.reshape((fd.n_samples, -1)).T] for a grid. *)
Definition _function_values (fd : FData) : res (list (list Q)) :=
  match fd with
  | Grid g =>
    Ok (transpose (length (_cartesian_product (grid_points g)))
                  (data_matrix g))
  | Irregular _ values => Ok values
  | OtherFData => Err (ValueError NotFData)
  end.

(** [np.array_equal] on one-dimensional arrays: the same shape and the
    same entries. *)
Definition np_array_equal (a b : list Q) : bool :=
  (length a =? length b)%nat && forallb (fun p => Qeq_bool p.1 p.2) (zip a b).

(** [all(np.array_equal(i, s) for i, s in zip(fitted, given))] *)
Definition same_input_points (fitted given : list (list Q)) : bool :=
  forallb (fun p => np_array_equal p.1 p.2) (zip fitted given).

Section Smoother.

(** The back ends: [self.basis(eval_points).reshape((n_basis, -1)).T],
    [compute_penalty_matrix] for the smoother's own parameters,
    [solve_regularized_weighted_lstsq], and [fit] and [transform] of the
    base class [_LinearSmoother]. *)
Variable basis_values : list (list Q) -> res (list (list Q)).
Variable compute_penalty_matrix : res (list (list Q)).
Variable solve_regularized_weighted_lstsq :
  list (list Q) -> list (list Q) -> list (list Q) -> LstsqMethod ->
  res (list (list Q)).
Variable linear_smoother_fit : BasisSmoother -> FData -> res (list (list Q)).
Variable linear_smoother_transform : BasisSmoother -> FData -> res smoothed.

Definition np_eye (n : nat) : list (list Q) :=
  map (fun i => map (fun j => if (i =? j)%nat then 1 else 0) (seq 0 n))
      (seq 0 n).

Definition _coef_matrix (self : BasisSmoother) (eval_points : list (list Q))
    (function_values : option (list (list Q))) : res (list (list Q)) :=
  basis_values_input ← basis_values eval_points;
  penalty_matrix ← compute_penalty_matrix;
  (* Get the matrix for computing the coefficients if no
     function_values is passed *)
  let function_values :=
    match function_values with
    | None => np_eye (length basis_values_input)
    | Some v => v
    end in
  solve_regularized_weighted_lstsq basis_values_input function_values
                                   penalty_matrix (method self).

Definition fit (self : BasisSmoother) (X : FData) : BasisSmoother * res unit :=
  match _input_points X with
  | Err e => (self, Err e)
  | Ok points =>
    let self :=
      mkSmoother (method self) (output_points self) (return_basis self)
                 (Some points) (output_points_ self) (hat_matrix_ self) in
    let self :=
      mkSmoother (method self) (output_points self) (return_basis self)
                 (input_points_ self)
                 (Some (match output_points self with
                        | Some o => o
                        | None => points
                        end))
                 (hat_matrix_ self) in
    if negb (return_basis self) then
      match linear_smoother_fit self X with
      | Err e => (self, Err e)
      | Ok hat =>
        (mkSmoother (method self) (output_points self) (return_basis self)
                    (input_points_ self) (output_points_ self) (Some hat),
         Ok tt)
      end
    else (self, Ok tt)
  end.

(** The check that opens [transform]. *)
Definition check_input_points (self : BasisSmoother) (X : FData) : res unit :=
  fitted ← getattr "input_points_" (input_points_ self);
  given ← _input_points X;
  if same_input_points fitted given then Ok tt else Err AssertionError.

(** The statements of [transform] that follow the check. *)
Definition smooth (self : BasisSmoother) (X : FData) : res smoothed :=
  if return_basis self then
    eval_points ← _eval_points X;
    function_values ← _function_values X;
    coefficients ← _coef_matrix self eval_points (Some function_values);
    Ok (InBasis (transpose (length (hd [] coefficients)) coefficients))
  else linear_smoother_transform self X.

Definition transform (self : BasisSmoother) (X : FData) : res smoothed :=
  _ ← check_input_points self X;
  smooth self X.

End Smoother.

End Basis.

(** ** [_depth_classifiers.py] *)

Module DepthClassifiers.
Import NumPy.

(** What the two classes use of the rest of the package and of
    scikit-learn: the depth methods (instances of the subclasses of
    [Depth], among them [ModifiedBandDepth()] and [IntegratedDepth()]),
    [sklearn.base.clone], [fit] of a depth, which returns the fitted depth,
    and its [predict], which gives one depth per sample,
    [_classifier_get_classes], which returns the classes and the index of
    the class of every label, and the indexing [X[mask]] of an [FDataGrid]
    by a boolean mask. *)
Class Package : Type := {
  Depth : Type;
  ModifiedBandDepth : Depth;
  IntegratedDepth : Depth;
  clone : Depth -> res Depth;
  depth_fit : Depth -> FDataGrid -> res Depth;
  depth_predict : Depth -> FDataGrid -> res (list float);
  _classifier_get_classes : list Z -> res (list Z * list nat);
  getitem_mask : FDataGrid -> list bool -> res FDataGrid
}.

(** [np.argmax(a, axis=0)] and [np.transpose(a)] for a list [a] of
    one-dimensional arrays of one length, the rows of a matrix. *)
Definition np_argmax_axis0 (a : list (list float)) : res (list nat) :=
  match a with
  | [] => Err (ValueError ArgmaxEmpty)
  | row :: _ =>
    mapM (fun s => np_argmax (map (fun r => nth s r NaN) a))
         (seq 0 (length row))
  end.

Definition np_transpose (a : list (list float)) : list (list float) :=
  match a with
  | [] => []
  | row :: _ =>
    map (fun s => map (fun r => nth s r NaN) a) (seq 0 (length row))
  end.

(** [y_ind == cur_class] *)
Definition np_eq (y_ind : list nat) (cur_class : nat) : list bool :=
  map (fun l => l =? cur_class)%nat y_ind.

Module MaximumDepthClassifier.
Section Classifier.
Context `{Package}.

Record MaximumDepthClassifier : Type := mkClassifier {
  depth_method : Depth;
  classes_ : option (list Z);
  distributions_ : option (list Depth)
}.

(** [__init__(self, depth_method=None)] *)
Definition __init__ (depth_method : option Depth) : MaximumDepthClassifier :=
  match depth_method with
  | None => mkClassifier ModifiedBandDepth None None
  | Some depth_method => mkClassifier depth_method None None
  end.

Definition fit (self : MaximumDepthClassifier) (X : FDataGrid) (y : list Z)
    : MaximumDepthClassifier * res unit :=
  match _classifier_get_classes y with
  | Err e => (self, Err e)
  | Ok (classes, y_ind) =>
    let self :=
      mkClassifier (depth_method self) (Some classes) (distributions_ self) in
    match mapM (fun cur_class =>
                  cloned ← clone (depth_method self);
                  X_class ← getitem_mask X (np_eq y_ind cur_class);
                  depth_fit cloned X_class)
               (seq 0 (length classes)) with
    | Err e => (self, Err e)
    | Ok distributions =>
      (mkClassifier (depth_method self) (classes_ self)
                    (Some distributions), Ok tt)
    end
  end.

(** [sklearn.utils.validation.check_is_fitted]: some instance attribute
    has a name that ends with an underscore. *)
Definition check_is_fitted (self : MaximumDepthClassifier) : res unit :=
  if is_Some_dec (classes_ self) then Ok tt
  else if is_Some_dec (distributions_ self) then Ok tt
  else Err NotFittedError.

Definition predict (self : MaximumDepthClassifier) (X : FDataGrid)
    : res (list Z) :=
  _ ← check_is_fitted self;
  distributions ← getattr "distributions_" (distributions_ self);
  depths ← mapM (fun distribution => depth_predict distribution X)
                distributions;
  classes ← getattr "classes_" (classes_ self);
  deepest ← np_argmax_axis0 depths;
  take_indices "classes_" classes deepest.

End Classifier.
End MaximumDepthClassifier.

Module DDTransform.
Section Transformer.
Context `{Package}.

Record DDTransform : Type := mkTransform {
  depth_methods : list Depth;
  classes_ : option (list Z);
  distributions_ : option (list Depth)
}.

(** [__init__(self, depth_methods=None)] *)
Definition __init__ (depth_methods : option (list Depth)) : DDTransform :=
  match depth_methods with
  | None => mkTransform [ModifiedBandDepth; IntegratedDepth] None None
  | Some depth_methods => mkTransform depth_methods None None
  end.

Definition fit (self : DDTransform) (X : FDataGrid) (y : list Z)
    : DDTransform * res unit :=
  match _classifier_get_classes y with
  | Err e => (self, Err e)
  | Ok (classes, y_ind) =>
    let self :=
      mkTransform (depth_methods self) (Some classes) (distributions_ self) in
    match mapM (fun '(cur_class, depth_method) =>
                  cloned ← clone depth_method;
                  X_class ← getitem_mask X (np_eq y_ind cur_class);
                  depth_fit cloned X_class)
               (cur_class ← seq 0 (length classes);
                depth_method ← depth_methods self;
                [(cur_class, depth_method)]) with
    | Err e => (self, Err e)
    | Ok distributions =>
      (mkTransform (depth_methods self) (classes_ self)
                   (Some distributions), Ok tt)
    end
  end.

Definition check_is_fitted (self : DDTransform) : res unit :=
  if is_Some_dec (classes_ self) then Ok tt
  else if is_Some_dec (distributions_ self) then Ok tt
  else Err NotFittedError.

Definition transform (self : DDTransform) (X : FDataGrid)
    : res (list (list float)) :=
  _ ← check_is_fitted self;
  distributions ← getattr "distributions_" (distributions_ self);
  depths ← mapM (fun distribution => depth_predict distribution X)
                distributions;
  Ok (np_transpose depths).

End Transformer.
End DDTransform.

End DepthClassifiers.

(** ** [clustering.py] *)

Module Clustering.
Import NumPyQ.
Local Open Scope Q_scope.

(** The exceptions of the module: its own [ValueError]s with their
    messages, and those of the NumPy operations of [plot]. *)
Inductive plot_exn : Type :=
| ValueErrorOf (message : string)
| IndexErrorOf (array : string)
| ConcatenateError
    (* "all the input array dimensions except for the concatenation axis
        must match exactly" *)
| TypeErrorOf (sequence : string).
    (* "only integer scalar arrays can be converted to a scalar index" *)

Inductive result (A : Type) : Type :=
| Return (a : A)
| Raise (e : plot_exn).
Arguments Return {A} a.
Arguments Raise {A} e.

#[global] Instance result_ret : MRet result := fun A a => Return a.
#[global] Instance result_bind : MBind result :=
  fun A B f m => match m with Return a => f a | Raise e => Raise e end.

(** A sequence given by the caller: a Python list (or tuple), or a NumPy
    array. *)
Inductive sequence (A : Type) : Type :=
| PyList (items : list A)
| NdArray (items : list A).
Arguments PyList {A} items.
Arguments NdArray {A} items.

Definition items {A} (s : sequence A) : list A :=
  match s with PyList l | NdArray l => l end.

(** [len(s)] *)
Definition len {A} (s : sequence A) : Z := Z.of_nat (length (items s)).

(** [s is not None and len(s) != n] *)
Definition is_not_None_and_len_differs {A} (s : option (sequence A)) (n : Z)
    : bool :=
  match s with
  | Some s => negb (len s =? n)%Z
  | None => false
  end.

Section Checks.
Context {ColorLike : Type}.

(** [estimator.n_clusters] and [fdata.n_samples] stand for the estimator
    and the data. *)
Definition _plot_clustering_checks (n_clusters : Z) (n_samples : nat)
    (sample_colors : option (sequence ColorLike))
    (sample_labels : option (sequence string))
    (cluster_colors : option (sequence ColorLike))
    (cluster_labels : option (sequence string))
    (center_colors : option (sequence ColorLike))
    (center_labels : option (sequence string)) : result unit :=
  if is_not_None_and_len_differs sample_colors (Z.of_nat n_samples) then
    Raise (ValueErrorOf
             "sample_colors must contain a color for each sample.")
  else if is_not_None_and_len_differs sample_labels (Z.of_nat n_samples) then
    Raise (ValueErrorOf
             "sample_labels must contain a label for each sample.")
  else if is_not_None_and_len_differs cluster_colors n_clusters then
    Raise (ValueErrorOf
             "cluster_colors must contain a color for each cluster.")
  else if is_not_None_and_len_differs cluster_labels n_clusters then
    Raise (ValueErrorOf
             "cluster_labels must contain a label for each cluster.")
  else if is_not_None_and_len_differs center_colors n_clusters then
    Raise (ValueErrorOf
             "center_colors must contain a color for each center.")
  else if is_not_None_and_len_differs center_labels n_clusters then
    Raise (ValueErrorOf
             "centers_labels must contain a label for each center.")
  else Return tt.

End Checks.

Definition _get_labels (x_label y_label title : option string)
    (xlabel_str : string) : string * string * string :=
  let x_label :=
    match x_label with None => xlabel_str | Some x_label => x_label end in
  let y_label :=
    match y_label with
    | None => "Degree of membership"%string
    | Some y_label => y_label
    end in
  let title :=
    match title with
    | None => "Degrees of membership of the samples to each cluster"%string
    | Some title => title
    end in
  (x_label, y_label, title).

(** *** [ClusterMembershipPlot.plot]

    The statements of [plot] that follow
    [membership = self.estimator.predict_proba(self.fdata)], as far as
    they decide what is drawn: the arrays given to [axes.bar], the ticks
    and the texts.  The colours, the legend handles and the calls of
    Matplotlib themselves are not modelled. *)

(** A two-dimensional array of numbers: its shape and its rows. *)
Record matrix : Type := mkMatrix {
  shape0 : nat;
  shape1 : nat;
  rows : list (list Q)
}.

(** A tick label: an entry of [np.arange], or a text of the caller. *)
Inductive tick : Type :=
| Number (i : nat)
| Text (s : string).

(** What [plot] hands to Matplotlib: for each cluster the heights and the
    bottoms of its bars, the ticks of the x axis with their labels, the
    labels of the axes, the labels of the legend and the title. *)
Record drawn : Type := mkDrawn {
  bars : list (list Q * list Q);
  xticks : list nat;
  xticklabels : list tick;
  xlabel : string;
  ylabel : string;
  legend_labels : list string;
  suptitle : string
}.

(** [a[i]] inside an array, for an index that is not negative. *)
Definition getitem {A} (name : string) (a : list A) (i : nat) : result A :=
  match a !! i with
  | Some x => Return x
  | None => Raise (IndexErrorOf name)
  end.

(** [s[index]] for an array of indices: a Python list cannot be indexed
    by an array. *)
Definition getitem_indices {A} (name : string) (s : sequence A)
    (index : list nat) : result (list A) :=
  match s with
  | PyList _ => Raise (TypeErrorOf name)
  | NdArray a => mapM (getitem name a) index
  end.

(** [M[:, j]], [M[index]] and [M[:, j] = v] *)
Definition column (name : string) (M : matrix) (j : nat) : result (list Q) :=
  if (j <? shape1 M)%nat then Return (map (fun r => nth j r 0) (rows M))
  else Raise (IndexErrorOf name).

Definition take_rows (name : string) (M : matrix) (index : list nat)
    : result matrix :=
  selected ← mapM (getitem name (rows M)) index;
  Return (mkMatrix (length index) (shape1 M) selected).

Definition set_column (name : string) (M : matrix) (j : nat) (v : list Q)
    : result matrix :=
  if (j <? shape1 M)%nat then
    Return (mkMatrix (shape0 M) (shape1 M)
                     (zip_with (fun r x => <[j := x]> r) (rows M) v))
  else Raise (IndexErrorOf name).

(** An array whose rows agree with its shape. *)
Definition well_shaped (M : matrix) : Prop :=
  length (rows M) = shape0 M /\
  Forall (fun r => length r = shape1 M) (rows M).

(** [np.sum] of a one-dimensional array *)
Definition np_sum (a : list Q) : Q := foldl Qplus 0 a.

Section ClusterMembershipPlot.
Context {ColorLike : Type}.

(** [np.argsort] of a one-dimensional array *)
Variable np_argsort : list Q -> list nat.

(** [self.sample_labels], once [None] is replaced by
    [np.arange(self.fdata.n_samples)]. *)
Definition sample_labels_or_arange (sample_labels : option (sequence string))
    (n_samples : nat) : sequence tick :=
  match sample_labels with
  | None => NdArray (map Number (seq 0 n_samples))
  | Some (PyList l) => PyList (map Text l)
  | Some (NdArray l) => NdArray (map Text l)
  end.

(** [self.cluster_labels], once [None] is replaced by the texts
    [$CLUSTER: i$]. *)
Definition cluster_labels_or_default (cluster_labels : option (sequence string))
    (n_clusters : Z) : list string :=
  match cluster_labels with
  | None =>
    map (fun i : nat => "$CLUSTER: " +:+ pretty i +:+ "$")
        (seq 0 (Z.to_nat n_clusters))
  | Some l => items l
  end.

(** The branch [else] of [if self.sort == -1]: the samples are put in the
    order of their membership to the cluster [sort], largest first, and
    the columns 0 and [sort] change places. *)
Definition sort_samples (membership : matrix) (sort : nat)
    (sample_labels : sequence tick) : result (sequence tick * matrix) :=
  key ← column "membership" membership sort;
  let sample_indices := np_argsort (map Qopp key) in
  sample_labels ← getitem_indices "sample_labels" sample_labels
                                  sample_indices;
  labels_dim ← take_rows "membership" membership sample_indices;
  temp_labels ← column "labels_dim" labels_dim 0;
  moved ← column "labels_dim" labels_dim sort;
  labels_dim ← set_column "labels_dim" labels_dim 0 moved;
  labels_dim ← set_column "labels_dim" labels_dim sort temp_labels;
  Return (NdArray sample_labels, labels_dim).

(** The column of zeros put before [labels_dim], and the loop over the
    clusters: the bars of the cluster [i] have the heights
    [labels_dim[:, i + 1]] and the bottoms
    [np.sum(labels_dim[:, :(i + 1)], axis=1)]. *)
Definition stacked_bars (labels_dim : matrix) (n_samples : nat)
    (n_clusters : Z) : result (list (list Q * list Q)) :=
  if negb (shape0 labels_dim =? n_samples)%nat then Raise ConcatenateError
  else
    let labels_dim :=
      mkMatrix n_samples (1 + shape1 labels_dim)
               (map (cons 0) (rows labels_dim)) in
    mapM (fun i : nat =>
            heights ← column "labels_dim" labels_dim (i + 1);
            let bottom :=
              map (fun r => np_sum (take (i + 1) r)) (rows labels_dim) in
            Return (heights, bottom))
         (seq 0 (Z.to_nat n_clusters)).

Definition plot (membership : matrix) (n_clusters : Z) (n_samples : nat)
    (sort : Z)
    (sample_labels : option (sequence string))
    (cluster_colors : option (sequence ColorLike))
    (cluster_labels : option (sequence string))
    (x_label y_label title : option string) : result drawn :=
  _ ← (if (sort <? -1)%Z || (n_clusters <=? sort)%Z then
         Raise (ValueErrorOf
           "The sorting number must belong to the interval [-1, n_clusters)")
       else Return tt);
  _ ← _plot_clustering_checks n_clusters n_samples
         None sample_labels cluster_colors cluster_labels None None;
  let '(x_label, y_label, title) :=
    _get_labels x_label y_label title "Sample" in
  let sample_labels := sample_labels_or_arange sample_labels n_samples in
  let cluster_labels := cluster_labels_or_default cluster_labels n_clusters in
  sorted ← (if (sort =? -1)%Z then Return (sample_labels, membership)
            else sort_samples membership (Z.to_nat sort) sample_labels);
  let '(sample_labels, labels_dim) := sorted in
  bars ← stacked_bars labels_dim n_samples n_clusters;
  Return (mkDrawn bars (seq 0 n_samples) (items sample_labels)
                  x_label y_label cluster_labels title).

End ClusterMembershipPlot.

End Clustering.

(** ** The outliergram as the specification words it *)

Module OutliergramSpec.
Import NumPyQ.
Local Open Scope Q_scope.

(** The relation [mbd = a0 + a1 * mei + N^2 * a2 * mei^2] for a batch of
    [N] functions. *)
Definition a0 (N : Q) : Q := - 2 / (N * (N - 1)).
Definition a1 (N : Q) : Q := 2 * (N + 1) / (N - 1).
Definition a2 (N : Q) : Q := a0 N.

Definition parabola (N : Q) (mei : Q) : Q :=
  a0 N + a1 N * mei + N ^ 2 * a2 N * mei ^ 2.

(** The quartiles of the distances and the inlier threshold. *)
Definition Q1 (distances : list Q) : res Q := np_percentile distances 25.
Definition Q3 (distances : list Q) : res Q := np_percentile distances 75.

Definition threshold (factor : Q) (distances : list Q) : res Q :=
  q1 ← Q1 distances;
  q3 ← Q3 distances;
  Ok (q3 + factor * (q3 - q1)).

(** +1 for an inlier, -1 for an outlier. *)
Definition label (threshold distance : Q) : Z :=
  if Qltb threshold distance then (-1)%Z else 1%Z.

(** The batch of the class docstring. *)
Definition docstring_batch : FDataGrid :=
  mkFDataGrid
    [[0; 2; 4; 6; 8; 10]]
    [[1; 1; 2; 3; 5 # 2; 2];
     [1 # 2; 1 # 2; 1; 2; 3 # 2; 1];
     [-1; -1; - (1 # 2); 1; 1; 1 # 2];
     [- (1 # 2); - (1 # 2); - (1 # 2); -1; -1; -1]]
    1.

(** The integral of sampled values by the trapezoid rule. *)
Fixpoint trapezoid (grid values : list Q) : Q :=
  match grid, values with
  | t0 :: ((t1 :: _) as grid'), v0 :: ((v1 :: _) as values') =>
    (v0 + v1) / 2 * (t1 - t0) + trapezoid grid' values'
  | _, _ => 0
  end.

Definition interval_length (grid : list Q) : Q := List.last grid 0 - hd 0 grid.

Definition count_true (l : list bool) : Q :=
  inject_Z (Z.of_nat (length (filter (fun b => b = true) l))).

(** All pairs [j < k] of entries of a list. *)
Fixpoint pairs (l : list Q) : list (Q * Q) :=
  match l with
  | [] => []
  | x :: l' => map (fun y => (x, y)) l' ++ pairs l'
  end.

(** Modelled from the spec: the Depth Engine (section 4.1), which is not
    among the sources.  The depth of a function is, at each grid point, the
    fraction of the pairs of functions of the batch whose band holds its
    value, averaged over the domain with the spacing of the grid; the batch
    must hold at least two functions and one grid point. *)
Definition band_fraction (column : list Q) (v : Q) : Q :=
  count_true
    (map (fun p => Qle_bool (Qmin p.1 p.2) v && Qle_bool v (Qmax p.1 p.2))
         (pairs column))
  / inject_Z (Z.of_nat (length (pairs column))).

Definition ModifiedBandDepth (X : FDataGrid) : res (list Q) :=
  let grid := hd [] (grid_points X) in
  if (n_samples X <? 2)%nat || (length grid =? 0)%nat then
    Err (ValueError CheckArray)
  else
    Ok (map (fun f =>
               trapezoid grid
                 (imap (fun t v =>
                          band_fraction
                            (map (fun g => nth t g 0) (data_matrix X)) v) f)
               / interval_length grid)
            (data_matrix X)).

(** Modelled from the spec: the Modified Epigraph Index (section 4.2),
    which is not among the sources.  The index of a function is the
    fraction of the functions of the batch that lie at or above it,
    averaged over the domain with trapezoid weights. *)
Definition fraction_above (column : list Q) (v : Q) : Q :=
  count_true (map (fun w => Qle_bool v w) column)
  / inject_Z (Z.of_nat (length column)).

Definition modified_epigraph_index (X : FDataGrid) : res (list Q) :=
  let grid := hd [] (grid_points X) in
  Ok (map (fun f =>
             trapezoid grid
               (imap (fun t v =>
                        fraction_above
                          (map (fun g => nth t g 0) (data_matrix X)) v) f)
             / interval_length grid)
          (data_matrix X)).

End OutliergramSpec.

(** ** The RKHS selection as the specification words it *)

Module RKVSSpec.
Import NumPy.
Local Open Scope Q_scope.

(** The solver returns on every system of finite numbers. *)
Definition solver_total_on_finite
    (lstsq : list (list float) -> list float -> option (list float)) : Prop :=
  forall a b,
    Forall (Forall (fun x => isfinite x = true)) a ->
    Forall (fun x => isfinite x = true) b ->
    is_Some (lstsq a b).

(** The system [a x = b] holds entries of [variances] and of [means]. *)
Definition drawn_from (means : list float) (variances : list (list float))
    (a : list (list float)) (b : list float) : Prop :=
  Forall (fun x => x ∈ means) b /\
  Forall (Forall (fun x => exists row, row ∈ variances /\ x ∈ row)) a.

(** The solver raises on a system drawn from the means and variances. *)
Definition solver_fails
    (lstsq : list (list float) -> list float -> option (list float))
    (means : list float) (variances : list (list float)) : Prop :=
  exists a b, drawn_from means variances a b /\ lstsq a b = None.


(** An array of shape P x P. *)
Definition square (P : nat) (V : list (list float)) : Prop :=
  length V = P /\ Forall (fun row => length row = P) V.

(** What the selection loop keeps when it enters iteration [i]: the arrays
    keep their size, the first feature stays in place, and the features
    chosen so far with the remaining candidates are the points
    0, ..., P - 1, each once. *)
Definition selection_invariant (n P first i : nat) (st : RKVS.loop_state)
    : Prop :=
  length (RKVS.selected_features st) = n /\
  length (RKVS.score st) = n /\
  RKVS.selected_features st !! 0%nat = Some first /\
  take i (RKVS.selected_features st) ++ RKVS.indexes st ≡ₚ seq 0 P.

(** The two classes of a sample with two labels: the smaller label and
    the larger one. *)
Definition label_lo (y : list Z) : Z := foldr Z.min (hd 0%Z y) y.
Definition label_hi (y : list Z) : Z := foldr Z.max (hd 0%Z y) y.

Definition class_rows (X : ndarray) (y : list Z) (c : Z)
    : list (list float) :=
  select (map (Z.eqb c) y) (rows X).

Definition class_count (y : list Z) (c : Z) : nat :=
  length (filter (fun l => l = c) y).

Definition class_proportion (y : list Z) (c : Z) : float :=
  fdiv (of_nat (class_count y c)) (of_nat (length y)).

(** Each of the classes 1 and 0 of [_rkhs_vs] holds exactly one sample. *)
Definition one_sample_per_class (X : ndarray) (y : list Z) : Prop :=
  length (class_rows X y 1) = 1%nat /\ length (class_rows X y 0) = 1%nat.

(** The mean and the variance of a class at the point [t]. *)
Definition mean_at (rs : list (list float)) (t : nat) : float :=
  fmean (map (fun r => nth t r NaN) rs).

Definition variance_at (rs : list (list float)) (t : nat) : float :=
  let m := mean_at rs t in
  fmul (fsum (map (fun x => fmul (fsub x m) (fsub x m))
                  (map (fun r => nth t r NaN) rs)))
       (fdiv (Fin 1) (of_nat (length rs))).

(** The difference of the class means and the pooled variance at [t]. *)
Definition mean_diff (X : ndarray) (y : list Z) (t : nat) : float :=
  fsub (mean_at (class_rows X y (label_hi y)) t)
       (mean_at (class_rows X y (label_lo y)) t).

Definition variance (X : ndarray) (y : list Z) (t : nat) : float :=
  fadd (fmul (class_proportion y (label_hi y))
             (variance_at (class_rows X y (label_hi y)) t))
       (fmul (class_proportion y (label_lo y))
             (variance_at (class_rows X y (label_lo y)) t)).

(** [|mean_diff(t)| / sqrt(variance(t))] at every point. *)
Definition univariate_scores (sqrtQ : Q -> Q) (X : ndarray) (y : list Z)
    : list float :=
  map (fun t => fdiv (fabs (mean_diff X y t))
                     (np_sqrt sqrtQ (variance X y t)))
      (seq 0 (shape1 X)).

(** The means and the covariances are finite numbers. *)
Definition finite_statistics (means : list float)
    (variances : list (list float)) : Prop :=
  Forall (fun x => isfinite x = true) means /\
  Forall (Forall (fun x => isfinite x = true)) variances.

(** The labels are 0 and 1, and both occur. *)
Definition binary_labels (y : list Z) : Prop :=
  Forall (fun l => l = 0 \/ l = 1)%Z y /\ 0%Z ∈ y /\ 1%Z ∈ y.

(** [i] is the first index at which [a] is maximal. *)
Definition first_argmax (a : list float) (i : nat) : Prop :=
  exists v, a !! i = Some v /\
    (forall j w, a !! j = Some w -> fle w v = true) /\
    (forall j w, (j < i)%nat -> a !! j = Some w -> flt w v = true).

End RKVSSpec.

(** ** Numerical kernels used in the examples *)

Module Kernels.
Import NumPy.
Local Open Scope Q_scope.

(** A square root on the non-negative rationals, rounded down to a
    multiple of [1 / (den * 2^53)]; exact on squares. *)
Definition sqrt_floor (q : Q) : Q :=
  Z.sqrt (Qnum q * Zpos (Qden q) * 4 ^ 53) # (Qden q * 2 ^ 53).

Definition is_zero (x : float) : bool :=
  match x with Fin q => Qeq_bool q 0 | _ => false end.

(** Gauss-Jordan elimination on the augmented rows of a square system;
    a column without pivot gets the solution 0. *)
Definition scale_row (c : float) (r : list float) : list float :=
  map (fun x => fdiv x c) r.

Definition eliminate (col : nat) (pivot r : list float) : list float :=
  zip_with (fun x p => fsub x (fmul (nth col r NaN) p)) r pivot.

Fixpoint find_pivot (col : nat) (todo : list (list float))
    : option (list float * list (list float)) :=
  match todo with
  | [] => None
  | r :: todo' =>
    if is_zero (nth col r NaN) then
      match find_pivot col todo' with
      | Some (p, others) => Some (p, r :: others)
      | None => None
      end
    else Some (r, todo')
  end.

Fixpoint gauss_jordan (cols : list nat) (done : list (nat * list float))
    (todo : list (list float)) : list (nat * list float) :=
  match cols with
  | [] => done
  | col :: cols' =>
    match find_pivot col todo with
    | None => gauss_jordan cols' done todo
    | Some (p, others) =>
      let p := scale_row (nth col p NaN) p in
      gauss_jordan cols'
        ((col, p) :: map (fun d => (d.1, eliminate col p d.2)) done)
        (map (eliminate col p) others)
    end
  end.

(** A stand-in for [numpy.linalg.lstsq] in the examples.  Like NumPy it
    raises on a system whose matrix holds an infinity or a [nan].  A system
    of full rank is solved exactly; on a singular system the unknowns
    without pivot are set to 0, which is not the solution of least norm
    that NumPy returns. *)
Definition lstsq_gauss (a : list (list float)) (b : list float)
    : option (list float) :=
  if forallb (forallb isfinite) a then
    let k := length b in
    let reduced :=
      gauss_jordan (seq 0 k) [] (zip_with (fun r x => r ++ [x]) a b) in
    Some (map (fun col =>
                 match list_find (fun d => d.1 = col) reduced with
                 | Some (_, (_, r)) => nth k r NaN
                 | None => Fin 0
                 end)
              (seq 0 k))
  else None.

(** An [np.argsort]: the indices are inserted one by one, an index before
    the first index whose entry is not smaller. *)
Fixpoint insert_index (a : list Q) (i : nat) (l : list nat) : list nat :=
  match l with
  | [] => [i]
  | j :: l' =>
    if Qle_bool (nth i a 0) (nth j a 0) then i :: l
    else j :: insert_index a i l'
  end.

Definition argsort (a : list Q) : list nat :=
  foldr (insert_index a) [] (seq 0 (length a)).

End Kernels.

(** ** Sample inputs *)

Module Examples.
Import NumPy.
Local Open Scope Q_scope.

(** Four curves on the grid 0, 1: at the first point the two classes have
    the same mean, at the second their means differ by 10. *)
Definition two_class_batch : FDataGrid :=
  mkFDataGrid [[0; 1]] [[1; 0]; [3; 2]; [1; 10]; [3; 12]] 1.

(** Four curves on three points. *)
Definition three_point_sample : ndarray :=
  mkArray 4 3
    [[Fin 1; Fin 0; Fin 5]; [Fin 3; Fin 2; Fin 4];
     [Fin 1; Fin 10; Fin 7]; [Fin 3; Fin 12; Fin 9]].

Definition three_point_batch : FDataGrid :=
  mkFDataGrid [[0; 1; 2]] [[1; 0; 5]; [3; 2; 4]; [1; 10; 7]; [3; 12; 9]] 1.


(** Three curves on two points; labelled 0, 0, 1, the class 1 holds the
    last curve only. *)
Definition lone_curve_sample : ndarray :=
  mkArray 3 2 [[Fin 0; Fin 100]; [Fin 2; Fin 104]; [Fin 5; Fin 107]].

(** Back ends of a smoother on the basis of the constant function 1: the
    least-squares coefficient of a sample is the mean of its values. *)
Definition mean (l : list Q) : Q :=
  foldr Qplus 0 l / inject_Z (Z.of_nat (length l)).

Definition constant_basis_values (eval_points : list (list Q))
    : res (list (list Q)) :=
  Ok (map (fun _ => [1]) eval_points).

Definition constant_penalty_matrix : res (list (list Q)) := Ok [[0]].

Definition constant_solve (coefs result penalty_matrix : list (list Q))
    (method : Basis.LstsqMethod) : res (list (list Q)) :=
  Ok [map mean (Basis.transpose (length (hd [] result)) result)].

Definition constant_fit (self : Basis.BasisSmoother) (X : Basis.FData)
    : res (list (list Q)) :=
  points ← Basis._eval_points X;
  let n := length points in
  Ok (replicate n (replicate n (1 / inject_Z (Z.of_nat n)))).

Definition constant_transform (self : Basis.BasisSmoother) (X : Basis.FData)
    : res Basis.smoothed :=
  values ← Basis._function_values X;
  Ok (Basis.OnGrid
        (map (fun sample => map (fun _ => mean sample) sample)
             (Basis.transpose (length (hd [] values)) values))).

(** Depths and indices, one per curve of the docstring batch. *)
Definition docstring_depths : list Q := [1 # 2; 5 # 6; 11 # 15; 2 # 3].
Definition docstring_indices : list Q := [1 # 4; 1 # 2; 7 # 8; 37 # 40].

(** A batch of one curve, and two new curves on three points. *)
Definition single_curve : FDataGrid := mkFDataGrid [[0; 1]] [[1; 2]] 1.

Definition new_curves : FDataGrid :=
  mkFDataGrid [[0; 1; 2]] [[7; 8; 9]; [1; 2; 3]] 1.

(** A depth for the examples: a depth method keeps the curves it was
    fitted on, and the depth of a curve is minus the distance from its
    first value to the mean of their first values.  The labels of the
    examples are 0 and 1. *)
Definition toy_package : DepthClassifiers.Package := {|
  DepthClassifiers.Depth := list (list Q);
  DepthClassifiers.ModifiedBandDepth := [];
  DepthClassifiers.IntegratedDepth := [];
  DepthClassifiers.clone := fun d => Ok d;
  DepthClassifiers.depth_fit := fun _ X => Ok (data_matrix X);
  DepthClassifiers.depth_predict := fun d X =>
    Ok (map (fun row => Fin (- Qabs (hd 0 row - mean (map (hd 0) d))))
            (data_matrix X));
  DepthClassifiers._classifier_get_classes := fun y =>
    Ok ([0; 1]%Z, map Z.to_nat y);
  DepthClassifiers.getitem_mask := fun X mask =>
    Ok (mkFDataGrid (grid_points X)
          (map snd (filter (fun p => p.1 = true) (zip mask (data_matrix X))))
          (dim_codomain X))
|}.

(** The same package with a depth that cannot be fitted. *)
Definition failing_package : DepthClassifiers.Package := {|
  DepthClassifiers.Depth := list (list Q);
  DepthClassifiers.ModifiedBandDepth := [];
  DepthClassifiers.IntegratedDepth := [];
  DepthClassifiers.clone := fun d => Ok d;
  DepthClassifiers.depth_fit := fun _ _ => Err ZeroDivisionError;
  DepthClassifiers.depth_predict :=
    DepthClassifiers.depth_predict (Package := toy_package);
  DepthClassifiers._classifier_get_classes :=
    DepthClassifiers._classifier_get_classes (Package := toy_package);
  DepthClassifiers.getitem_mask :=
    DepthClassifiers.getitem_mask (Package := toy_package)
|}.

(** Two curves on the grid 0, 1 to classify. *)
Definition test_curves : FDataGrid := mkFDataGrid [[0; 1]] [[2; 0]; [0; 5]] 1.

(** The memberships of three samples to two clusters. *)
Definition memberships : Clustering.matrix :=
  Clustering.mkMatrix 3 2 [[1 # 2; 1 # 2]; [1 # 4; 3 # 4]; [1; 0]].

End Examples.

(** * Properties *)

(** ** Sorting and percentiles *)

Module NumPyQFacts.
Import NumPyQ.
Local Open Scope Q_scope.

Lemma Qltb_lt (a b : Q) : Qltb a b = true <-> a < b.
Proof.
  unfold Qltb. rewrite negb_true_iff, <- not_true_iff_false, Qle_bool_iff.
  split; [apply Qnot_le_lt | apply Qlt_not_le].
Qed.

Lemma Qltb_ge (a b : Q) : Qltb a b = false <-> b <= a.
Proof.
  unfold Qltb. rewrite negb_false_iff. apply Qle_bool_iff.
Qed.

Lemma insert_sorted_perm (x : Q) (l : list Q) : insert_sorted x l ≡ₚ x :: l.
Proof.
  induction l as [|y l IH]; simpl; [done|].
  destruct (Qle_bool x y); [done|].
  rewrite IH. apply Permutation_swap.
Qed.

Lemma np_sort_perm (a : list Q) : np_sort a ≡ₚ a.
Proof.
  induction a as [|x a IH]; simpl; [done|].
  rewrite insert_sorted_perm. by rewrite IH.
Qed.

Lemma np_sort_length (a : list Q) : length (np_sort a) = length a.
Proof. apply Permutation_length, np_sort_perm. Qed.

Lemma insert_sorted_ascending (x : Q) (l : list Q) :
  ascending l -> ascending (insert_sorted x l).
Proof.
  unfold ascending. induction 1 as [|y l Hl IH Hy]; simpl.
  - repeat constructor.
  - destruct (Qle_bool x y) eqn:E.
    + apply Qle_bool_iff in E. constructor; [by constructor|].
      constructor; [done|].
      eapply Forall_impl; [exact Hy|]. intros z Hz. simpl in Hz. lra.
    + assert (y < x) as Hlt by (apply Qltb_lt; unfold Qltb; by rewrite E).
      constructor; [done|].
      rewrite insert_sorted_perm. constructor; [lra | done].
Qed.

Lemma np_sort_ascending (a : list Q) : ascending (np_sort a).
Proof.
  induction a as [|x a IH]; simpl; [constructor|].
  by apply insert_sorted_ascending.
Qed.

(** *** Quartiles *)

Lemma ascending_nth (l : list Q) (i j : nat) :
  ascending l -> (i <= j < length l)%nat -> nth i l 0 <= nth j l 0.
Proof.
  unfold ascending. intros Hl. revert i j.
  induction Hl as [|x l Hl IH Hx]; intros i j Hij; simpl in *; [lia|].
  destruct j as [|j], i as [|i]; try lia.
  - lra.
  - rewrite Forall_forall in Hx. apply Hx. apply list_elem_of_In, nth_In. lia.
  - apply IH. lia.
Qed.

(** The virtual index of a percentile and its integer part. *)
Lemma virtual_index_floor (n : nat) (q : Q) :
  0 <= q <= 100 ->
  let v := inject_Z (Z.of_nat n) * (q / 100) in
  (0 <= Qfloor v <= Z.of_nat n)%Z /\
  0 <= v - inject_Z (Qfloor v) /\ v - inject_Z (Qfloor v) < 1.
Proof.
  intros Hq v.
  assert (0 <= inject_Z (Z.of_nat n)) as Hn
    by (rewrite <- (Zle_Qle 0); lia).
  assert (0 <= q / 100 <= 1) as Ht.
  { split; [apply Qle_shift_div_l | apply Qle_shift_div_r]; lra. }
  assert (0 <= v <= inject_Z (Z.of_nat n)) as Hv.
  { unfold v. revert Hn Ht. generalize (inject_Z (Z.of_nat n)) (q / 100).
    intros N t HN Ht. split; nra. }
  pose proof (Qfloor_le v) as Hfl. pose proof (Qlt_floor v) as Hlt.
  rewrite inject_Z_plus in Hlt. change (inject_Z 1) with 1 in Hlt.
  split; [split|split; lra].
  - change 0%Z with (Qfloor 0). apply Qfloor_resp_le. tauto.
  - rewrite <- (Qfloor_Z (Z.of_nat n)). apply Qfloor_resp_le. tauto.
Qed.

(** A percentile lies between the entries of the sorted array next to its
    virtual index. *)
Lemma np_percentile_between (a : list Q) (q : Q) :
  a <> [] -> 0 <= q <= 100 ->
  let p := Z.to_nat (Qfloor (inject_Z (Z.of_nat (length a - 1)) * (q / 100))) in
  exists v, np_percentile a q = Ok v /\
    (p <= length a - 1)%nat /\
    nth p (np_sort a) 0 <= v /\
    v <= nth (Nat.min (S p) (length a - 1)) (np_sort a) 0.
Proof.
  intros Ha Hq p. destruct a as [|x a]; [done|].
  unfold np_percentile. eexists. split; [reflexivity|].
  set (l := x :: a) in *. set (n := length l) in *.
  destruct (virtual_index_floor (n - 1) q Hq) as ([Hp0 Hpn] & Hg0 & Hg1).
  set (v := inject_Z (Z.of_nat (n - 1)) * (q / 100)) in *.
  assert (0 < n)%nat as Hn by (unfold n, l; simpl; lia).
  assert (p <= n - 1)%nat as Hp by (unfold p; fold v; lia).
  replace (Z.to_nat (Z.min (Qfloor v + 1) (Z.of_nat (n - 1))))
    with (Nat.min (S p) (n - 1)) by (unfold p; fold v; lia).
  fold p.
  pose proof (np_sort_ascending l) as Hasc.
  assert (nth p (np_sort l) 0 <= nth (Nat.min (S p) (n - 1)) (np_sort l) 0)
    as Hle.
  { apply ascending_nth; [done|]. rewrite np_sort_length. fold n. lia. }
  split; [done|]. unfold lerp.
  revert Hle Hg0 Hg1.
  generalize (nth p (np_sort l) 0) (nth (Nat.min (S p) (n - 1)) (np_sort l) 0)
    (v - inject_Z (Qfloor v)).
  intros lo hi g Hle Hg0 Hg1. split; nra.
Qed.

(** [np.percentile] grows with the rank. *)
Lemma np_percentile_mono (a : list Q) (q1 q2 v1 v2 : Q) :
  0 <= q1 -> q1 <= q2 -> q2 <= 100 ->
  np_percentile a q1 = Ok v1 -> np_percentile a q2 = Ok v2 -> v1 <= v2.
Proof.
  intros H0 H12 H100.
  destruct a as [|x a]; [done|].
  set (l := x :: a). set (n := length l).
  assert (l <> []) as Hl by done.
  destruct (np_percentile_between l q1 Hl) as (w1 & E1 & Hp1 & Hlo1 & Hhi1);
    [lra|].
  destruct (np_percentile_between l q2 Hl) as (w2 & E2 & Hp2 & Hlo2 & Hhi2);
    [lra|].
  intros Hv1 Hv2. rewrite Hv1 in E1. rewrite Hv2 in E2.
  injection E1 as <-. injection E2 as <-.
  fold n in Hp1, Hp2, Hlo1, Hlo2, Hhi1, Hhi2.
  set (x1 := inject_Z (Z.of_nat (n - 1)) * (q1 / 100)) in *.
  set (x2 := inject_Z (Z.of_nat (n - 1)) * (q2 / 100)) in *.
  assert (x1 <= x2) as Hx.
  { unfold x1, x2.
    assert (0 <= inject_Z (Z.of_nat (n - 1))) as Hn
      by (rewrite <- (Zle_Qle 0); lia).
    assert (q1 / 100 <= q2 / 100) as Hq.
    { unfold Qdiv. apply Qmult_le_compat_r; [done|]. discriminate. }
    revert Hn Hq. generalize (inject_Z (Z.of_nat (n - 1))) (q1 / 100) (q2 / 100).
    intros N t1 t2 HN Ht. nra. }
  pose proof (Qfloor_resp_le _ _ Hx) as Hfl.
  destruct (virtual_index_floor (n - 1) q1 ltac:(lra)) as ([Ha0 Han] & Hg0 & Hg1).
  destruct (virtual_index_floor (n - 1) q2 ltac:(lra)) as ([Hb0 Hbn] & Hh0 & Hh1).
  fold x1 in Ha0, Han, Hg0, Hg1. fold x2 in Hb0, Hbn, Hh0, Hh1.
  destruct (decide (Qfloor x1 = Qfloor x2)) as [Heq|Hne].
  - (* the same segment *)
    assert (np_percentile l q1
            = Ok (lerp (nth (Z.to_nat (Qfloor x1)) (np_sort l) 0)
                       (nth (Z.to_nat (Z.min (Qfloor x1 + 1)
                                             (Z.of_nat (n - 1))))
                            (np_sort l) 0)
                       (x1 - inject_Z (Qfloor x1)))) as E1 by reflexivity.
    assert (np_percentile l q2
            = Ok (lerp (nth (Z.to_nat (Qfloor x2)) (np_sort l) 0)
                       (nth (Z.to_nat (Z.min (Qfloor x2 + 1)
                                             (Z.of_nat (n - 1))))
                            (np_sort l) 0)
                       (x2 - inject_Z (Qfloor x2)))) as E2 by reflexivity.
    rewrite Hv1 in E1. rewrite Hv2 in E2. rewrite <- Heq in E2.
    assert (v1 = lerp (nth (Z.to_nat (Qfloor x1)) (np_sort l) 0)
                       (nth (Z.to_nat (Z.min (Qfloor x1 + 1)
                                             (Z.of_nat (n - 1))))
                            (np_sort l) 0)
                       (x1 - inject_Z (Qfloor x1))) as -> by congruence.
    assert (v2 = lerp (nth (Z.to_nat (Qfloor x1)) (np_sort l) 0)
                       (nth (Z.to_nat (Z.min (Qfloor x1 + 1)
                                             (Z.of_nat (n - 1))))
                            (np_sort l) 0)
                       (x2 - inject_Z (Qfloor x1))) as -> by congruence.
    assert (nth (Z.to_nat (Qfloor x1)) (np_sort l) 0
            <= nth (Z.to_nat (Z.min (Qfloor x1 + 1) (Z.of_nat (n - 1))))
                 (np_sort l) 0) as Hle.
    { apply ascending_nth; [apply np_sort_ascending|].
      rewrite np_sort_length. fold n.
      assert (0 < n)%nat by (unfold n, l; simpl; lia). lia. }
    unfold lerp. revert Hle Hx.
    generalize (nth (Z.to_nat (Qfloor x1)) (np_sort l) 0)
      (nth (Z.to_nat (Z.min (Qfloor x1 + 1) (Z.of_nat (n - 1)))) (np_sort l) 0)
      (inject_Z (Qfloor x1)).
    clearbody x1 x2. intros lo hi f Hle Hx. clear -Hle Hx.
    nra.
  - (* a later segment *)
    apply Qle_trans with
      (nth (Nat.min (S (Z.to_nat (Qfloor x1))) (n - 1)) (np_sort l) 0);
      [done|].
    apply Qle_trans with (nth (Z.to_nat (Qfloor x2)) (np_sort l) 0); [|done].
    apply ascending_nth; [apply np_sort_ascending|].
    rewrite np_sort_length. fold n.
    assert (0 < n)%nat by (unfold n, l; simpl; lia). lia.
Qed.

End NumPyQFacts.

(** ** The outliergram detector *)

Module OutliergramFacts.
Import NumPyQ NumPyQFacts Outliergram.
Local Open Scope Q_scope.

(** The integer encoding of [fit_predict]: [~outliers + outliers * -1]. *)
Lemma predicted_encoding (o : bool) :
  (np_int (negb o) + np_int o * -1)%Z = if o then (-1)%Z else 1%Z.
Proof. by destruct o. Qed.

Lemma predicted_labels (distances : list Q) (thr : Q) :
  map (fun o => np_int (negb o) + np_int o * -1)%Z (np_gt distances thr)
  = map (OutliergramSpec.label thr) distances.
Proof.
  unfold np_gt. rewrite map_map. apply map_ext. intros d.
  by rewrite predicted_encoding.
Qed.

Lemma np_percentile_nonempty (a : list Q) (q : Q) :
  a <> [] -> exists v, np_percentile a q = Ok v.
Proof. destruct a; [done|]. intros _. simpl. eauto. Qed.

(** The quartiles of four numbers. *)
Lemma np_percentile_four (ds : list Q) (a b c d : Q) :
  np_sort ds = [a; b; c; d] ->
  exists q1 q3,
    np_percentile ds 25 = Ok q1 /\ np_percentile ds 75 = Ok q3 /\
    q1 == a + (b - a) * (3 # 4) /\ q3 == c + (d - c) * (1 # 4).
Proof.
  intros Hs.
  assert (length ds = 4%nat) as Hlen by (by rewrite <- np_sort_length, Hs).
  destruct ds as [|x ds]; [done|].
  unfold np_percentile. rewrite Hs, Hlen.
  eexists _, _. split; [reflexivity|]. split; [reflexivity|].
  change (Qfloor (inject_Z (Z.of_nat (4 - 1)) * (25 / 100))) with 0%Z.
  change (Qfloor (inject_Z (Z.of_nat (4 - 1)) * (75 / 100))) with 2%Z.
  unfold lerp. simpl nth. split.
  - apply Qplus_comp; [reflexivity|]. apply Qmult_comp; reflexivity.
  - apply Qplus_comp; [reflexivity|]. apply Qmult_comp; reflexivity.
Qed.

(** Whatever four distances are, at most the largest one exceeds the
    threshold: the third quartile lies at or above the three smallest. *)
Lemma at_most_one_of_four (factor : Q) (ds : list Q) (thr : Q) :
  0 <= factor ->
  length ds = 4%nat ->
  OutliergramSpec.threshold factor ds = Ok thr ->
  (count_occ Z.eq_dec (map (OutliergramSpec.label thr) ds) (-1)%Z <= 1)%nat.
Proof.
  intros Hf Hlen Hthr.
  pose proof (np_sort_perm ds) as Hperm.
  pose proof (np_sort_ascending ds) as Hasc.
  pose proof (np_sort_length ds) as Hl. rewrite Hlen in Hl.
  destruct (np_sort ds) as [|a [|b [|c [|d [|]]]]] eqn:Hs; try done.
  destruct (np_percentile_four ds a b c d Hs) as (q1 & q3 & H1 & H3 & E1 & E3).
  unfold OutliergramSpec.threshold, OutliergramSpec.Q1, OutliergramSpec.Q3
    in Hthr.
  rewrite H1, H3 in Hthr. simpl in Hthr. injection Hthr as <-.
  unfold ascending in Hasc.
  apply StronglySorted_inv in Hasc as [Hasc Ha].
  apply StronglySorted_inv in Hasc as [Hasc Hb].
  apply StronglySorted_inv in Hasc as [_ Hc].
  apply Forall_cons in Ha as [Hab _].
  apply Forall_cons in Hb as [Hbc _].
  apply Forall_cons in Hc as [Hcd _].
  assert (0 <= factor * (q3 - q1)) as Hiqr
    by (apply Qmult_le_0_compat; [done | lra]).
  set (thr := q3 + factor * (q3 - q1)) in *.
  assert (Hcount : forall l l' : list Q, l ≡ₚ l' ->
            count_occ Z.eq_dec (map (OutliergramSpec.label thr) l) (-1)%Z
            = count_occ Z.eq_dec (map (OutliergramSpec.label thr) l') (-1)%Z).
  { intros l l' Hp. apply Permutation_count_occ. by apply Permutation_map. }
  rewrite <- (Hcount _ _ Hperm). simpl.
  assert (forall x, x <= c -> OutliergramSpec.label thr x = 1%Z) as Hin.
  { intros x Hx. unfold OutliergramSpec.label.
    replace (Qltb thr x) with false; [done|].
    symmetry. apply Qltb_ge. unfold thr. lra. }
  rewrite (Hin a), (Hin b), (Hin c) by lra.
  repeat (destruct (Z.eq_dec _ _); try done); lia.
Qed.

Section Detector.

Variable ModifiedBandDepth : FDataGrid -> res (list Q).
Variable modified_epigraph_index : FDataGrid -> res (list Q).

Local Abbreviation fit := (fit ModifiedBandDepth modified_epigraph_index).
Local Abbreviation fit_predict :=
  (fit_predict ModifiedBandDepth modified_epigraph_index).

(** A fit that returns has stored the distances and their threshold. *)
Lemma fit_inv (self self' : OutliergramOutlierDetector) (X : FDataGrid) :
  fit self X = (self', Ok tt) ->
  exists distances thr,
    distances_ self' = Some distances /\
    max_inlier_distance_ self' = Some thr /\
    OutliergramSpec.threshold (factor self) distances = Ok thr.
Proof.
  unfold Outliergram.fit.
  destruct (ModifiedBandDepth X) as [mbd|]; [|done].
  destruct (modified_epigraph_index X) as [mei|]; [|done].
  destruct (_compute_parabola _ X) as [par|]; [|done].
  destruct (np_sub par mbd) as [ds|]; [|done].
  destruct (_compute_maximum_inlier_distance _ ds) as [thr|] eqn:Hthr; [|done].
  intros [= <-]. exists ds, thr. repeat split.
  revert Hthr. unfold _compute_maximum_inlier_distance,
    OutliergramSpec.threshold, OutliergramSpec.Q1, OutliergramSpec.Q3.
  simpl. by destruct (np_percentile ds 25), (np_percentile ds 75).
Qed.

Lemma fit_predict_inv (self : OutliergramOutlierDetector) (X : FDataGrid)
    (labels : list Z) :
  (fit_predict self X).2 = Ok labels ->
  exists distances thr,
    OutliergramSpec.threshold (factor self) distances = Ok thr /\
    labels = map (OutliergramSpec.label thr) distances.
Proof.
  unfold Outliergram.fit_predict.
  destruct (fit self X) as [self' [[]|]] eqn:Hfit; [|done].
  destruct (fit_inv _ _ _ Hfit) as (ds & thr & Hd & Ht & Hthr).
  simpl. rewrite Hd, Ht. simpl. rewrite predicted_labels.
  intros [= <-]. eauto.
Qed.

(** The parabola computed from Python integers is the one of the
    specification. *)
Lemma _compute_parabola_spec (self : OutliergramOutlierDetector)
    (X : FDataGrid) (mei : list Q) :
  (2 <= n_samples X)%nat ->
  mei_ self = Some mei ->
  exists parabola,
    _compute_parabola self X = Ok parabola /\
    length parabola = length mei /\
    Forall2 Qeq parabola
      (map (OutliergramSpec.parabola (inject_Z (Z.of_nat (n_samples X)))) mei).
Proof.
  intros Hn Hmei. unfold _compute_parabola, py_truediv. rewrite Hmei.
  set (n := Z.of_nat (n_samples X)).
  assert (2 <= n)%Z as Hn2 by lia.
  replace (n * (n - 1) =? 0)%Z with false by (symmetry; apply Z.eqb_neq; nia).
  replace (n - 1 =? 0)%Z with false by (symmetry; apply Z.eqb_neq; lia).
  simpl. eexists. split; [reflexivity|]. split; [by rewrite length_map|].
  apply Forall2_fmap, Forall_Forall2_diag, Forall_forall. intros m _.
  unfold OutliergramSpec.parabola, OutliergramSpec.a2, OutliergramSpec.a1,
    OutliergramSpec.a0.
  rewrite Z.pow_2_r, !inject_Z_mult, !inject_Z_plus.
  replace (n - 1)%Z with (n + -1)%Z by lia. rewrite !inject_Z_plus.
  assert (2 <= inject_Z n) as HN by (rewrite <- (Zle_Qle 2); exact Hn2).
  change (inject_Z (-2)) with (- (2)). change (inject_Z (-1)) with (- (1)).
  change (inject_Z 2) with 2. change (inject_Z 1) with 1.
  revert HN. generalize (inject_Z n). intros N HN.
  field. split; lra.
Qed.

(** The run of [fit] on a batch of at least two functions whose depths and
    indices are given, one per function. *)
Lemma fit_run (self : OutliergramOutlierDetector) (X : FDataGrid)
    (mbd mei : list Q) :
  (2 <= n_samples X)%nat ->
  ModifiedBandDepth X = Ok mbd ->
  modified_epigraph_index X = Ok mei ->
  length mbd = n_samples X ->
  length mei = n_samples X ->
  exists parabola thr,
    _compute_parabola (set_mei_ (set_mbd_ self mbd) mei) X = Ok parabola /\
    length parabola = n_samples X /\
    OutliergramSpec.threshold (factor self) (zip_with Qminus parabola mbd)
    = Ok thr /\
    fit self X
    = (mkDetector (factor self) (Some mbd) (Some mei) (Some parabola)
                  (Some (zip_with Qminus parabola mbd)) (Some thr), Ok tt).
Proof.
  intros Hn Hmbd Hmei Hlmbd Hlmei.
  destruct (_compute_parabola_spec (set_mei_ (set_mbd_ self mbd) mei) X mei)
    as (par & Hpar & Hlen & _); [done..|].
  assert (length (zip_with Qminus par mbd) = n_samples X) as Hlds
    by (rewrite length_zip_with; lia).
  destruct (np_percentile_nonempty (zip_with Qminus par mbd) 25) as [q1 H1].
  { intros E. rewrite E in Hlds. simpl in Hlds. lia. }
  destruct (np_percentile_nonempty (zip_with Qminus par mbd) 75) as [q3 H3].
  { intros E. rewrite E in Hlds. simpl in Hlds. lia. }
  exists par, (q3 + factor self * (q3 - q1)).
  split; [done|]. split; [lia|]. split.
  - unfold OutliergramSpec.threshold, OutliergramSpec.Q1, OutliergramSpec.Q3.
    by rewrite H1, H3.
  - unfold Outliergram.fit. rewrite Hmbd, Hmei, Hpar.
    unfold np_sub. rewrite decide_True by lia.
    unfold _compute_maximum_inlier_distance. rewrite H1, H3. reflexivity.
Qed.

(** C2.  For a batch of N >= 2 functions with depths [mbd] and indices
    [mei], [fit] stores [mbd] and [mei], the parabola
    a0 + a1 * mei + N^2 * a2 * mei^2 with a0 = a2 = -2 / (N (N - 1)) and
    a1 = 2 (N + 1) / (N - 1), the distances parabola - mbd and the
    threshold Q3 + factor * IQR of the distances; [fit_predict] labels a
    function -1 exactly when its distance exceeds the threshold, and +1
    otherwise.  The factor of a detector built without arguments is
    1.5. *)
Theorem fit_predict_outliergram (self : OutliergramOutlierDetector)
    (X : FDataGrid) (mbd mei : list Q) :
  (2 <= n_samples X)%nat ->
  ModifiedBandDepth X = Ok mbd ->
  modified_epigraph_index X = Ok mei ->
  length mbd = n_samples X ->
  length mei = n_samples X ->
  factor (__init__ None) = 3 # 2 /\
  exists parabola distances thr labels,
    Forall2 Qeq parabola
      (map (OutliergramSpec.parabola (inject_Z (Z.of_nat (n_samples X)))) mei)
    /\ distances = zip_with Qminus parabola mbd
    /\ OutliergramSpec.threshold (factor self) distances = Ok thr
    /\ fit self X
       = (mkDetector (factor self) (Some mbd) (Some mei) (Some parabola)
                     (Some distances) (Some thr), Ok tt)
    /\ fit_predict self X
       = (mkDetector (factor self) (Some mbd) (Some mei) (Some parabola)
                     (Some distances) (Some thr), Ok labels)
    /\ length labels = n_samples X
    /\ forall i d, distances !! i = Some d ->
         (thr < d -> labels !! i = Some (-1)%Z) /\
         (d <= thr -> labels !! i = Some 1%Z).
Proof.
  intros Hn Hmbd Hmei Hlmbd Hlmei. split; [reflexivity|].
  destruct (fit_run self X mbd mei) as (par & thr & Hpar & Hlen & Hthr & Hfit);
    [done..|].
  destruct (_compute_parabola_spec (set_mei_ (set_mbd_ self mbd) mei) X mei)
    as (par' & Hpar' & _ & Hspec); [done..|].
  rewrite Hpar in Hpar'. injection Hpar' as <-.
  exists par, (zip_with Qminus par mbd), thr,
    (map (OutliergramSpec.label thr) (zip_with Qminus par mbd)).
  split; [done|]. split; [done|]. split; [done|]. split; [done|].
  split; [|split].
  - unfold Outliergram.fit_predict. rewrite Hfit. simpl.
    by rewrite predicted_labels.
  - rewrite length_map, length_zip_with. lia.
  - intros i d Hd. rewrite list_lookup_fmap, Hd. simpl.
    unfold OutliergramSpec.label. split; intros Hcmp.
    + apply Qltb_lt in Hcmp. by rewrite Hcmp.
    + apply Qltb_ge in Hcmp. by rewrite Hcmp.
Qed.

(** C1, as amended.  On the batch of the class docstring, with the default
    factor and whatever depths and indices the batch has (one per
    function), [fit_predict] returns four labels of which at most one is
    -1. *)
Theorem fit_predict_docstring_batch (mbd mei : list Q) :
  ModifiedBandDepth OutliergramSpec.docstring_batch = Ok mbd ->
  modified_epigraph_index OutliergramSpec.docstring_batch = Ok mei ->
  length mbd = 4%nat ->
  length mei = 4%nat ->
  exists labels,
    (fit_predict (__init__ None) OutliergramSpec.docstring_batch).2
    = Ok labels
    /\ length labels = 4%nat
    /\ (count_occ Z.eq_dec labels (-1)%Z <= 1)%nat.
Proof.
  intros Hmbd Hmei Hlmbd Hlmei.
  destruct (fit_run (__init__ None) OutliergramSpec.docstring_batch
              mbd mei) as (par & thr & _ & Hlen & Hthr & Hfit);
    [vm_compute; lia | done..|].
  exists (map (OutliergramSpec.label thr) (zip_with Qminus par mbd)).
  assert (length (zip_with Qminus par mbd) = 4%nat) as Hl.
  { rewrite length_zip_with. change (n_samples _) with 4%nat in Hlen. lia. }
  split; [|split].
  - unfold Outliergram.fit_predict. rewrite Hfit. simpl.
    by rewrite predicted_labels.
  - by rewrite length_map.
  - by apply (at_most_one_of_four default_factor).
Qed.

End Detector.

(** The run of the docstring batch with the depth and the index modelled
    from the specification: no function is flagged. *)
Lemma fit_predict_docstring_batch_labels :
  (Outliergram.fit_predict OutliergramSpec.ModifiedBandDepth
     OutliergramSpec.modified_epigraph_index
     (__init__ None) OutliergramSpec.docstring_batch).2
  = Ok [1; 1; 1; 1]%Z.
Proof. vm_compute. reflexivity. Qed.

(** C1, as stated, fails: no depth and no index make [fit_predict] return
    [-1, 1, 1, -1] on the docstring batch. *)
Lemma fit_predict_docstring_batch_not_documented :
  ~ exists ModifiedBandDepth modified_epigraph_index,
      (Outliergram.fit_predict ModifiedBandDepth modified_epigraph_index
         (__init__ None) OutliergramSpec.docstring_batch).2
      = Ok [-1; 1; 1; -1]%Z.
Proof.
  intros (mbdF & meiF & H).
  apply fit_predict_inv in H as (ds & thr & Hthr & Hlabels).
  assert (length ds = 4%nat) as Hlen.
  { apply (f_equal length) in Hlabels. rewrite length_map in Hlabels.
    simpl in Hlabels. lia. }
  pose proof (at_most_one_of_four default_factor ds thr) as Hcount.
  rewrite <- Hlabels in Hcount. simpl in Hcount.
  specialize (Hcount ltac:(done) Hlen Hthr). lia.
Qed.

(** Witness of C2 and of C1: the docstring batch with the depth and the
    index modelled from the specification. *)
Lemma fit_predict_outliergram_witness :
  factor (__init__ None) = 3 # 2 /\
  exists parabola distances thr labels,
    Forall2 Qeq parabola
      (map (OutliergramSpec.parabola
              (inject_Z (Z.of_nat (n_samples OutliergramSpec.docstring_batch))))
           [1 # 4; 1 # 2; 7 # 8; 37 # 40])
    /\ distances = zip_with Qminus parabola [1 # 2; 5 # 6; 11 # 15; 2 # 3]
    /\ OutliergramSpec.threshold (factor (__init__ None)) distances
       = Ok thr
    /\ Outliergram.fit (fun _ => Ok [1 # 2; 5 # 6; 11 # 15; 2 # 3])
         (fun _ => Ok [1 # 4; 1 # 2; 7 # 8; 37 # 40])
         (__init__ None) OutliergramSpec.docstring_batch
       = (mkDetector (factor (__init__ None))
            (Some [1 # 2; 5 # 6; 11 # 15; 2 # 3])
            (Some [1 # 4; 1 # 2; 7 # 8; 37 # 40]) (Some parabola)
            (Some distances) (Some thr), Ok tt)
    /\ Outliergram.fit_predict (fun _ => Ok [1 # 2; 5 # 6; 11 # 15; 2 # 3])
         (fun _ => Ok [1 # 4; 1 # 2; 7 # 8; 37 # 40])
         (__init__ None) OutliergramSpec.docstring_batch
       = (mkDetector (factor (__init__ None))
            (Some [1 # 2; 5 # 6; 11 # 15; 2 # 3])
            (Some [1 # 4; 1 # 2; 7 # 8; 37 # 40]) (Some parabola)
            (Some distances) (Some thr), Ok labels)
    /\ length labels = n_samples OutliergramSpec.docstring_batch
    /\ forall i d, distances !! i = Some d ->
         (thr < d -> labels !! i = Some (-1)%Z) /\
         (d <= thr -> labels !! i = Some 1%Z).
Proof.
  apply (fit_predict_outliergram
           (fun _ => Ok [1 # 2; 5 # 6; 11 # 15; 2 # 3])
           (fun _ => Ok [1 # 4; 1 # 2; 7 # 8; 37 # 40])
           (__init__ None) OutliergramSpec.docstring_batch
           [1 # 2; 5 # 6; 11 # 15; 2 # 3] [1 # 4; 1 # 2; 7 # 8; 37 # 40]).
  - vm_compute. lia.
  - reflexivity.
  - reflexivity.
  - reflexivity.
  - reflexivity.
Defined.

Lemma fit_predict_docstring_batch_witness :
  exists labels,
    (Outliergram.fit_predict OutliergramSpec.ModifiedBandDepth
       OutliergramSpec.modified_epigraph_index
       (__init__ None) OutliergramSpec.docstring_batch).2
    = Ok labels
    /\ length labels = 4%nat
    /\ (count_occ Z.eq_dec labels (-1)%Z <= 1)%nat.
Proof.
  apply (fit_predict_docstring_batch
           OutliergramSpec.ModifiedBandDepth
           OutliergramSpec.modified_epigraph_index
           ltac:(let v := eval vm_compute in
                   (match OutliergramSpec.ModifiedBandDepth
                            OutliergramSpec.docstring_batch with
                    | Ok l => l | Err _ => [] end) in exact v)
           ltac:(let v := eval vm_compute in
                   (match OutliergramSpec.modified_epigraph_index
                            OutliergramSpec.docstring_batch with
                    | Ok l => l | Err _ => [] end) in exact v)).
  - vm_compute. reflexivity.
  - vm_compute. reflexivity.
  - reflexivity.
  - reflexivity.
Defined.

(** *** Robustness of the labels *)

(** At most [n - 1 - p] entries lie strictly above the entry of rank [p]. *)
Lemma count_above_rank (a : list Q) (p : nat) (thr : Q) :
  (p < length a)%nat ->
  nth p (np_sort a) 0 <= thr ->
  (count_occ Z.eq_dec (map (OutliergramSpec.label thr) a) (-1)%Z + S p
   <= length a)%nat.
Proof.
  intros Hp Hthr.
  rewrite <- (proj1 (Permutation_count_occ Z.eq_dec _ _)
                (Permutation_map (OutliergramSpec.label thr)
                   (np_sort_perm a))).
  rewrite <- (np_sort_length a) in *.
  pose proof (np_sort_ascending a) as Hasc.
  revert Hp Hthr Hasc. generalize (np_sort a). clear a. intros arr Hp Hthr Hasc.
  rewrite <- (take_drop (S p) arr) at 1.
  rewrite map_app, count_occ_app.
  assert (count_occ Z.eq_dec
            (map (OutliergramSpec.label thr) (take (S p) arr)) (-1)%Z = 0%nat)
    as ->.
  { apply count_occ_not_In. intros Hin. apply in_map_iff in Hin
      as (x & Hx & Hin).
    apply list_elem_of_In, list_elem_of_lookup in Hin as [i Hi].
    apply lookup_take_Some in Hi as [Hi Hlt].
    assert (x <= thr) as Hle.
    { apply Qle_trans with (nth p arr 0); [|done].
      rewrite <- (nth_lookup_Some _ _ 0 _ Hi).
      apply ascending_nth; [done|lia]. }
    revert Hx. unfold OutliergramSpec.label.
    apply Qltb_ge in Hle. by rewrite Hle. }
  pose proof (count_occ_bound Z.eq_dec (-1)%Z
                (map (OutliergramSpec.label thr) (drop (S p) arr))) as Hb.
  rewrite length_map, length_drop in Hb. lia.
Qed.

Section Robustness.

Variable ModifiedBandDepth : FDataGrid -> res (list Q).
Variable modified_epigraph_index : FDataGrid -> res (list Q).

Local Abbreviation fit := (fit ModifiedBandDepth modified_epigraph_index).
Local Abbreviation fit_predict :=
  (fit_predict ModifiedBandDepth modified_epigraph_index).

(** The threshold is at least the third quartile, which is at least the
    first, when the factor is not negative. *)
Lemma threshold_above_quartile (factor : Q) (ds : list Q) (thr : Q) :
  0 <= factor ->
  OutliergramSpec.threshold factor ds = Ok thr ->
  exists q1 q3,
    np_percentile ds 25 = Ok q1 /\ np_percentile ds 75 = Ok q3 /\
    q1 <= q3 /\ thr == q3 + factor * (q3 - q1).
Proof.
  intros Hf. unfold OutliergramSpec.threshold, OutliergramSpec.Q1,
    OutliergramSpec.Q3.
  destruct (np_percentile ds 25) as [q1|] eqn:H1; simpl; [|done].
  destruct (np_percentile ds 75) as [q3|] eqn:H3; simpl; [|done].
  intros [= <-]. exists q1, q3. split; [done|]. split; [done|].
  split; [|reflexivity].
  apply (np_percentile_mono ds 25 75); [lra..|done|done].
Qed.

(** With a factor that is not negative, [fit_predict] flags at most
    ceil((N - 1) / 4) of the N >= 2 functions of a batch, whatever their
    depths and indices: every function whose distance is at most the third
    quartile is an inlier. *)
Theorem fit_predict_flags_a_quarter_at_most
    (self : OutliergramOutlierDetector) (X : FDataGrid) (mbd mei : list Q) :
  (2 <= n_samples X)%nat ->
  ModifiedBandDepth X = Ok mbd ->
  modified_epigraph_index X = Ok mei ->
  length mbd = n_samples X ->
  length mei = n_samples X ->
  0 <= factor self ->
  exists labels,
    (fit_predict self X).2 = Ok labels /\
    length labels = n_samples X /\
    (4 * count_occ Z.eq_dec labels (-1)%Z <= n_samples X + 2)%nat /\
    (count_occ Z.eq_dec labels (-1)%Z < n_samples X)%nat.
Proof.
  intros Hn Hmbd Hmei Hlmbd Hlmei Hf.
  destruct (fit_run ModifiedBandDepth modified_epigraph_index self X mbd mei)
    as (par & thr & _ & Hlen & Hthr & Hfit); [done..|].
  set (ds := zip_with Qminus par mbd) in *.
  assert (length ds = n_samples X) as Hl
    by (unfold ds; rewrite length_zip_with; lia).
  exists (map (OutliergramSpec.label thr) ds).
  split; [|split; [by rewrite length_map|]].
  { unfold Outliergram.fit_predict. rewrite Hfit. simpl.
    by rewrite predicted_labels. }
  destruct (threshold_above_quartile _ _ _ Hf Hthr)
    as (q1 & q3 & H1 & H3 & Hq & Ethr).
  assert (ds <> []) as Hne by (intros E; rewrite E in Hl; simpl in Hl; lia).
  destruct (np_percentile_between ds 75 Hne) as (w & Hw & Hp & Hlo & _);
    [lra|].
  rewrite H3 in Hw. injection Hw as <-.
  set (p := Z.to_nat (Qfloor (inject_Z (Z.of_nat (length ds - 1)) * (75 / 100))))
    in *.
  assert (nth p (np_sort ds) 0 <= thr) as Hpt.
  { rewrite Ethr.
    assert (0 <= factor self * (q3 - q1))
      by (apply Qmult_le_0_compat; lra). lra. }
  pose proof (count_above_rank ds p thr ltac:(lia) Hpt) as Hc.
  assert (3 * (length ds - 1) <= 4 * p + 3)%nat as Hrank.
  { destruct (virtual_index_floor (length ds - 1) 75 ltac:(lra))
      as ([Hp0 _] & _ & Hg).
    fold p in Hg.
    set (v := inject_Z (Z.of_nat (length ds - 1)) * (75 / 100)) in *.
    assert (inject_Z (Z.of_nat (3 * (length ds - 1)))
            < inject_Z (Z.of_nat (4 * p + 4))) as Hlt.
    { rewrite !Nat2Z.inj_mul, Nat2Z.inj_add, Nat2Z.inj_mul.
      rewrite !inject_Z_mult, inject_Z_plus, inject_Z_mult.
      unfold p. rewrite Z2Nat.id by done.
      change (inject_Z (Z.of_nat 3)) with 3.
      change (inject_Z (Z.of_nat 4)) with 4.
      assert (v == inject_Z (Z.of_nat (length ds - 1)) * (3 # 4)) as Ev
        by (unfold v; field).
      lra. }
    rewrite <- Zlt_Qlt in Hlt. lia. }
  rewrite Hl in *. lia.
Qed.

(** Raising the factor never turns an inlier into an outlier. *)
Theorem larger_factor_flags_fewer (self self' : OutliergramOutlierDetector)
    (X : FDataGrid) (mbd mei : list Q) :
  (2 <= n_samples X)%nat ->
  ModifiedBandDepth X = Ok mbd ->
  modified_epigraph_index X = Ok mei ->
  length mbd = n_samples X ->
  length mei = n_samples X ->
  factor self <= factor self' ->
  exists labels labels',
    (fit_predict self X).2 = Ok labels /\
    (fit_predict self' X).2 = Ok labels' /\
    length labels = n_samples X /\
    length labels' = n_samples X /\
    forall i, labels' !! i = Some (-1)%Z -> labels !! i = Some (-1)%Z.
Proof.
  intros Hn Hmbd Hmei Hlmbd Hlmei Hf.
  destruct (fit_run ModifiedBandDepth modified_epigraph_index self X mbd mei)
    as (par & thr & Hpar & Hlen & Hthr & Hfit); [done..|].
  destruct (fit_run ModifiedBandDepth modified_epigraph_index self' X mbd mei)
    as (par' & thr' & Hpar' & _ & Hthr' & Hfit'); [done..|].
  assert (par' = par) as ->.
  { change (_compute_parabola (set_mei_ (set_mbd_ self' mbd) mei) X)
      with (_compute_parabola (set_mei_ (set_mbd_ self mbd) mei) X) in Hpar'.
    congruence. }
  set (ds := zip_with Qminus par mbd) in *.
  exists (map (OutliergramSpec.label thr) ds),
    (map (OutliergramSpec.label thr') ds).
  assert (length ds = n_samples X) as Hl
    by (unfold ds; rewrite length_zip_with; lia).
  split; [|split; [|split; [|split]]].
  - unfold Outliergram.fit_predict. rewrite Hfit. simpl.
    by rewrite predicted_labels.
  - unfold Outliergram.fit_predict. rewrite Hfit'. simpl.
    by rewrite predicted_labels.
  - by rewrite length_map.
  - by rewrite length_map.
  - assert (thr <= thr') as Hle.
    { revert Hthr Hthr'. unfold OutliergramSpec.threshold,
        OutliergramSpec.Q1, OutliergramSpec.Q3.
      destruct (np_percentile ds 25) as [q1|] eqn:H1; simpl; [|done].
      destruct (np_percentile ds 75) as [q3|] eqn:H3; simpl; [|done].
      intros [= <-] [= <-].
      assert (q1 <= q3) as Hq
        by (apply (np_percentile_mono ds 25 75); [lra..|done|done]).
      nra. }
    intros i. rewrite !list_lookup_fmap.
    destruct (ds !! i) as [d|]; simpl; [|done].
    unfold OutliergramSpec.label.
    destruct (Qltb thr' d) eqn:E'; [|done]. intros _.
    apply Qltb_lt in E'.
    assert (Qltb thr d = true) as -> by (apply Qltb_lt; lra). done.
Qed.

(** On a batch of fewer than two functions [fit] raises the
    [ZeroDivisionError] of the parabola coefficients, once the depths and
    the indices are stored; on a larger batch it never raises it. *)
Theorem fit_needs_two_samples (self : OutliergramOutlierDetector)
    (X : FDataGrid) (mbd mei : list Q) :
  ModifiedBandDepth X = Ok mbd ->
  modified_epigraph_index X = Ok mei ->
  ((n_samples X < 2)%nat ->
   fit self X = (set_mei_ (set_mbd_ self mbd) mei, Err ZeroDivisionError) /\
   fit_predict self X
   = (set_mei_ (set_mbd_ self mbd) mei, Err ZeroDivisionError)) /\
  ((fit self X).2 = Err ZeroDivisionError -> (n_samples X < 2)%nat).
Proof.
  intros Hmbd Hmei. split.
  - intros Hn.
    assert (fit self X
            = (set_mei_ (set_mbd_ self mbd) mei, Err ZeroDivisionError))
      as Hfit.
    { unfold Outliergram.fit. rewrite Hmbd, Hmei.
      unfold _compute_parabola, py_truediv.
      replace (Z.of_nat (n_samples X) * (Z.of_nat (n_samples X) - 1) =? 0)%Z
        with true by (symmetry; apply Z.eqb_eq; nia).
      reflexivity. }
    split; [done|]. unfold Outliergram.fit_predict. by rewrite Hfit.
  - unfold Outliergram.fit. rewrite Hmbd, Hmei.
    destruct (decide (n_samples X < 2)%nat) as [|Hn]; [done|].
    unfold _compute_parabola, py_truediv.
    replace (Z.of_nat (n_samples X) * (Z.of_nat (n_samples X) - 1) =? 0)%Z
      with false by (symmetry; apply Z.eqb_neq; nia).
    replace (Z.of_nat (n_samples X) - 1 =? 0)%Z
      with false by (symmetry; apply Z.eqb_neq; lia).
    simpl. 
    match goal with |- context [np_sub ?a ?b] =>
      destruct (np_sub a b) as [ds|e] eqn:Hsub end.
    + simpl. unfold _compute_maximum_inlier_distance.
      destruct (np_percentile ds 25) as [q1|e1] eqn:H1; simpl.
      * destruct (np_percentile ds 75) as [q3|e3] eqn:H3; simpl; [done|].
        destruct ds; [|done]. simpl in H3. congruence.
      * destruct ds; [|done]. simpl in H1. injection H1 as <-. done.
    + simpl. revert Hsub. unfold np_sub. case_decide; [done|].
      repeat case_match; congruence.
Qed.

(** The result of [fit_predict] does not depend on an earlier fit: two
    detectors with the same factor return the same labels or raise the
    same exception, and after a fit that returns they are in the same
    state. *)
Theorem fit_predict_forgets_earlier_fit
    (self self' : OutliergramOutlierDetector) (X : FDataGrid) :
  factor self = factor self' ->
  (fit_predict self X).2 = (fit_predict self' X).2 /\
  ((exists labels, (fit_predict self X).2 = Ok labels) ->
   (fit_predict self X).1 = (fit_predict self' X).1).
Proof.
  intros Hf. unfold Outliergram.fit_predict, Outliergram.fit.
  destruct (ModifiedBandDepth X) as [mbd|]; [|split; [done|by intros [? ?]]].
  destruct (modified_epigraph_index X) as [mei|];
    [|split; [done|by intros [? ?]]].
  assert (_compute_parabola (set_mei_ (set_mbd_ self mbd) mei) X
          = _compute_parabola (set_mei_ (set_mbd_ self' mbd) mei) X) as <-
    by reflexivity.
  destruct (_compute_parabola _ X) as [par|];
    [|split; [done|by intros [? ?]]].
  destruct (np_sub par mbd) as [ds|]; [|split; [done|by intros [? ?]]].
  unfold _compute_maximum_inlier_distance. simpl. rewrite <- Hf.
  destruct (np_percentile ds 25) as [q1|]; simpl;
    [|split; [done|by intros [? ?]]].
  destruct (np_percentile ds 75) as [q3|]; simpl;
    [|split; [done|by intros [? ?]]].
  split; [done|]. intros _. unfold set_max_inlier_distance_. simpl.
  by rewrite Hf.
Qed.

End Robustness.

Lemma fit_predict_flags_a_quarter_at_most_witness :
  exists labels,
    (Outliergram.fit_predict (fun _ => Ok Examples.docstring_depths)
       (fun _ => Ok Examples.docstring_indices)
       (__init__ None) OutliergramSpec.docstring_batch).2 = Ok labels /\
    length labels = n_samples OutliergramSpec.docstring_batch /\
    (4 * count_occ Z.eq_dec labels (-1)%Z
     <= n_samples OutliergramSpec.docstring_batch + 2)%nat /\
    (count_occ Z.eq_dec labels (-1)%Z
     < n_samples OutliergramSpec.docstring_batch)%nat.
Proof.
  apply (fit_predict_flags_a_quarter_at_most
           (fun _ => Ok Examples.docstring_depths)
           (fun _ => Ok Examples.docstring_indices)
           (__init__ None) OutliergramSpec.docstring_batch
           Examples.docstring_depths Examples.docstring_indices).
  - vm_compute. lia.
  - reflexivity.
  - reflexivity.
  - reflexivity.
  - reflexivity.
  - vm_compute. discriminate.
Defined.

(** The factors 1.5 and 3 on the docstring batch. *)
Lemma larger_factor_flags_fewer_witness :
  exists labels labels',
    (Outliergram.fit_predict (fun _ => Ok Examples.docstring_depths)
       (fun _ => Ok Examples.docstring_indices)
       (__init__ None) OutliergramSpec.docstring_batch).2 = Ok labels /\
    (Outliergram.fit_predict (fun _ => Ok Examples.docstring_depths)
       (fun _ => Ok Examples.docstring_indices)
       (__init__ (Some 3)) OutliergramSpec.docstring_batch).2 = Ok labels' /\
    length labels = n_samples OutliergramSpec.docstring_batch /\
    length labels' = n_samples OutliergramSpec.docstring_batch /\
    forall i, labels' !! i = Some (-1)%Z -> labels !! i = Some (-1)%Z.
Proof.
  apply (larger_factor_flags_fewer
           (fun _ => Ok Examples.docstring_depths)
           (fun _ => Ok Examples.docstring_indices)
           (__init__ None) (__init__ (Some 3)) OutliergramSpec.docstring_batch
           Examples.docstring_depths Examples.docstring_indices).
  - vm_compute. lia.
  - reflexivity.
  - reflexivity.
  - reflexivity.
  - reflexivity.
  - vm_compute. discriminate.
Defined.

(** A batch of one curve. *)
Lemma fit_needs_two_samples_witness :
  Outliergram.fit (fun _ => Ok [1]) (fun _ => Ok [1 # 2])
    (__init__ None) Examples.single_curve
  = (set_mei_ (set_mbd_ (__init__ None) [1]) [1 # 2], Err ZeroDivisionError)
  /\ Outliergram.fit_predict (fun _ => Ok [1]) (fun _ => Ok [1 # 2])
       (__init__ None) Examples.single_curve
     = (set_mei_ (set_mbd_ (__init__ None) [1]) [1 # 2],
        Err ZeroDivisionError).
Proof.
  apply (fit_needs_two_samples (fun _ => Ok [1]) (fun _ => Ok [1 # 2])
           (__init__ None) Examples.single_curve [1] [1 # 2]).
  - reflexivity.
  - reflexivity.
  - vm_compute. lia.
Defined.

(** A new detector and one that was fitted on a single curve before. *)
Lemma fit_predict_forgets_earlier_fit_witness :
  let used :=
    (Outliergram.fit (fun _ => Ok [1]) (fun _ => Ok [1 # 2])
       (__init__ None) Examples.single_curve).1 in
  (Outliergram.fit_predict (fun _ => Ok Examples.docstring_depths)
     (fun _ => Ok Examples.docstring_indices)
     (__init__ None) OutliergramSpec.docstring_batch).2
  = (Outliergram.fit_predict (fun _ => Ok Examples.docstring_depths)
       (fun _ => Ok Examples.docstring_indices)
       used OutliergramSpec.docstring_batch).2.
Proof.
  intros used.
  apply (fit_predict_forgets_earlier_fit
           (fun _ => Ok Examples.docstring_depths)
           (fun _ => Ok Examples.docstring_indices)
           (__init__ None) used OutliergramSpec.docstring_batch).
  reflexivity.
Defined.

End OutliergramFacts.

(** ** Arrays, indices and loops *)

Module NumPyFacts.
Import NumPy RKVSSpec.

Lemma mapM_cons {A B} (f : A -> res B) (x : A) (l : list A) :
  mapM f (x :: l) = y ← f x; k ← mapM f l; Ok (y :: k).
Proof. reflexivity. Qed.

(** A loop whose body either returns or raises [e0] (for the reason [Q])
    does the same. *)
Lemma mapM_cases {A B} (f : A -> res B) (l : list A) (e0 : exn) (Q : Prop) :
  (forall x, x ∈ l -> (exists y, f x = Ok y) \/ (f x = Err e0 /\ Q)) ->
  (exists ys, mapM f l = Ok ys /\ length ys = length l)
  \/ (mapM f l = Err e0 /\ Q).
Proof.
  induction l as [|x l IH]; intros Hf.
  - left. by exists [].
  - rewrite mapM_cons.
    destruct (Hf x) as [[y Hy]|[Hy HQ]]; [by left | | right; by rewrite Hy].
    rewrite Hy. simpl.
    destruct IH as [(ys & Hys & Hlen)|[Hys HQ]].
    + intros z Hz. apply Hf. by right.
    + left. exists (y :: ys). rewrite Hys. simpl. by rewrite Hlen.
    + right. by rewrite Hys.
Qed.

Lemma mapM_ok {A B} (f : A -> res B) (l : list A) :
  (forall x, x ∈ l -> exists y, f x = Ok y) ->
  exists ys, mapM f l = Ok ys /\ length ys = length l.
Proof.
  intros Hf.
  destruct (mapM_cases f l AssertionError False) as [H|[_ []]]; [|done].
  intros x Hx. left. by apply Hf.
Qed.

Lemma mapM_err {A B} (f : A -> res B) (l : list A) (e : exn) :
  mapM f l = Err e -> exists x, x ∈ l /\ f x = Err e.
Proof.
  induction l as [|x l IH]; [done|]. rewrite mapM_cons.
  destruct (f x) as [y|e'] eqn:Hx; simpl.
  - destruct (mapM f l) as [k|e'] eqn:Hl; simpl; [done|]. intros [= ->].
    destruct IH as (z & Hz & Hfz); [done|]. exists z. split; [by right|done].
  - intros [= ->]. exists x. split; [by left|done].
Qed.

Lemma for_each_cons {S A} (x : A) (l : list A) (body : A -> S -> res S)
    (s : S) :
  for_each (x :: l) body s = s' ← body x s; for_each l body s'.
Proof. reflexivity. Qed.

(** A counted loop that keeps an invariant, or raises [e0]. *)
Lemma for_each_seq {S} (body : nat -> S -> res S) (Inv : nat -> S -> Prop)
    (e0 : exn) (Q : Prop) (k i : nat) (s : S) :
  Inv i s ->
  (forall j s, (i <= j < i + k)%nat -> Inv j s ->
     (exists s', body j s = Ok s' /\ Inv (Datatypes.S j) s')
     \/ (body j s = Err e0 /\ Q)) ->
  (exists s', for_each (seq i k) body s = Ok s' /\ Inv (i + k)%nat s')
  \/ (for_each (seq i k) body s = Err e0 /\ Q).
Proof.
  revert i s. induction k as [|k IH]; intros i s Hinv Hbody.
  - left. exists s. by rewrite Nat.add_0_r.
  - simpl seq. rewrite for_each_cons.
    destruct (Hbody i s) as [(s' & Hs' & Hinv')|[He HQ]]; [lia | done | |].
    + rewrite Hs'. simpl.
      destruct (IH (Datatypes.S i) s' Hinv') as [(s'' & Hs'' & Hinv'')|H].
      * intros j t Hj. apply Hbody. lia.
      * left. exists s''. split; [done|].
        by replace (i + Datatypes.S k)%nat with (Datatypes.S i + k)%nat by lia.
      * by right.
    + right. by rewrite He.
Qed.

Lemma getitem_ok {A} (name : string) (a : list A) (i : nat) :
  (i < length a)%nat -> exists x, getitem name a i = Ok x /\ a !! i = Some x.
Proof.
  intros Hi. unfold getitem.
  destruct (lookup_lt_is_Some_2 a i Hi) as [x Hx]. rewrite Hx. eauto.
Qed.

Lemma take_indices_ok {A} (name : string) (a : list A) (idx : list nat) :
  Forall (fun i => i < length a)%nat idx ->
  exists v, take_indices name a idx = Ok v /\ length v = length idx.
Proof.
  intros Hidx. apply mapM_ok. intros i Hi.
  rewrite Forall_forall in Hidx.
  destruct (getitem_ok name a i (Hidx i Hi)) as (x & Hx & _). eauto.
Qed.

Lemma take_indices_err {A} (name : string) (a : list A) (idx : list nat)
    (e : exn) :
  take_indices name a idx = Err e -> e = IndexError name.
Proof.
  intros H. apply mapM_err in H as (i & _ & Hi). revert Hi.
  unfold getitem. destruct (a !! i); [done|]. by intros [= <-].
Qed.

Lemma take_indices_elem {A} (name : string) (a : list A) (idx : list nat)
    (v : list A) :
  take_indices name a idx = Ok v -> forall x, x ∈ v -> x ∈ a.
Proof.
  unfold take_indices. revert v.
  induction idx as [|i idx IH]; intros v.
  - intros [= <-] x Hx. by apply elem_of_nil in Hx.
  - rewrite mapM_cons.
    destruct (getitem name a i) as [y|] eqn:Hy; simpl; [|done].
    destruct (mapM (getitem name a) idx) as [k|]; simpl; [|done].
    intros [= <-] x Hx. apply elem_of_cons in Hx as [->|Hx].
    + unfold getitem in Hy. destruct (a !! i) as [z|] eqn:Hz; [|done].
      injection Hy as ->. by eapply list_elem_of_lookup_2.
    + by eapply IH.
Qed.

Lemma mapM_ok_elem {A B} (f : A -> res B) (l : list A) (k : list B) :
  mapM f l = Ok k -> forall y, y ∈ k -> exists x, x ∈ l /\ f x = Ok y.
Proof.
  revert k. induction l as [|x l IH]; intros k.
  - intros [= <-] y Hy. by apply elem_of_nil in Hy.
  - rewrite mapM_cons. destruct (f x) as [z|] eqn:Hx; simpl; [|done].
    destruct (mapM f l) as [k'|]; simpl; [|done]. intros [= <-] y Hy.
    apply elem_of_cons in Hy as [->|Hy].
    + exists x. split; [by left|done].
    + destruct (IH k' eq_refl y Hy) as (x' & Hx' & Hfx').
      exists x'. split; [by right|done].
Qed.

Lemma submatrix_elem (name : string) (V sub : list (list float))
    (idx : list nat) :
  submatrix name V idx = Ok sub ->
  Forall (Forall (fun x => exists row, row ∈ V /\ x ∈ row)) sub.
Proof.
  unfold submatrix.
  destruct (take_indices name V idx) as [sel|] eqn:Hsel; simpl; [|done].
  intros Hsub. apply Forall_forall. intros r Hr.
  destruct (mapM_ok_elem _ _ _ Hsub r Hr) as (row & Hrow & Htake).
  apply Forall_forall. intros x Hx. exists row. split.
  - by eapply take_indices_elem.
  - by eapply take_indices_elem.
Qed.

Lemma submatrix_ok (name : string) (V : list (list float)) (idx : list nat)
    (P : nat) :
  length V = P ->
  Forall (fun row => length row = P) V ->
  Forall (fun i => i < P)%nat idx ->
  exists sub, submatrix name V idx = Ok sub.
Proof.
  intros HV Hrows Hidx. unfold submatrix.
  destruct (take_indices_ok name V idx) as (sel & Hsel & _); [by rewrite HV|].
  rewrite Hsel. simpl.
  destruct (mapM_ok (fun row => take_indices name row idx) sel) as (sub & Hs & _);
    [|eauto].
  intros row Hrow.
  destruct (take_indices_ok name row idx) as (v & Hv & _); [|eauto].
  rewrite Forall_forall in Hrows.
  rewrite (Hrows row); [done|]. by eapply take_indices_elem.
Qed.

Lemma argmax_scan_bound (a : list float) (mp : float) (max_ind i : nat) :
  (max_ind < i)%nat -> (argmax_scan mp max_ind i a < i + length a)%nat.
Proof.
  revert mp max_ind i.
  induction a as [|x a IH]; intros mp max_ind i Hlt; simpl; [lia|].
  destruct (fle x mp).
  - specialize (IH mp max_ind (S i)). lia.
  - destruct (isnan x); [lia|]. specialize (IH x i (S i)). lia.
Qed.

Lemma np_argmax_ok (a : list float) :
  a <> [] -> exists i, np_argmax a = Ok i /\ (i < length a)%nat.
Proof.
  destruct a as [|x a]; [done|]. intros _. simpl. eexists. split; [done|].
  destruct (isnan x); [lia|].
  pose proof (argmax_scan_bound a x 0 1). lia.
Qed.

Lemma np_mean0_length (M : ndarray) : length (np_mean0 M) = shape1 M.
Proof. unfold np_mean0. by rewrite length_map, length_seq. Qed.

(** [np.cov] of an array of one row is 1 x 1; of any other array it is
    P x P, for the P columns of the array. *)
Lemma np_cov_one_row (M : ndarray) :
  length (rows M) = 1%nat -> exists v, np_cov M = [[v]].
Proof.
  unfold np_cov. destruct (rows M) as [|row [|row' l]]; try done. eauto.
Qed.

Lemma np_cov_square (M : ndarray) :
  length (rows M) <> 1%nat -> square (shape1 M) (np_cov M).
Proof.
  intros Hrows.
  assert (np_cov M
          = map (fun s =>
                   map (fun t =>
                          fmul (fsum (zip_with fmul
                                  (map (fun x => fsub x (nth s (np_mean0 M) NaN))
                                       (column s M))
                                  (map (fun x => fsub x (nth t (np_mean0 M) NaN))
                                       (column t M))))
                               (fdiv (Fin 1) (of_nat (length (rows M)))))
                       (seq 0 (shape1 M)))
                (seq 0 (shape1 M))) as ->.
  { unfold np_cov. by destruct (rows M) as [|row [|row' l]]. }
  split.
  - by rewrite length_map, length_seq.
  - apply Forall_forall. intros row Hrow.
    apply list_elem_of_fmap in Hrow as (s & -> & _).
    by rewrite length_map, length_seq.
Qed.

Lemma square_map_length (P : nat) (V : list (list float)) :
  square P V -> map length V = replicate P P.
Proof.
  intros [HV Hrows]. rewrite <- HV at 1. clear HV.
  induction Hrows as [|row V Hrow _ IH]; [done|].
  simpl. by rewrite Hrow, IH.
Qed.

Lemma square_fmap (f : float -> float) (P : nat) (V : list (list float)) :
  square P V -> square P (map (map f) V).
Proof.
  intros [HV Hrows]. split; [by rewrite length_map|].
  apply Forall_fmap. eapply Forall_impl; [exact Hrows|].
  intros row Hrow. simpl. by rewrite length_map.
Qed.

Lemma square_one (V : list (list float)) :
  square 1 V <-> exists v, V = [[v]].
Proof.
  split.
  - intros [HV Hrows]. destruct V as [|row [|row' V]]; try done.
    apply Forall_cons in Hrows as [Hrow _].
    destruct row as [|v [|v' row]]; try done. eauto.
  - intros [v ->]. split; [done|]. by repeat constructor.
Qed.

(** The sum of two arrays of one shape, and of an array with a 1 x 1 array,
    have the shape of the larger one. *)
Lemma np_add_2d_square (P : nat) (a b : list (list float)) :
  square P a -> square P b ->
  np_add_2d a b = Ok (zip_with (zip_with fadd) a b)
  /\ square P (zip_with (zip_with fadd) a b).
Proof.
  intros Ha Hb. unfold np_add_2d.
  rewrite decide_True
    by (by rewrite (square_map_length P a), (square_map_length P b)).
  split; [done|]. destruct Ha as [Ha Hra], Hb as [Hb Hrb]. split.
  - rewrite length_zip_with. lia.
  - apply Forall_forall. intros row Hrow.
    apply elem_of_lookup_zip_with in Hrow as (i & r1 & r0 & -> & Hr1 & Hr0).
    rewrite Forall_forall in Hra, Hrb. rewrite length_zip_with.
    rewrite (Hra r1) by (by eapply list_elem_of_lookup_2).
    rewrite (Hrb r0) by (by eapply list_elem_of_lookup_2). lia.
Qed.

Lemma np_add_2d_broadcast_l (P : nat) (x : float) (b : list (list float)) :
  square P b ->
  exists V, np_add_2d [[x]] b = Ok V /\ square P V.
Proof.
  intros Hb. unfold np_add_2d. case_decide as Hshape.
  - assert (exists y, b = [[y]]) as [y ->].
    { destruct b as [|[|y [|]] [|]]; try done. eauto. }
    eexists. split; [done|]. destruct Hb as [Hb _]. simpl in Hb. subst P.
    apply square_one. eauto.
  - eexists. split; [done|]. by apply square_fmap.
Qed.

Lemma np_add_2d_broadcast_r (P : nat) (a : list (list float)) (y : float) :
  square P a ->
  exists V, np_add_2d a [[y]] = Ok V /\ square P V.
Proof.
  intros Ha. unfold np_add_2d. case_decide as Hshape.
  - assert (exists x, a = [[x]]) as [x ->].
    { destruct a as [|[|x [|]] [|]]; try done. eauto. }
    eexists. split; [done|]. destruct Ha as [Ha _]. simpl in Ha. subst P.
    apply square_one. eauto.
  - exists (map (map (fun x => fadd x y)) a). split; [|by apply square_fmap].
    by destruct a as [|[|x [|]] [|]].
Qed.

(** The quotient of an array of length P by one of length P or 1. *)
Lemma np_divide_ok (a b : list float) :
  length b = length a \/ length b = 1%nat ->
  exists q, np_divide a b = Ok q /\ length q = length a.
Proof.
  intros Hb. unfold np_divide. case_decide as Hlen.
  - eexists. split; [done|]. rewrite length_zip_with. lia.
  - destruct Hb as [Hb|Hb]; [lia|].
    destruct b as [|y [|]]; try done.
    exists (map (fun x => fdiv x y) a). split; [|by rewrite length_map].
    by destruct a as [|x [|]].
Qed.

Lemma np_divide_same_length (a b : list float) :
  length a = length b -> np_divide a b = Ok (zip_with fdiv a b).
Proof. intros H. unfold np_divide. by rewrite decide_True. Qed.

Lemma mask_rows_shape1 (M M' : ndarray) (mask : list bool) :
  mask_rows M mask = Ok M' -> shape1 M' = shape1 M.
Proof. unfold mask_rows. case_decide; [|done]. by intros [= <-]. Qed.

Lemma mask_rows_ok (M : ndarray) (mask : list bool) :
  length mask = shape0 M -> exists M', mask_rows M mask = Ok M'.
Proof. intros H. unfold mask_rows. rewrite decide_True by done. eauto. Qed.

Lemma mask_rows_err (M : ndarray) (mask : list bool) (e : exn) :
  mask_rows M mask = Err e -> e = IndexError "X" /\ length mask <> shape0 M.
Proof. unfold mask_rows. case_decide; [done|]. by intros [= <-]. Qed.

(** *** The order of the floats that are not [nan] *)

Lemma fle_refl (x : float) : isnan x = false -> fle x x = true.
Proof.
  destruct x; simpl; try done. intros _. apply Qle_bool_iff, Qle_refl.
Qed.

Lemma fle_trans (x y z : float) :
  fle x y = true -> fle y z = true -> fle x z = true.
Proof.
  destruct x, y, z; simpl; try done.
  rewrite !Qle_bool_iff. apply Qle_trans.
Qed.

Lemma fle_total (x y : float) :
  isnan x = false -> isnan y = false -> fle x y = false -> fle y x = true.
Proof.
  destruct x, y; simpl; try done. intros _ _ H.
  apply Qle_bool_iff. apply not_true_iff_false in H.
  rewrite Qle_bool_iff in H. apply Qlt_le_weak. by apply Qnot_le_lt.
Qed.

Lemma flt_fle (x y : float) : flt x y = true -> fle x y = true.
Proof. unfold flt. by intros [? _]%andb_true_iff. Qed.

Lemma fle_flt_trans (x y z : float) :
  fle x y = true -> flt y z = true -> flt x z = true.
Proof.
  unfold flt. intros Hxy [Hyz Hzy]%andb_true_iff.
  apply andb_true_iff. split; [by eapply fle_trans|].
  apply negb_true_iff, not_true_iff_false. intros Hzx.
  apply negb_true_iff in Hzy. rewrite (fle_trans z x y) in Hzy; done.
Qed.

(** The scan of [np.argmax] from position [i], where the running maximum
    [mp] is the entry at [max_ind], dominates the entries seen and is
    strictly above those before [max_ind]. *)
Lemma argmax_scan_first (pre suf : list float) (mp : float) (max_ind : nat) :
  Forall (fun x => isnan x = false) (pre ++ suf) ->
  pre !! max_ind = Some mp ->
  (forall j w, pre !! j = Some w -> fle w mp = true) ->
  (forall j w, (j < max_ind)%nat -> pre !! j = Some w -> flt w mp = true) ->
  let r := argmax_scan mp max_ind (length pre) suf in
  exists v, (pre ++ suf) !! r = Some v /\
    (forall j w, (pre ++ suf) !! j = Some w -> fle w v = true) /\
    (forall j w, (j < r)%nat -> (pre ++ suf) !! j = Some w ->
                 flt w v = true).
Proof.
  revert pre mp max_ind.
  induction suf as [|x suf IH]; intros pre mp max_ind Hnan Hmp Hle Hlt; simpl.
  - rewrite app_nil_r. eauto.
  - assert (isnan x = false) as Hx.
    { rewrite Forall_app, Forall_cons in Hnan. tauto. }
    assert (isnan mp = false) as Hmpn.
    { rewrite Forall_app in Hnan. destruct Hnan as [Hpre _].
      rewrite Forall_forall in Hpre. apply Hpre.
      by eapply list_elem_of_lookup_2. }
    replace (pre ++ x :: suf) with ((pre ++ [x]) ++ suf) in *
      by (by rewrite <- app_assoc).
    replace (S (length pre)) with (length (pre ++ [x]))
      by (rewrite length_app; simpl; lia).
    assert (max_ind < length pre)%nat as Hmi by (by eapply lookup_lt_Some).
    destruct (fle x mp) eqn:Hxmp.
    + apply IH; [done| | |].
      * by rewrite lookup_app_l.
      * intros j w Hj. apply lookup_app_Some in Hj as [Hj|[_ Hj]];
          [by eapply Hle|].
        apply list_lookup_singleton_Some in Hj as [_ <-]. done.
      * intros j w Hjlt Hj. rewrite lookup_app_l in Hj by lia.
        by eapply Hlt.
    + rewrite Hx.
      assert (flt mp x = true) as Hmpx.
      { unfold flt. rewrite Hxmp. simpl. rewrite andb_true_r.
        by apply fle_total. }
      apply IH; [done| | |].
      * rewrite lookup_app_r by lia. by rewrite Nat.sub_diag.
      * intros j w Hj. apply lookup_app_Some in Hj as [Hj|[_ Hj]].
        -- apply flt_fle. eapply fle_flt_trans; [by eapply Hle|done].
        -- apply list_lookup_singleton_Some in Hj as [_ <-].
           by apply fle_refl.
      * intros j w Hjlt Hj. rewrite lookup_app_l in Hj by lia.
        eapply fle_flt_trans; [by eapply Hle|done].
Qed.

(** On an array without [nan], [np.argmax] returns the first index at
    which the array is maximal. *)
Lemma np_argmax_first (a : list float) (i : nat) :
  Forall (fun x => isnan x = false) a ->
  np_argmax a = Ok i ->
  RKVSSpec.first_argmax a i.
Proof.
  destruct a as [|x a]; [done|]. intros Hnan. simpl.
  assert (isnan x = false) as Hx by (by apply Forall_cons in Hnan as [? _]).
  rewrite Hx. intros [= <-].
  apply (argmax_scan_first [x] a x 0); [done..| |].
  - intros [|j] w Hj; [|done]. injection Hj as <-. by apply fle_refl.
  - intros j w Hj. lia.
Qed.

Lemma zip_with_diag {A B} (f : A -> A -> B) (l : list A) :
  zip_with f l l = map (fun x => f x x) l.
Proof. induction l as [|x l IH]; simpl; [done|]. by rewrite IH. Qed.

Lemma np_mean0_lookup (M : ndarray) (t : nat) :
  (t < shape1 M)%nat -> np_mean0 M !! t = Some (fmean (column t M)).
Proof.
  intros Ht. unfold np_mean0. rewrite list_lookup_fmap, lookup_seq_lt by done.
  done.
Qed.

(** The diagonal of [np.cov] holds the variances of the columns. *)
Lemma np_cov_diag (M : ndarray) (t : nat) :
  length (rows M) <> 1%nat ->
  (t < shape1 M)%nat ->
  exists row, np_cov M !! t = Some row /\
    row !! t = Some (RKVSSpec.variance_at (rows M) t).
Proof.
  intros Hrows Ht.
  assert (np_cov M
          = map (fun s =>
                   map (fun t =>
                          fmul (fsum (zip_with fmul
                                  (map (fun x => fsub x (nth s (np_mean0 M) NaN))
                                       (column s M))
                                  (map (fun x => fsub x (nth t (np_mean0 M) NaN))
                                       (column t M))))
                               (fdiv (Fin 1) (of_nat (length (rows M)))))
                       (seq 0 (shape1 M)))
                (seq 0 (shape1 M))) as ->.
  { unfold np_cov. by destruct (rows M) as [|row [|row' l]]. }
  rewrite list_lookup_fmap, lookup_seq_lt by done. simpl.
  eexists. split; [reflexivity|].
  rewrite list_lookup_fmap, lookup_seq_lt by done. simpl.
  rewrite zip_with_diag, map_map.
  rewrite (nth_lookup_Some _ _ _ _ (np_mean0_lookup M t Ht)).
  reflexivity.
Qed.

Lemma take_indices_nth {A} (name : string) (a : list A) (idx : list nat)
    (d : A) :
  Forall (fun i => i < length a)%nat idx ->
  take_indices name a idx = Ok (map (fun i => nth i a d) idx).
Proof.
  unfold take_indices. induction 1 as [|i idx Hi _ IH]; [done|].
  rewrite mapM_cons, IH. unfold getitem.
  destruct (lookup_lt_is_Some_2 a i Hi) as [x Hx]. rewrite Hx. simpl.
  by rewrite (nth_lookup_Some _ _ d _ Hx).
Qed.

Lemma for_each_app {S A} (l1 l2 : list A) (body : A -> S -> res S) (s : S) :
  for_each (l1 ++ l2) body s = s' ← for_each l1 body s; for_each l2 body s'.
Proof.
  revert s. induction l1 as [|x l1 IH]; intros s; [done|].
  simpl app. rewrite !for_each_cons. destruct (body x s); simpl; [apply IH|done].
Qed.

(** A counted loop that returns has kept every invariant of its body. *)
Lemma for_each_seq_inv {S} (body : nat -> S -> res S) (Inv : nat -> S -> Prop)
    (k i : nat) (s s' : S) :
  Inv i s ->
  (forall j t t', (i <= j < i + k)%nat -> Inv j t -> body j t = Ok t' ->
                  Inv (Datatypes.S j) t') ->
  for_each (seq i k) body s = Ok s' ->
  Inv (i + k)%nat s'.
Proof.
  revert i s. induction k as [|k IH]; intros i s Hinv Hbody; simpl seq.
  - intros [= <-]. by rewrite Nat.add_0_r.
  - rewrite for_each_cons. destruct (body i s) as [t|] eqn:Ht; simpl; [|done].
    intros Hrest.
    replace (i + Datatypes.S k)%nat with (Datatypes.S i + k)%nat by lia.
    apply (IH (Datatypes.S i) t); [| |done].
    + apply (Hbody i s t); [lia|done..].
    + intros j u u' Hj. apply Hbody. lia.
Qed.

Lemma filter_all {A} (P : A -> Prop) `{forall x, Decision (P x)} (l : list A) :
  Forall P l -> filter P l = l.
Proof.
  induction 1 as [|x l Hx _ IH]; [done|].
  rewrite filter_cons_True by done. by rewrite IH.
Qed.

(** [np.delete] at the position of an entry of a list without repetition
    removes that entry. *)
Lemma delete_filter_ne (l : list nat) (j c : nat) :
  NoDup l -> l !! j = Some c -> delete j l = filter (fun t => t <> c) l.
Proof.
  intros Hnd. revert j. induction Hnd as [|x l Hx Hnd IH]; intros j Hj; [done|].
  destruct j as [|j]; simpl in *.
  - injection Hj as ->. rewrite filter_cons_False by (intros H; by apply H).
    symmetry. apply filter_all.
    apply Forall_forall. intros t Ht Heq. subst. done.
  - rewrite filter_cons_True.
    + f_equal. by apply IH.
    + intros ->. apply Hx. by eapply list_elem_of_lookup_2.
Qed.

Lemma mapM_length {A B} (f : A -> res B) (l : list A) (k : list B) :
  mapM f l = Ok k -> length k = length l.
Proof.
  revert k. induction l as [|x l IH]; intros k.
  - by intros [= <-].
  - rewrite mapM_cons. destruct (f x); simpl; [|done].
    destruct (mapM f l) as [k'|]; simpl; [|done].
    intros [= <-]. simpl. by rewrite (IH k').
Qed.

Lemma mapM_lookup {A B} (f : A -> res B) (l : list A) (k : list B)
    (i : nat) (x : A) :
  mapM f l = Ok k -> l !! i = Some x ->
  exists y, f x = Ok y /\ k !! i = Some y.
Proof.
  revert k i. induction l as [|z l IH]; intros k i; [done|].
  rewrite mapM_cons. destruct (f z) as [y|] eqn:Hz; simpl; [|done].
  destruct (mapM f l) as [k'|]; simpl; [|done].
  intros [= <-]. destruct i as [|i]; simpl.
  - intros [= <-]. eauto.
  - by apply IH.
Qed.







End NumPyFacts.

(** ** The RKHS variable selection *)

Module RKVSFacts.
Import NumPy NumPyFacts RKVS RKVSSpec.

Section Selection.

Variable sqrtQ : Q -> Q.
Variable lstsq : list (list float) -> list float -> option (list float).

Local Abbreviation _rkhs_vs := (_rkhs_vs sqrtQ lstsq).
Local Abbreviation fit := (fit sqrtQ lstsq).
Local Abbreviation select_next := (select_next lstsq).
Local Abbreviation candidate_score := (candidate_score lstsq).

Lemma class_means_length (c1 c0 : ndarray) (P : nat) :
  shape1 c1 = P -> shape1 c0 = P -> length (class_means c1 c0) = P.
Proof.
  intros H1 H0. unfold class_means.
  rewrite length_zip_with, !np_mean0_length. lia.
Qed.

(** The pooled covariance is P x P, unless each class holds one sample:
    then it is 1 x 1. *)
Lemma pooled_covariance_cases (p1 p0 : float) (c1 c0 : ndarray) (P : nat) :
  shape1 c1 = P -> shape1 c0 = P ->
  exists variances,
    pooled_covariance p1 p0 c1 c0 = Ok variances /\
    (length (rows c1) = 1%nat /\ length (rows c0) = 1%nat ->
     exists v, variances = [[v]]) /\
    (~ (length (rows c1) = 1%nat /\ length (rows c0) = 1%nat) ->
     square P variances).
Proof.
  intros H1 H0. unfold pooled_covariance.
  destruct (decide (length (rows c1) = 1%nat)) as [E1|E1];
    destruct (decide (length (rows c0) = 1%nat)) as [E0|E0].
  - destruct (np_cov_one_row c1 E1) as [v1 ->].
    destruct (np_cov_one_row c0 E0) as [v0 ->].
    eexists. split; [reflexivity|]. split; [eauto|]. tauto.
  - destruct (np_cov_one_row c1 E1) as [v1 ->].
    pose proof (np_cov_square c0 E0) as Hsq. rewrite H0 in Hsq.
    destruct (np_add_2d_broadcast_l P (fmul p1 v1)
                (map (map (fmul p0)) (np_cov c0)))
      as (V & HV & HsqV); [by apply square_fmap|].
    exists V. split; [exact HV|]. split; [tauto|done].
  - destruct (np_cov_one_row c0 E0) as [v0 ->].
    pose proof (np_cov_square c1 E1) as Hsq. rewrite H1 in Hsq.
    destruct (np_add_2d_broadcast_r P (map (map (fmul p1)) (np_cov c1))
                (fmul p0 v0))
      as (V & HV & HsqV); [by apply square_fmap|].
    exists V. split; [exact HV|]. split; [tauto|done].
  - pose proof (np_cov_square c1 E1) as Hsq1. rewrite H1 in Hsq1.
    pose proof (np_cov_square c0 E0) as Hsq0. rewrite H0 in Hsq0.
    destruct (np_add_2d_square P (map (map (fmul p1)) (np_cov c1))
                (map (map (fmul p0)) (np_cov c0)))
      as [HV HsqV]; [by apply square_fmap..|].
    eexists. split; [exact HV|]. split; [tauto|done].
Qed.

Lemma mu_sigma_of_ok (means : list float) (variances : list (list float))
    (P : nat) :
  length means = P ->
  square P variances \/ (exists v, variances = [[v]]) ->
  exists mu_sigma,
    mu_sigma_of sqrtQ means variances = Ok mu_sigma /\ length mu_sigma = P.
Proof.
  intros Hm Hv. unfold mu_sigma_of.
  destruct (np_divide_ok (map fabs means)
              (map (np_sqrt sqrtQ) (np_diag variances)))
    as (q & Hq & Hlen).
  - unfold np_diag. rewrite !length_map, length_imap.
    destruct Hv as [[Hv _]|[v ->]]; [left; lia|by right].
  - exists q. split; [done|]. by rewrite Hlen, length_map.
Qed.

(** With every index in range, the score of a candidate is computed unless
    the solver raises. *)
Lemma candidate_score_cases (means : list float)
    (variances : list (list float)) (selected : list nat) (candidate P : nat) :
  length means = P ->
  square P variances ->
  Forall (fun i => i < P)%nat selected ->
  (candidate < P)%nat ->
  (exists v, candidate_score means variances selected candidate = Ok v)
  \/ (candidate_score means variances selected candidate = Err LinAlgError
      /\ solver_fails lstsq means variances).
Proof.
  intros Hm [Hv Hrows] Hsel Hc. unfold RKVS.candidate_score.
  assert (Forall (fun i => i < P)%nat (selected ++ [candidate])) as Hidx
    by (apply Forall_app; split; [done | by constructor]).
  destruct (take_indices_ok "means" means (selected ++ [candidate]))
    as (nm & Hnm & _); [by rewrite Hm|].
  destruct (submatrix_ok "variances" variances (selected ++ [candidate]) P)
    as (sub & Hsub); [done..|].
  rewrite Hnm, Hsub. simpl. unfold linalg_lstsq.
  destruct (lstsq sub nm) as [x|] eqn:Hx; simpl; [eauto|].
  right. split; [done|]. exists sub, nm. split; [|done]. split.
  - apply Forall_forall. intros z Hz. by eapply take_indices_elem.
  - by eapply submatrix_elem.
Qed.

(** An iteration of the selection loop that returns keeps the invariant. *)
Lemma select_next_inv (means : list float) (variances : list (list float))
    (n P first i : nat) (st st' : loop_state) :
  (1 <= i < n)%nat ->
  selection_invariant n P first i st ->
  select_next means variances i st = Ok st' ->
  selection_invariant n P first (S i) st'.
Proof.
  intros Hi (Hlsel & Hlsc & Hfirst & Hperm). unfold RKVS.select_next.
  destruct (mapM _ (indexes st)) as [aux|] eqn:Haux; simpl; [|done].
  destruct (np_argmax aux) as [aux2|] eqn:Harg; simpl; [|done].
  destruct (getitem "indexes" (indexes st) aux2) as [chosen|] eqn:Hch; simpl;
    [|done].
  destruct (getitem "aux" aux aux2) as [best|]; simpl; [|done].
  assert (indexes st !! aux2 = Some chosen) as Hlk.
  { revert Hch. unfold getitem. destruct (indexes st !! aux2); congruence. }
  unfold np_delete. case_decide; simpl; [|done].
  intros [= <-]. unfold selection_invariant. simpl.
  rewrite !length_insert. split; [done|]. split; [done|]. split.
  - rewrite list_lookup_insert_ne by lia. done.
  - rewrite (take_S_r _ _ chosen)
      by (apply list_lookup_insert_eq; lia).
    rewrite take_insert_ge by lia.
    rewrite <- Hperm, <- app_assoc. apply Permutation_app_head. simpl.
    symmetry. by apply delete_Permutation.
Qed.

(** One iteration of the selection loop on a P x P covariance returns,
    unless the solver raises. *)
Lemma select_next_cases (means : list float) (variances : list (list float))
    (n P first i : nat) (st : loop_state) :
  length means = P ->
  square P variances ->
  (n <= P)%nat ->
  (1 <= i < n)%nat ->
  selection_invariant n P first i st ->
  (exists st', select_next means variances i st = Ok st'
               /\ selection_invariant n P first (S i) st')
  \/ (select_next means variances i st = Err LinAlgError
      /\ solver_fails lstsq means variances).
Proof.
  intros Hm Hv HnP Hi Hinv.
  pose proof Hinv as (Hlsel & Hlsc & Hfirst & Hperm).
  assert (Forall (fun j => j < P)%nat
            (take i (selected_features st) ++ indexes st)) as Hall.
  { rewrite Hperm. apply Forall_forall. intros j Hj.
    apply elem_of_seq in Hj. lia. }
  apply Forall_app in Hall as [Htake Hidx].
  assert (length (take i (selected_features st) ++ indexes st) = P) as Hlen
    by (by rewrite Hperm, length_seq).
  rewrite length_app, length_take in Hlen.
  destruct (select_next means variances i st) as [st'|e] eqn:Hstep.
  { left. exists st'. split; [done|]. by eapply select_next_inv. }
  right. revert Hstep. unfold RKVS.select_next.
  destruct (mapM_cases
              (candidate_score means variances
                 (take i (selected_features st)))
              (indexes st) LinAlgError (solver_fails lstsq means variances))
    as [(aux & Haux & Hlaux)|[Haux Hfail]].
  { intros c Hc. rewrite Forall_forall in Hidx.
    by apply (candidate_score_cases means variances _ c P); auto. }
  2: { rewrite Haux. simpl. by intros [= <-]. }
  rewrite Haux. simpl.
  destruct (np_argmax_ok aux) as (aux2 & Harg & Hlt).
  { intros ->. simpl in Hlaux. lia. }
  rewrite Harg. simpl.
  destruct (getitem_ok "indexes" (indexes st) aux2) as (chosen & Hch & Hlk);
    [lia|].
  destruct (getitem_ok "aux" aux aux2) as (best & Hbest & _); [lia|].
  rewrite Hch, Hbest. simpl.
  unfold np_delete. rewrite decide_True by lia. done.
Qed.

(** On a 1 x 1 covariance, the selection of a second point raises: the
    indices of two distinct points are not both 0. *)
Lemma submatrix_one_by_one (name : string) (v : float) (i j : nat) :
  i <> j -> submatrix name [[v]] [i; j] = Err (IndexError name).
Proof.
  intros Hij. destruct i as [|i]; [|done]. by destruct j as [|j].
Qed.

Lemma candidate_score_one_by_one (means : list float) (v : float)
    (first c : nat) :
  (first < length means)%nat -> (c < length means)%nat -> c <> first ->
  candidate_score means [[v]] [first] c = Err (IndexError "variances").
Proof.
  intros Hfirst Hc Hne. unfold RKVS.candidate_score. simpl app.
  destruct (take_indices_ok "means" means [first; c]) as (nm & Hnm & _).
  { by repeat constructor. }
  rewrite Hnm. simpl.
  by rewrite submatrix_one_by_one.
Qed.

(** The block that computes the means and the covariance: it raises for
    labels that are not one per row, and for no labels at all; the
    covariance is 1 x 1 when each class holds one sample and P x P
    otherwise. *)
Lemma means_and_variances_cases (X : ndarray) (Y : list Z) :
  (exists means variances,
     means_and_variances X Y = Ok (means, variances) /\
     length Y = shape0 X /\ Y <> [] /\
     length means = shape1 X /\
     (one_sample_per_class X Y -> exists v, variances = [[v]]) /\
     (~ one_sample_per_class X Y -> square (shape1 X) variances))
  \/ (means_and_variances X Y = Err (IndexError "X")
      /\ length Y <> shape0 X)
  \/ (means_and_variances X Y = Err ZeroDivisionError /\ Y = []).
Proof.
  unfold means_and_variances, mask_rows. rewrite !length_map.
  destruct (decide (length Y = shape0 X)) as [Hlen|Hlen];
    cbn [mbind res_bind].
  2: { right. by left. }
  case_decide as HY; cbn [mbind res_bind].
  { right. right. split; [done|]. by apply nil_length_inv. }
  left.
  set (c1 := mkArray _ _ (select (map (Z.eqb 1) Y) (rows X))).
  set (c0 := mkArray _ _ (select (map (Z.eqb 0) Y) (rows X))).
  destruct (pooled_covariance_cases
              (fdiv (of_Z (py_sum Y)) (of_nat (length Y)))
              (fdiv (of_Z (Z.of_nat (length Y) - py_sum Y))
                    (of_nat (length Y)))
              c1 c0 (shape1 X))
    as (variances & HV & Hone & Hsq); [done..|].
  rewrite HV. cbn [mbind res_bind]. eexists _, variances.
  split; [reflexivity|].
  split; [done|]. split; [by intros ->|].
  split; [by apply class_means_length|]. done.
Qed.

(** What a call of [_rkhs_vs] that returns has computed. *)
Lemma _rkhs_vs_returned (X : ndarray) (Y : list Z) (n_components : Z)
    (sel : list nat) (sc : list float) :
  _rkhs_vs X Y n_components = Ok (sel, sc) ->
  (1 <= n_components <= Z.of_nat (shape1 X))%Z /\
  exists means variances mu_sigma first rest,
    means_and_variances X Y = Ok (means, variances) /\
    mu_sigma_of sqrtQ means variances = Ok mu_sigma /\
    np_argmax mu_sigma = Ok first /\
    sel !! 0%nat = Some first /\
    length sel = Z.to_nat n_components /\
    length sc = Z.to_nat n_components /\
    sel ++ rest ≡ₚ seq 0 (shape1 X).
Proof.
  unfold RKVS._rkhs_vs, py_assert.
  destruct (1 <=? n_components)%Z eqn:E1; simpl; [|done].
  destruct (n_components <=? Z.of_nat (shape1 X))%Z eqn:E2; simpl; [|done].
  apply Z.leb_le in E1, E2.
  set (n := Z.to_nat n_components). set (P := shape1 X).
  assert (1 <= n <= P)%nat as HnP by lia.
  destruct (means_and_variances X Y) as [[means variances]|] eqn:Hstats;
    simpl; [|done].
  destruct (mu_sigma_of sqrtQ means variances) as [mu_sigma|] eqn:Hmu;
    simpl; [|done].
  destruct (np_argmax mu_sigma) as [first|] eqn:Harg; simpl; [|done].
  destruct (getitem "mu_sigma" mu_sigma first) as [fs|]; simpl; [|done].
  unfold np_delete. rewrite length_seq. case_decide as Hfirst; simpl; [|done].
  destruct (for_each _ _ _) as [st|] eqn:Hrun; simpl; [|done].
  intros [= <- <-]. split; [lia|].
  apply (for_each_seq_inv _ (selection_invariant n P first)) in Hrun.
  - destruct Hrun as (Hlsel & Hlsc & Hlk & Hperm).
    replace (1 + (n - 1))%nat with n in Hperm by lia.
    rewrite firstn_all2 in Hperm by lia.
    exists means, variances, mu_sigma, first, (indexes st). done.
  - unfold selection_invariant. simpl.
    rewrite !length_insert, !length_replicate.
    split; [done|]. split; [done|]. split.
    + apply list_lookup_insert_eq. rewrite length_replicate. lia.
    + destruct n as [|n']; [lia|]. simpl.
      symmetry. apply delete_Permutation. by apply lookup_seq_lt.
  - intros j t t' Hj Hinv Hstep.
    apply (select_next_inv means variances n P first j t t'); [lia|done..].
Qed.

(** With two components or more, the second selection scores the first
    of the remaining points; when this raises, the call raises. *)
Lemma _rkhs_vs_second_point (X : ndarray) (Y : list Z) (n_components : Z)
    (means : list float) (variances : list (list float)) (e : exn) :
  (2 <= n_components <= Z.of_nat (shape1 X))%Z ->
  means_and_variances X Y = Ok (means, variances) ->
  (forall first c,
     (first < shape1 X)%nat -> (c < shape1 X)%nat -> c <> first ->
     candidate_score means variances [first] c = Err e) ->
  _rkhs_vs X Y n_components = Err e.
Proof.
  intros Hn Hstats Hscore.
  destruct (means_and_variances_cases X Y)
    as [(means' & variances' & Hstats' & _ & _ & Hm & Hone & Hsq)
       |[[Hstats' _]|[Hstats' _]]]; rewrite Hstats in Hstats'; [|done..].
  injection Hstats' as <- <-.
  unfold RKVS._rkhs_vs, py_assert.
  replace (1 <=? n_components)%Z with true by (symmetry; apply Z.leb_le; lia).
  replace (n_components <=? Z.of_nat (shape1 X))%Z with true
    by (symmetry; apply Z.leb_le; lia).
  simpl. rewrite Hstats. simpl.
  set (n := Z.to_nat n_components). set (P := shape1 X) in *.
  assert (2 <= n <= P)%nat as HnP by lia.
  assert (square P variances \/ exists v, variances = [[v]]) as Hshape.
  { destruct (decide (length (class_rows X Y 1) = 1%nat
                      /\ length (class_rows X Y 0) = 1%nat)) as [H|H];
      [right; by apply Hone | left; by apply Hsq]. }
  destruct (mu_sigma_of_ok means variances P Hm Hshape)
    as (mu_sigma & Hmu & Hlmu).
  rewrite Hmu. simpl.
  destruct (np_argmax_ok mu_sigma) as (first & Harg & Hlt).
  { intros ->. simpl in Hlmu. lia. }
  rewrite Hlmu in Hlt. rewrite Harg. simpl.
  destruct (getitem_ok "mu_sigma" mu_sigma first) as (fs & Hfs & _); [lia|].
  rewrite Hfs. simpl.
  unfold np_delete. rewrite decide_True by (rewrite length_seq; lia). simpl.
  destruct n as [|[|m]] eqn:En; [lia..|].
  assert (exists c rest, delete first (seq 0 P) = c :: rest
                         /\ c <> first /\ (c < P)%nat)
    as (c & rest & -> & Hc & HcP).
  { destruct (delete first (seq 0 P)) as [|c rest] eqn:Hdel.
    - apply (f_equal length) in Hdel.
      rewrite length_delete, length_seq in Hdel
        by (rewrite lookup_seq_lt by done; eauto).
      simpl in Hdel. lia.
    - exists c, rest. split; [done|].
      assert (c ∈ filter (fun t => t <> first) (seq 0 P)) as Hin.
      { rewrite <- (delete_filter_ne (seq 0 P) first first);
          [rewrite Hdel; by left | apply NoDup_seq | by apply lookup_seq_lt]. }
      apply list_elem_of_filter in Hin as [Hne Hin].
      apply elem_of_seq in Hin. split; [done|lia]. }
  change (seq 1 (S (S m) - 1)) with (1%nat :: seq 2 m).
  change (<[0%nat:=first]> (replicate (S (S m)) 0%nat))
    with (first :: replicate (S m) 0%nat).
  rewrite for_each_cons.
  match goal with
  | |- context [RKVS.select_next lstsq means variances 1 ?st] =>
    assert (select_next means variances 1 st = Err e) as ->; [|done]
  end.
  unfold RKVS.select_next. cbn [indexes selected_features].
  change (take 1 (first :: replicate (S m) 0%nat)) with [first].
  rewrite mapM_cons, Hscore by done. done.
Qed.

(** The runs of [_rkhs_vs] once its two assertions hold. *)
Lemma _rkhs_vs_cases (X : ndarray) (Y : list Z) (n_components : Z) :
  (1 <= n_components <= Z.of_nat (shape1 X))%Z ->
  (exists sel sc, _rkhs_vs X Y n_components = Ok (sel, sc))
  \/ (_rkhs_vs X Y n_components = Err LinAlgError /\
      exists means variances,
        means_and_variances X Y = Ok (means, variances) /\
        solver_fails lstsq means variances)
  \/ (_rkhs_vs X Y n_components = Err (IndexError "X")
      /\ length Y <> shape0 X)
  \/ (_rkhs_vs X Y n_components = Err ZeroDivisionError /\ Y = [])
  \/ (_rkhs_vs X Y n_components = Err (IndexError "variances")
      /\ length Y = shape0 X /\ one_sample_per_class X Y
      /\ (2 <= shape1 X)%nat /\ (2 <= n_components)%Z).
Proof.
  intros Hn.
  set (n := Z.to_nat n_components). set (P := shape1 X).
  assert (1 <= n <= P)%nat as HnP by lia.
  destruct (means_and_variances_cases X Y)
    as [(means & variances & Hstats & HlenY & _ & Hm & Hone & Hsq)
       |[[Hstats HY]|[Hstats HY]]].
  2, 3: unfold RKVS._rkhs_vs, py_assert;
    replace (1 <=? n_components)%Z with true
      by (symmetry; apply Z.leb_le; lia);
    replace (n_components <=? Z.of_nat (shape1 X))%Z with true
      by (symmetry; apply Z.leb_le; lia);
    simpl; rewrite Hstats; simpl; tauto.
  destruct (decide (one_sample_per_class X Y /\ (2 <= P)%nat /\ (2 <= n)%nat))
    as [(Hboth & HP & Hn2)|Hregular].
  { do 4 right. split; [|split; [done|]; split; [done|]; split; [done|lia]].
    destruct (Hone Hboth) as [v ->].
    apply (_rkhs_vs_second_point X Y n_components means [[v]]);
      [lia|done|].
    intros first c Hfirst Hc Hne.
    apply candidate_score_one_by_one; [lia..|done]. }
  unfold RKVS._rkhs_vs, py_assert.
  replace (1 <=? n_components)%Z with true by (symmetry; apply Z.leb_le; lia).
  replace (n_components <=? Z.of_nat (shape1 X))%Z with true
    by (symmetry; apply Z.leb_le; lia).
  simpl. rewrite Hstats. simpl. fold n. fold P.
  assert (square P variances \/ exists v, variances = [[v]]) as Hshape.
  { destruct (decide (length (class_rows X Y 1) = 1%nat
                      /\ length (class_rows X Y 0) = 1%nat)) as [H|H];
      [right; by apply Hone | left; by apply Hsq]. }
  destruct (mu_sigma_of_ok means variances P Hm Hshape)
    as (mu_sigma & Hmu & Hlmu).
  rewrite Hmu. simpl.
  destruct (np_argmax_ok mu_sigma) as (first & Harg & Hlt).
  { intros ->. simpl in Hlmu. lia. }
  rewrite Hlmu in Hlt. rewrite Harg. simpl.
  destruct (getitem_ok "mu_sigma" mu_sigma first) as (fs & Hfs & _); [lia|].
  rewrite Hfs. simpl.
  unfold np_delete. rewrite decide_True by (rewrite length_seq; lia). simpl.
  destruct (for_each_seq (select_next means variances)
              (selection_invariant n P first) LinAlgError
              (solver_fails lstsq means variances) (n - 1) 1
              (mkLoop (<[0%nat:=first]> (replicate n 0%nat))
                      (<[0%nat:=fs]> (replicate n (Fin 0)))
                      (delete first (seq 0 P))))
    as [(st & Hst & Hinv)|[Hst Hfail]].
  - unfold selection_invariant. simpl.
    rewrite !length_insert, !length_replicate.
    split; [done|]. split; [done|]. split.
    + apply list_lookup_insert_eq. rewrite length_replicate. lia.
    + destruct n as [|n']; [lia|]. simpl.
      symmetry. apply delete_Permutation. by apply lookup_seq_lt.
  - intros j s Hj Hinv.
    assert (square P variances) as Hsquare.
    { destruct (decide (one_sample_per_class X Y)) as [Hboth|Hboth];
        [|by apply Hsq].
      destruct (Hone Hboth) as [v ->].
      destruct (decide (P = 1%nat)) as [->|HP1]; [apply square_one; eauto|].
      exfalso. apply Hregular. split; [done|]. lia. }
    apply (select_next_cases means variances n P first j s); auto; lia.
  - left. rewrite Hst. simpl. eauto.
  - right. left. rewrite Hst. split; [done|]. by exists means, variances.
Qed.



(** The features that [_rkhs_vs] returns are distinct points, and all the
    points when as many were asked for. *)
Lemma _rkhs_vs_distinct (X : ndarray) (Y : list Z) (n_components : Z)
    (sel : list nat) (sc : list float) :
  _rkhs_vs X Y n_components = Ok (sel, sc) ->
  (1 <= n_components <= Z.of_nat (shape1 X))%Z /\
  length sel = Z.to_nat n_components /\
  length sc = Z.to_nat n_components /\
  NoDup sel /\
  Forall (fun t => t < shape1 X)%nat sel /\
  (n_components = Z.of_nat (shape1 X) -> sel ≡ₚ seq 0 (shape1 X)).
Proof.
  intros Hok.
  apply _rkhs_vs_returned in Hok
    as (Hn & means & variances & mu_sigma & first & rest & _ & _ & _ & _
        & Hlsel & Hlsc & Hperm).
  do 3 (split; [done|]).
  assert (NoDup (sel ++ rest)) as Hnd by (rewrite Hperm; apply NoDup_seq).
  assert (Forall (fun t => t < shape1 X)%nat (sel ++ rest)) as Hall.
  { rewrite Hperm. apply Forall_forall. intros t Ht.
    apply elem_of_seq in Ht. lia. }
  split; [by apply NoDup_app in Hnd as [? _]|].
  split; [by apply Forall_app in Hall as [? _]|].
  intros ->. rewrite Nat2Z.id in Hlsel.
  assert (rest = []) as ->.
  { apply nil_length_inv. apply Permutation_length in Hperm.
    rewrite length_app, length_seq in Hperm. lia. }
  by rewrite app_nil_r in Hperm.
Qed.

(** A solver that returns on finite systems returns on every system drawn
    from finite means and covariances. *)
Lemma solver_returns_on_statistics (means : list float)
    (variances : list (list float)) :
  solver_total_on_finite lstsq ->
  finite_statistics means variances ->
  ~ solver_fails lstsq means variances.
Proof.
  intros Hsolver [Hms Hvs] (a & b & [Hb Ha] & Hfail).
  rewrite Forall_forall in Hms. rewrite Forall_forall in Hvs.
  destruct (Hsolver a b) as [sol Hsol]; [| |congruence].
  - eapply Forall_impl; [exact Ha|]. intros row Hrow. simpl in Hrow.
    eapply Forall_impl; [exact Hrow|]. intros z (r & Hr & Hz). simpl.
    specialize (Hvs r Hr). rewrite Forall_forall in Hvs. by apply Hvs.
  - eapply Forall_impl; [exact Hb|]. intros z Hz. by apply Hms.
Qed.

(** [_rkhs_vs] returns when its means and covariances are finite, the
    covariance is P x P or a single component is asked for, and the solver
    returns on finite systems. *)
Lemma _rkhs_vs_returns (X : ndarray) (Y : list Z) (n_components : Z)
    (means : list float) (variances : list (list float)) :
  (1 <= n_components <= Z.of_nat (shape1 X))%Z ->
  means_and_variances X Y = Ok (means, variances) ->
  finite_statistics means variances ->
  n_components = 1%Z \/ shape1 X = 1%nat \/ ~ one_sample_per_class X Y ->
  solver_total_on_finite lstsq ->
  exists sel sc, _rkhs_vs X Y n_components = Ok (sel, sc).
Proof.
  intros Hn Hstats Hfin Hshape Hsolver.
  destruct (means_and_variances_cases X Y)
    as [(means' & variances' & Hstats' & HlenY & HY & _)
       |[[Hstats' _]|[Hstats' _]]]; rewrite Hstats in Hstats'; [|done..].
  destruct (_rkhs_vs_cases X Y n_components Hn)
    as [Hok|[[_ (ms & vs & Hms & Hfail)]|[[_ H]|[[_ H]|[_ H]]]]];
    [done| |done..|].
  - rewrite Hstats in Hms. injection Hms as <- <-.
    by apply solver_returns_on_statistics in Hfail.
  - destruct H as (_ & Hboth & HP & Hn2).
    destruct Hshape as [->|[HP1|Hnot]]; [lia|lia|done].
Qed.









(** *** The first feature when the labels are 0 and 1 *)

Lemma py_sum_acc (Y : list Z) (acc : Z) :
  foldl Z.add acc Y = (acc + foldl Z.add 0 Y)%Z.
Proof.
  revert acc. induction Y as [|l Y IH]; intros acc; simpl; [lia|].
  rewrite (IH (acc + l)%Z), (IH (0 + l)%Z). lia.
Qed.

Lemma py_sum_binary (Y : list Z) :
  Forall (fun l => l = 0 \/ l = 1)%Z Y ->
  py_sum Y = Z.of_nat (class_count Y 1) /\
  (Z.of_nat (length Y) - py_sum Y)%Z = Z.of_nat (class_count Y 0).
Proof.
  unfold py_sum, class_count. induction 1 as [|l Y Hl _ [IH1 IH0]]; [done|].
  simpl foldl. rewrite py_sum_acc, !filter_cons. simpl length.
  destruct Hl as [->| ->].
  - rewrite decide_False, decide_True by done. simpl length. lia.
  - rewrite decide_True, decide_False by done. simpl length. lia.
Qed.

Lemma label_lo_binary (Y : list Z) : binary_labels Y -> label_lo Y = 0%Z.
Proof.
  intros (Hall & H0 & _). unfold label_lo.
  assert (0 <= hd 0 Y)%Z as Hhd.
  { destruct Hall as [|l ? [->| ->] _]; simpl; lia. }
  revert Hhd. generalize (hd 0%Z Y). intros d Hd.
  assert (0 <= foldr Z.min d Y)%Z as Hge.
  { clear H0. induction Hall as [|l Y [->| ->] _ IH]; simpl; lia. }
  assert (foldr Z.min d Y <= 0)%Z as Hle.
  { clear Hge Hall. induction Y as [|l Y IH]; [by apply elem_of_nil in H0|].
    apply elem_of_cons in H0 as [<-|H0]; simpl; [lia|].
    specialize (IH H0). lia. }
  lia.
Qed.

Lemma label_hi_binary (Y : list Z) : binary_labels Y -> label_hi Y = 1%Z.
Proof.
  intros (Hall & _ & H1). unfold label_hi.
  assert (hd 0 Y <= 1)%Z as Hhd.
  { destruct Hall as [|l ? [->| ->] _]; simpl; lia. }
  revert Hhd. generalize (hd 0%Z Y). intros d Hd.
  assert (foldr Z.max d Y <= 1)%Z as Hle.
  { clear H1. induction Hall as [|l Y [->| ->] _ IH]; simpl; lia. }
  assert (1 <= foldr Z.max d Y)%Z as Hge.
  { clear Hle Hall. induction Y as [|l Y IH]; [by apply elem_of_nil in H1|].
    apply elem_of_cons in H1 as [<-|H1]; simpl; [lia|].
    specialize (IH H1). lia. }
  lia.
Qed.

(** With labels 0 and 1 and no class of one sample, the scores [_rkhs_vs]
    ranks for its first feature are |mean_diff(t)| / sqrt(variance(t)). *)
Lemma mu_sigma_binary (X : ndarray) (Y : list Z)
    (means : list float) (variances : list (list float)) :
  binary_labels Y ->
  length (class_rows X Y 1) <> 1%nat ->
  length (class_rows X Y 0) <> 1%nat ->
  means_and_variances X Y = Ok (means, variances) ->
  mu_sigma_of sqrtQ means variances = Ok (univariate_scores sqrtQ X Y).
Proof.
  intros Hbin Hrows1 Hrows0. pose proof Hbin as (Hall & _ & _).
  destruct (py_sum_binary Y Hall) as [Hsum1 Hsum0].
  unfold means_and_variances, mask_rows. rewrite !length_map.
  destruct (decide (length Y = shape0 X)) as [Hlen|Hlen];
    cbn [mbind res_bind]; [|done].
  destruct (decide (length Y = 0%nat)) as [HY|HY];
    cbn [mbind res_bind]; [done|].
  rewrite Hsum0, Hsum1.
  set (c1 := mkArray _ _ (select (map (Z.eqb 1) Y) (rows X))).
  set (c0 := mkArray _ _ (select (map (Z.eqb 0) Y) (rows X))).
  set (p1 := fdiv (of_Z (Z.of_nat (class_count Y 1))) (of_nat (length Y))).
  set (p0 := fdiv (of_Z (Z.of_nat (class_count Y 0))) (of_nat (length Y))).
  pose proof (np_cov_square c1 Hrows1) as Hsq1.
  pose proof (np_cov_square c0 Hrows0) as Hsq0.
  change (shape1 c1) with (shape1 X) in Hsq1.
  change (shape1 c0) with (shape1 X) in Hsq0.
  destruct (np_add_2d_square (shape1 X) (map (map (fmul p1)) (np_cov c1))
              (map (map (fmul p0)) (np_cov c0)))
    as [HV [HlV _]]; [by apply square_fmap..|].
  unfold pooled_covariance. rewrite HV. cbn [mbind res_bind].
  intros [= <- <-].
  unfold mu_sigma_of. rewrite np_divide_same_length.
  2: { unfold np_diag. rewrite !length_map, length_imap, HlV.
       by apply class_means_length. }
  f_equal. apply list_eq. intros t.
  unfold univariate_scores.
  rewrite lookup_zip_with, !list_lookup_fmap.
  destruct (decide (t < shape1 X)%nat) as [Ht|Ht].
  - rewrite lookup_seq_lt by done. simpl.
    unfold class_means. rewrite lookup_zip_with.
    rewrite (np_mean0_lookup c1 t Ht), (np_mean0_lookup c0 t Ht). simpl.
    unfold np_diag. rewrite list_lookup_imap.
    rewrite lookup_zip_with, !list_lookup_fmap.
    destruct (np_cov_diag c1 t Hrows1 Ht) as (r1 & Hr1 & Hd1).
    destruct (np_cov_diag c0 t Hrows0 Ht) as (r0 & Hr0 & Hd0).
    rewrite Hr1, Hr0. simpl.
    erewrite nth_lookup_Some.
    2: { rewrite lookup_zip_with, !list_lookup_fmap, Hd1, Hd0. reflexivity. }
    unfold mean_diff, variance, class_rows, mean_at, class_proportion.
    rewrite (label_hi_binary Y Hbin), (label_lo_binary Y Hbin).
    reflexivity.
  - rewrite lookup_seq_ge by lia. simpl.
    rewrite (lookup_ge_None_2 (class_means c1 c0)); [done|].
    rewrite (class_means_length c1 c0 (shape1 X)) by done. lia.
Qed.

(** For a sample labelled 0 and 1 in which no class holds exactly one
    sample, and whose scores |mean_diff(t)| / sqrt(variance(t)) are
    numbers: whenever [_rkhs_vs] returns, its first feature is the first
    point at which the score is maximal; and with [n_components = 1] it
    returns this point and its score, without a call of the solver. *)
Theorem first_feature_is_argmax (X : ndarray) (Y : list Z) :
  binary_labels Y ->
  length (class_rows X Y 1) <> 1%nat ->
  length (class_rows X Y 0) <> 1%nat ->
  Forall (fun s => isnan s = false) (univariate_scores sqrtQ X Y) ->
  (forall n_components selected_features score,
     _rkhs_vs X Y n_components = Ok (selected_features, score) ->
     exists first,
       selected_features !! 0%nat = Some first /\
       first_argmax (univariate_scores sqrtQ X Y) first)
  /\ (length Y = shape0 X ->
      (1 <= shape1 X)%nat ->
      exists first score,
        _rkhs_vs X Y 1 = Ok ([first], [score]) /\
        first_argmax (univariate_scores sqrtQ X Y) first /\
        univariate_scores sqrtQ X Y !! first = Some score).
Proof.
  intros Hbin Hrows1 Hrows0 Hnan. split.
  - intros n sel sc Hok.
    apply _rkhs_vs_returned in Hok
      as (_ & means & variances & mu_sigma & first & rest & Hstats & Hmu
          & Harg & Hfirst & _).
    rewrite (mu_sigma_binary X Y means variances Hbin Hrows1 Hrows0 Hstats)
      in Hmu.
    injection Hmu as <-. exists first. split; [done|].
    by apply np_argmax_first.
  - intros Hlen HP.
    destruct (means_and_variances_cases X Y)
      as [(means & variances & Hstats & _)|[[_ H]|[_ ->]]]; [|done|].
    2: { destruct Hbin as (_ & H0 & _). by apply elem_of_nil in H0. }
    pose proof (mu_sigma_binary X Y means variances Hbin Hrows1 Hrows0
                  Hstats) as Hmu.
    assert (length (univariate_scores sqrtQ X Y) = shape1 X) as Hlmu.
    { unfold univariate_scores. by rewrite length_map, length_seq. }
    destruct (np_argmax_ok (univariate_scores sqrtQ X Y))
      as (first & Harg & Hlt).
    { intros E. rewrite E in Hlmu. simpl in Hlmu. lia. }
    destruct (getitem_ok "mu_sigma" (univariate_scores sqrtQ X Y) first Hlt)
      as (fs & Hfs & Hlk).
    exists first, fs. split; [|split; [by apply np_argmax_first|done]].
    unfold RKVS._rkhs_vs, py_assert.
    replace (1 <=? 1)%Z with true by done.
    replace (1 <=? Z.of_nat (shape1 X))%Z with true
      by (symmetry; apply Z.leb_le; lia).
    cbn [mbind res_bind]. rewrite Hstats. cbn [mbind res_bind fst snd].
    rewrite Hmu. cbn [mbind res_bind]. rewrite Harg. cbn [mbind res_bind].
    rewrite Hfs. cbn [mbind res_bind].
    unfold np_delete. cbn [indexes selected_features score].
    rewrite decide_True by (rewrite length_seq; lia).
    reflexivity.
Qed.

(** *** Finite systems *)

(** When the class means and the pooled covariance that [_rkhs_vs]
    computes are finite, and the covariance is P x P or a single component
    is asked for, every system that [_rkhs_vs] submits to the solver is
    finite: with a solver that returns on finite systems, the selection of
    [n_components] features among P points returns that many distinct
    points, and all of them when [n_components = P]. *)
Theorem _rkhs_vs_returns_on_finite_statistics (X : ndarray) (Y : list Z)
    (n_components : Z) (means : list float) (variances : list (list float)) :
  solver_total_on_finite lstsq ->
  means_and_variances X Y = Ok (means, variances) ->
  finite_statistics means variances ->
  n_components = 1%Z \/ shape1 X = 1%nat \/ ~ one_sample_per_class X Y ->
  (1 <= n_components <= Z.of_nat (shape1 X))%Z ->
  exists selected_features score,
    _rkhs_vs X Y n_components = Ok (selected_features, score) /\
    length selected_features = Z.to_nat n_components /\
    length score = Z.to_nat n_components /\
    NoDup selected_features /\
    Forall (fun t => t < shape1 X)%nat selected_features /\
    (n_components = Z.of_nat (shape1 X) ->
     selected_features ≡ₚ seq 0 (shape1 X)).
Proof.
  intros Hsolver Hstats Hfin Hshape Hn.
  destruct (_rkhs_vs_returns X Y n_components means variances)
    as (sel & sc & Hok); [done..|].
  exists sel, sc. split; [done|].
  by apply _rkhs_vs_distinct in Hok as (_ & ? & ? & ? & ? & ?).
Qed.

End Selection.

(** *** Runs on the sample inputs *)

Lemma lstsq_gauss_total : solver_total_on_finite Kernels.lstsq_gauss.
Proof.
  intros a b Ha _. unfold Kernels.lstsq_gauss.
  replace (forallb (forallb isfinite) a) with true; [eauto|].
  symmetry. apply forallb_forall. intros r Hr. apply forallb_forall.
  intros x Hx. rewrite Forall_forall in Ha.
  specialize (Ha r (proj2 (list_elem_of_In a r) Hr)).
  rewrite Forall_forall in Ha. apply Ha. by apply list_elem_of_In.
Qed.


(** C4 fails on a sample whose two labels are 1 and 2: [fit] accepts it,
    finds no row labelled 0, ranks an array of [nan] and selects the point
    0, whereas |mean_diff| / sqrt(variance) is maximal at the point 1,
    which is the point selected when the same classes are labelled 0 and
    1. *)
Lemma fit_with_labels_1_and_2 :
  (forall sqrtQ lstsq,
     RKVS.fit sqrtQ lstsq (RKVS.__init__ None) Examples.two_class_batch
              [1; 1; 2; 2]%Z
     = (mkSelector 1 (Some 2%nat) (Some [0%nat]) (Some [NaN]), Ok tt))
  /\ first_argmax
       (univariate_scores Kernels.sqrt_floor
          (to_ndarray Examples.two_class_batch) [1; 1; 2; 2]%Z) 1
  /\ _features_
       (RKVS.fit Kernels.sqrt_floor Kernels.lstsq_gauss (RKVS.__init__ None)
                 Examples.two_class_batch [0; 0; 1; 1]%Z).1
     = Some [1%nat].
Proof.
  split; [|split].
  - intros sqrtQ lstsq. vm_compute. reflexivity.
  - remember (univariate_scores _ _ _) as scores eqn:E.
    vm_compute in E. subst scores.
    eexists. split; [reflexivity|]. split.
    + intros [|[|j]] w Hw; [| |done]; injection Hw as <-; vm_compute;
        reflexivity.
    + intros [|j] w Hj Hw; [|lia]. injection Hw as <-. vm_compute.
      reflexivity.
  - vm_compute. reflexivity.
Qed.

(** The statistics of the three-point sample are finite. *)
Lemma three_point_sample_statistics :
  exists means variances,
    means_and_variances Examples.three_point_sample [0; 0; 1; 1]%Z
    = Ok (means, variances) /\
    finite_statistics means variances.
Proof.
  eexists _, _. split; [vm_compute; reflexivity|].
  split; repeat constructor.
Qed.

Lemma three_point_sample_classes :
  ~ one_sample_per_class Examples.three_point_sample [0; 0; 1; 1]%Z.
Proof. intros [H _]. vm_compute in H. discriminate. Qed.






Lemma three_point_sample_labels : binary_labels [0; 0; 1; 1]%Z.
Proof.
  split; [|split].
  - repeat (constructor; [lia|]). constructor.
  - rewrite !elem_of_cons. lia.
  - rewrite !elem_of_cons. lia.
Qed.

(** An instance of the first feature on labels 0 and 1. *)
Lemma first_feature_is_argmax_witness :
  (forall n_components selected_features score,
     RKVS._rkhs_vs Kernels.sqrt_floor Kernels.lstsq_gauss
       Examples.three_point_sample [0; 0; 1; 1]%Z n_components
     = Ok (selected_features, score) ->
     exists first,
       selected_features !! 0%nat = Some first /\
       first_argmax
         (univariate_scores Kernels.sqrt_floor Examples.three_point_sample
                            [0; 0; 1; 1]%Z) first)
  /\ exists first score,
       RKVS._rkhs_vs Kernels.sqrt_floor Kernels.lstsq_gauss
         Examples.three_point_sample [0; 0; 1; 1]%Z 1
       = Ok ([first], [score]) /\
       first_argmax
         (univariate_scores Kernels.sqrt_floor Examples.three_point_sample
                            [0; 0; 1; 1]%Z) first /\
       univariate_scores Kernels.sqrt_floor Examples.three_point_sample
                         [0; 0; 1; 1]%Z !! first = Some score.
Proof.
  destruct (first_feature_is_argmax Kernels.sqrt_floor Kernels.lstsq_gauss
              Examples.three_point_sample [0; 0; 1; 1]%Z)
    as [Hfirst Hone].
  - exact three_point_sample_labels.
  - vm_compute. discriminate.
  - vm_compute. discriminate.
  - vm_compute. repeat constructor.
  - split; [exact Hfirst|]. apply Hone; [reflexivity|]. vm_compute. lia.
Defined.

(** The hypothesis on the classes is needed.  When the class 1 holds a
    single curve, NumPy 1.x takes for its covariance the variance of the
    values of this curve over the points: here the first feature is the
    point 1, and |mean_diff| / sqrt(variance) is maximal at the point 0. *)
Lemma first_feature_with_a_lone_curve :
  (exists score,
     RKVS._rkhs_vs Kernels.sqrt_floor Kernels.lstsq_gauss
       Examples.lone_curve_sample [0; 0; 1]%Z 1 = Ok ([1%nat], [score]))
  /\ first_argmax
       (univariate_scores Kernels.sqrt_floor Examples.lone_curve_sample
                          [0; 0; 1]%Z) 0.
Proof.
  split.
  - eexists. vm_compute. reflexivity.
  - remember (univariate_scores _ _ _) as scores eqn:E.
    vm_compute in E. subst scores.
    eexists. split; [reflexivity|]. split.
    + intros [|[|j]] w Hw; [| |done]; injection Hw as <-; vm_compute;
        reflexivity.
    + intros j w Hj. lia.
Qed.

(** An instance of the selection on finite statistics. *)
Lemma _rkhs_vs_returns_on_finite_statistics_witness :
  exists selected_features score,
    RKVS._rkhs_vs Kernels.sqrt_floor Kernels.lstsq_gauss
      Examples.three_point_sample [0; 0; 1; 1]%Z 2
    = Ok (selected_features, score) /\
    length selected_features = 2%nat /\
    length score = 2%nat /\
    NoDup selected_features /\
    Forall (fun t => t < 3)%nat selected_features /\
    (2%Z = 3%Z -> selected_features ≡ₚ seq 0 3).
Proof.
  destruct three_point_sample_statistics as (means & variances & Hstats & Hfin).
  apply (_rkhs_vs_returns_on_finite_statistics Kernels.sqrt_floor
           Kernels.lstsq_gauss Examples.three_point_sample
           [0; 0; 1; 1]%Z 2 means variances).
  - exact lstsq_gauss_total.
  - exact Hstats.
  - exact Hfin.
  - right. right. exact three_point_sample_classes.
  - vm_compute. split; discriminate.
Defined.

(** *** The estimator after [fit], and the greedy steps *)

Section Estimator.

Variable sqrtQ : Q -> Q.
Variable lstsq : list (list float) -> list float -> option (list float).

Local Abbreviation _rkhs_vs := (_rkhs_vs sqrtQ lstsq).
Local Abbreviation fit := (fit sqrtQ lstsq).
Local Abbreviation select_next := (select_next lstsq).
Local Abbreviation candidate_score := (candidate_score lstsq).

(** What [_rkhs_vs] returns: as many features and scores as asked for,
    the features distinct indices of points. *)
Lemma _rkhs_vs_ok_inv (X : ndarray) (Y : list Z) (n_components : Z)
    (sel : list nat) (sc : list float) :
  _rkhs_vs X Y n_components = Ok (sel, sc) ->
  (1 <= n_components <= Z.of_nat (shape1 X))%Z /\
  length sel = Z.to_nat n_components /\
  length sc = Z.to_nat n_components /\
  NoDup sel /\
  Forall (fun t => t < shape1 X)%nat sel.
Proof.
  intros Hok.
  by apply _rkhs_vs_distinct in Hok as (? & ? & ? & ? & ? & _).
Qed.

(** A fit that returns went through every check and stored the selection. *)
Lemma fit_ok_inv (self self' : RKHSVariableSelection) (X : FDataGrid)
    (y : list Z) :
  fit self X y = (self', Ok tt) ->
  n_unique y = 2%nat /\ dim_domain X = 1%nat /\ dim_codomain X = 1%nat /\
  check_X_y (to_ndarray X) y = Ok (to_ndarray X, y) /\
  exists features scores,
    _rkhs_vs (to_ndarray X) y (n_components self) = Ok (features, scores) /\
    self' = mkSelector (n_components self) (Some (n_points X))
                       (Some features) (Some scores).
Proof.
  unfold RKVS.fit.
  destruct (n_unique y =? 2)%nat eqn:Hu; simpl; [|done].
  destruct (dim_domain X =? 1)%nat eqn:Hd; simpl; [|done].
  destruct (dim_codomain X =? 1)%nat eqn:Hc; simpl; [|done].
  apply Nat.eqb_eq in Hu, Hd, Hc.
  destruct (check_X_y (to_ndarray X) y) as [[M' y']|e] eqn:Hchk; [|done].
  assert (M' = to_ndarray X /\ y' = y) as [-> ->].
  { revert Hchk. unfold check_X_y, check_array.
    destruct (_ && _); simpl; [|done]. by case_decide; intros [= <- <-]. }
  destruct (_rkhs_vs (to_ndarray X) y (n_components self))
    as [[features scores]|] eqn:Hr; [|done].
  intros [= <-]. do 4 (split; [done|]). by exists features, scores.
Qed.

(** A grid that passes [check_array]: some sample and some point. *)
Lemma check_array_to_ndarray (X : FDataGrid) :
  (0 < n_samples X)%nat -> (0 < n_points X)%nat ->
  check_array (to_ndarray X) = Ok (to_ndarray X).
Proof.
  intros Hs Hp. unfold check_array. simpl.
  apply Nat.ltb_lt in Hs, Hp. rewrite Hs, Hp. simpl.
  replace (forallb (forallb isfinite) (map (map Fin) (data_matrix X)))
    with true; [done|].
  symmetry. apply forallb_forall. intros r Hr.
  apply in_map_iff in Hr as (r' & <- & _).
  apply forallb_forall. intros x Hx. by apply in_map_iff in Hx as (q & <- & _).
Qed.

(** After a fit that returned, [transform] keeps of every curve its values
    at the selected points, in the order of their selection, when the data
    have as many points as the fitted ones; it raises its [ValueError]
    when they have not. *)
Theorem transform_after_fit (self0 self : RKHSVariableSelection)
    (X0 X : FDataGrid) (y : list Z) :
  fit self0 X0 y = (self, Ok tt) ->
  dim_domain X = 1%nat ->
  (0 < n_samples X)%nat ->
  (0 < n_points X)%nat ->
  Forall (fun row => length row = n_points X) (data_matrix X) ->
  exists features,
    _features_ self = Some features /\
    length features = Z.to_nat (n_components self0) /\
    NoDup features /\
    Forall (fun t => t < n_points X0)%nat features /\
    (n_points X = n_points X0 ->
     transform self X
     = Ok (map (fun row => map (fun t => Fin (nth t row 0%Q)) features)
               (data_matrix X))) /\
    (n_points X <> n_points X0 ->
     transform self X = Err (ValueError DifferentNumberOfPoints)).
Proof.
  intros Hfit _ Hs Hp Hrows.
  apply fit_ok_inv in Hfit
    as (_ & _ & _ & _ & features & scores & Hr & ->).
  apply _rkhs_vs_ok_inv in Hr as (_ & Hlen & _ & Hnd & Hlt).
  exists features. simpl in Hlt.
  split; [done|]. split; [done|]. split; [done|]. split; [done|].
  unfold RKVS.transform. simpl.
  rewrite check_array_to_ndarray by done. simpl. split.
  - intros HP. rewrite HP, Nat.eqb_refl. simpl.
    induction Hrows as [|row rows Hrow _ IH]; [done|].
    simpl map. rewrite mapM_cons.
    rewrite (take_indices_nth _ _ _ (Fin 0)).
    2: { rewrite length_map, Hrow, HP. done. }
    simpl. rewrite IH. simpl. f_equal. f_equal.
    apply map_ext_in. intros t Ht.
    apply (map_nth Fin).
  - intros HP. apply Nat.eqb_neq in HP. by rewrite HP.
Qed.

(** The mask that [get_support] fills. *)
Lemma get_support_mask (features : list nat) (mask : list bool) :
  Forall (fun t => t < length mask)%nat features ->
  exists mask',
    for_each features
      (fun i mask =>
         if decide (i < length mask)%nat then Ok (<[i := true]> mask)
         else Err (IndexError "mask"))
      mask = Ok mask' /\
    length mask' = length mask /\
    forall t, mask' !! t = Some true <->
              mask !! t = Some true \/ t ∈ features.
Proof.
  revert mask. induction features as [|i features IH]; intros mask Hlt.
  - exists mask. split; [done|]. split; [done|]. intros t.
    rewrite elem_of_nil. tauto.
  - apply Forall_cons in Hlt as [Hi Hlt]. rewrite for_each_cons.
    rewrite decide_True by done. simpl.
    destruct (IH (<[i := true]> mask)) as (mask' & Hrun & Hlen & Hlk).
    { by rewrite length_insert. }
    exists mask'. split; [done|]. rewrite length_insert in Hlen.
    split; [done|]. intros t. rewrite Hlk, elem_of_cons.
    destruct (decide (t = i)) as [->|Hne].
    + rewrite list_lookup_insert_eq by done. tauto.
    + rewrite list_lookup_insert_ne by done. tauto.
Qed.

(** After a fit that returned, [get_support(indices=True)] is the list of
    the selected points and [get_support()] a mask over the points of the
    fitted grid that is [True] at the selected points and nowhere else,
    [n_components] entries in all. *)
Theorem get_support_after_fit (self0 self : RKHSVariableSelection)
    (X0 : FDataGrid) (y : list Z) :
  fit self0 X0 y = (self, Ok tt) ->
  exists features mask,
    get_support self true = Ok (inl features) /\
    get_support self false = Ok (inr mask) /\
    _features_ self = Some features /\
    length mask = n_points X0 /\
    (forall t, mask !! t = Some true <-> t ∈ features) /\
    count_occ Bool.bool_dec mask true = Z.to_nat (n_components self0).
Proof.
  intros Hfit.
  apply fit_ok_inv in Hfit
    as (_ & _ & _ & _ & features & scores & Hr & ->).
  apply _rkhs_vs_ok_inv in Hr as (_ & Hlen & _ & Hnd & Hlt).
  simpl in Hlt.
  destruct (get_support_mask features (replicate (n_points X0) false))
    as (mask & Hrun & Hlmask & Hlk).
  { by rewrite length_replicate. }
  rewrite length_replicate in Hlmask.
  exists features, mask. unfold get_support. simpl. rewrite Hrun. simpl.
  do 4 (split; [done|]).
  assert (forall t, mask !! t = Some true <-> t ∈ features) as Hmask.
  { intros t. rewrite Hlk. split; [|auto]. intros [H|H]; [|done].
    apply lookup_replicate in H as [? _]. done. }
  split; [done|].
  assert (mask = map (fun t => bool_decide (t ∈ features))
                     (seq 0 (n_points X0))) as ->.
  { apply list_eq. intros t. rewrite list_lookup_fmap.
    destruct (decide (t < n_points X0)%nat) as [Ht|Ht].
    - rewrite lookup_seq_lt by done. simpl.
      destruct (lookup_lt_is_Some_2 mask t) as [b Hb]; [lia|].
      rewrite Hb. f_equal. destruct b.
      + symmetry. apply bool_decide_eq_true. by apply Hmask.
      + symmetry. apply bool_decide_eq_false. intros Hin.
        apply Hmask in Hin. congruence.
    - rewrite lookup_seq_ge by lia. simpl.
      apply lookup_ge_None. lia. }
  rewrite <- Hlen.
  assert (filter (fun t => t ∈ features) (seq 0 (n_points X0)) ≡ₚ features)
    as Hperm.
  { apply NoDup_Permutation; [apply NoDup_filter, NoDup_seq | done |].
    intros t. rewrite list_elem_of_filter, elem_of_seq. split; [tauto|].
    intros Ht. split; [done|]. rewrite Forall_forall in Hlt.
    specialize (Hlt t Ht). lia. }
  rewrite <- (Permutation_length Hperm).
  generalize (seq 0 (n_points X0)). intros l.
  induction l as [|t l IH]; [done|].
  simpl. rewrite filter_cons. destruct (decide (t ∈ features)) as [Ht|Ht].
  - rewrite bool_decide_eq_true_2 by done.
    destruct (Bool.bool_dec true true); [|done]. simpl. by rewrite IH.
  - rewrite bool_decide_eq_false_2 by done.
    destruct (Bool.bool_dec false true); [done|]. done.
Qed.

(** A fit that raises after its checks (the [AssertionError] of
    [n_components], or an error of the solver) leaves an instance that
    [check_is_fitted] accepts, because [_features_shape_] is recorded:
    [transform] and [get_support] then raise an [AttributeError] for
    [_features_], not the not-fitted error. *)
Theorem transform_after_failed_fit (n : option Z) (X0 X : FDataGrid)
    (y : list Z) (e : exn) (indices : bool) :
  n_unique y = 2%nat ->
  dim_domain X0 = 1%nat ->
  dim_codomain X0 = 1%nat ->
  check_X_y (to_ndarray X0) y = Ok (to_ndarray X0, y) ->
  (fit (__init__ n) X0 y).2 = Err e ->
  dim_domain X = 1%nat ->
  (0 < n_samples X)%nat ->
  (0 < n_points X)%nat ->
  let self := (fit (__init__ n) X0 y).1 in
  check_is_fitted self = Ok tt /\
  get_support self indices = Err (AttributeError "_features_") /\
  (n_points X = n_points X0 ->
   transform self X = Err (AttributeError "_features_")) /\
  (n_points X <> n_points X0 ->
   transform self X = Err (ValueError DifferentNumberOfPoints)).
Proof.
  intros Hu Hd Hc Hchk He _ Hs Hp. revert He.
  unfold RKVS.fit. rewrite Hu, Hd, Hc, Hchk. simpl.
  destruct (_rkhs_vs (to_ndarray X0) y (default 1%Z n)) as [[f sc]|e'];
    [done|]. simpl. intros _.
  split; [done|]. split; [done|].
  unfold RKVS.transform. simpl.
  rewrite check_array_to_ndarray by done. simpl. split.
  - intros ->. by rewrite Nat.eqb_refl.
  - intros HP. apply Nat.eqb_neq in HP. by rewrite HP.
Qed.

(** An iteration below [k] reads and writes the first [k] entries only. *)
Lemma select_next_take (means : list float) (variances : list (list float))
    (k i : nat) (st st' : loop_state) :
  (i < k)%nat ->
  select_next means variances i st = Ok st' ->
  select_next means variances i
    (mkLoop (take k (selected_features st)) (take k (score st)) (indexes st))
  = Ok (mkLoop (take k (selected_features st')) (take k (score st'))
               (indexes st')).
Proof.
  intros Hi. unfold RKVS.select_next. simpl.
  rewrite take_take, Nat.min_l by lia.
  destruct (mapM _ (indexes st)) as [aux|]; simpl; [|done].
  destruct (np_argmax aux) as [aux2|]; simpl; [|done].
  destruct (getitem "indexes" (indexes st) aux2) as [chosen|]; simpl; [|done].
  destruct (getitem "aux" aux aux2) as [best|]; simpl; [|done].
  destruct (np_delete "indexes" (indexes st) aux2) as [rest|]; simpl; [|done].
  intros [= <-]. simpl. by rewrite !take_insert_lt by done.
Qed.

(** An iteration from [k] on leaves the first [k] entries as they are. *)
Lemma select_next_keeps (means : list float) (variances : list (list float))
    (k i : nat) (st st' : loop_state) :
  (k <= i)%nat ->
  select_next means variances i st = Ok st' ->
  take k (selected_features st') = take k (selected_features st) /\
  take k (score st') = take k (score st).
Proof.
  intros Hi. unfold RKVS.select_next.
  destruct (mapM _ (indexes st)) as [aux|]; simpl; [|done].
  destruct (np_argmax aux) as [aux2|]; simpl; [|done].
  destruct (getitem "indexes" (indexes st) aux2) as [chosen|]; simpl; [|done].
  destruct (getitem "aux" aux aux2) as [best|]; simpl; [|done].
  destruct (np_delete "indexes" (indexes st) aux2) as [rest|]; simpl; [|done].
  intros [= <-]. simpl. by rewrite !take_insert_ge by done.
Qed.

Lemma for_each_select_next_take (means : list float)
    (variances : list (list float)) (k m i : nat) (st st' : loop_state) :
  (i + m <= k)%nat ->
  for_each (seq i m) (select_next means variances) st = Ok st' ->
  for_each (seq i m) (select_next means variances)
    (mkLoop (take k (selected_features st)) (take k (score st)) (indexes st))
  = Ok (mkLoop (take k (selected_features st')) (take k (score st'))
               (indexes st')).
Proof.
  revert i st. induction m as [|m IH]; intros i st Hk; simpl seq.
  - by intros [= <-].
  - rewrite !for_each_cons.
    destruct (select_next means variances i st) as [st1|] eqn:H1; simpl;
      [|done].
    intros Hrest. rewrite (select_next_take _ _ k i st st1) by (done || lia).
    simpl. apply IH; [lia|done].
Qed.

Lemma for_each_select_next_keeps (means : list float)
    (variances : list (list float)) (k m i : nat) (st st' : loop_state) :
  (k <= i)%nat ->
  for_each (seq i m) (select_next means variances) st = Ok st' ->
  take k (selected_features st') = take k (selected_features st) /\
  take k (score st') = take k (score st).
Proof.
  revert i st. induction m as [|m IH]; intros i st Hk; simpl seq.
  - by intros [= <-].
  - rewrite for_each_cons.
    destruct (select_next means variances i st) as [st1|] eqn:H1; simpl;
      [|done].
    intros Hrest. apply (IH (S i)) in Hrest as [-> ->]; [|lia].
    by eapply select_next_keeps.
Qed.

(** The selections are nested: asking for fewer components returns the
    first features and scores of the larger selection. *)
Theorem _rkhs_vs_nested (X : ndarray) (Y : list Z) (n k : Z)
    (sel : list nat) (sc : list float) :
  _rkhs_vs X Y n = Ok (sel, sc) ->
  (1 <= k <= n)%Z ->
  _rkhs_vs X Y k = Ok (take (Z.to_nat k) sel, take (Z.to_nat k) sc).
Proof.
  intros Hok Hk.
  pose proof (_rkhs_vs_ok_inv _ _ _ _ _ Hok) as (Hn & _).
  revert Hok. unfold RKVS._rkhs_vs, py_assert.
  replace (1 <=? n)%Z with true by (symmetry; apply Z.leb_le; lia).
  replace (n <=? Z.of_nat (shape1 X))%Z with true
    by (symmetry; apply Z.leb_le; lia).
  replace (1 <=? k)%Z with true by (symmetry; apply Z.leb_le; lia).
  replace (k <=? Z.of_nat (shape1 X))%Z with true
    by (symmetry; apply Z.leb_le; lia).
  simpl.
  destruct (means_and_variances X Y) as [[means variances]|]; simpl; [|done].
  destruct (mu_sigma_of sqrtQ means variances) as [mu_sigma|]; simpl;
    [|done].
  destruct (np_argmax _) as [first|]; simpl; [|done].
  destruct (getitem "mu_sigma" _ first) as [fs|]; simpl; [|done].
  destruct (np_delete "indexes" _ first) as [rest|]; simpl; [|done].
  set (n' := Z.to_nat n). set (k' := Z.to_nat k).
  assert (1 <= k' <= n')%nat as Hk' by lia.
  replace (n' - 1)%nat with ((k' - 1) + (n' - k'))%nat by lia.
  rewrite seq_app, for_each_app.
  replace (1 + (k' - 1))%nat with k' by lia.
  destruct (for_each (seq 1 (k' - 1)) _ _) as [mid|] eqn:Hmid; simpl; [|done].
  destruct (for_each (seq k' (n' - k')) _ mid) as [fin|] eqn:Hfin; simpl;
    [|done].
  intros [= <- <-].
  apply (for_each_select_next_take _ _ k') in Hmid; [|lia].
  simpl in Hmid.
  rewrite !take_insert_lt, !take_replicate, !Nat.min_l in Hmid by lia.
  rewrite Hmid. simpl.
  apply (for_each_select_next_keeps _ _ k') in Hfin as [-> ->]; done.
Qed.

(** The candidates of iteration [i] are the points that the first [i]
    selections left, in increasing order, and every earlier iteration chose
    by [np.argmax] among its candidates. *)
Lemma select_next_greedy (means : list float) (variances : list (list float))
    (n P i : nat) (st st' : loop_state) :
  (1 <= i < n)%nat ->
  length (selected_features st) = n ->
  length (score st) = n ->
  indexes st
  = filter (fun t => t ∉ take i (selected_features st)) (seq 0 P) ->
  select_next means variances i st = Ok st' ->
  length (selected_features st') = n /\
  length (score st') = n /\
  indexes st'
  = filter (fun t => t ∉ take (S i) (selected_features st')) (seq 0 P) /\
  take i (selected_features st') = take i (selected_features st) /\
  take i (score st') = take i (score st) /\
  exists aux j,
    mapM (candidate_score means variances (take i (selected_features st)))
         (indexes st) = Ok aux /\
    np_argmax aux = Ok j /\
    is_Some (indexes st !! j) /\
    selected_features st' !! i = indexes st !! j /\
    score st' !! i = aux !! j.
Proof.
  intros Hi Hlsel Hlsc Hidx. unfold RKVS.select_next.
  destruct (mapM _ (indexes st)) as [aux|] eqn:Haux; simpl; [|done].
  destruct (np_argmax aux) as [j|] eqn:Hj; simpl; [|done].
  destruct (getitem "indexes" (indexes st) j) as [chosen|] eqn:Hch; simpl;
    [|done].
  destruct (getitem "aux" aux j) as [best|] eqn:Hbest; simpl; [|done].
  assert (indexes st !! j = Some chosen) as Hch'.
  { revert Hch. unfold getitem. destruct (indexes st !! j); congruence. }
  assert (aux !! j = Some best) as Hbest'.
  { revert Hbest. unfold getitem. destruct (aux !! j); congruence. }
  clear Hch Hbest. rename Hch' into Hch. rename Hbest' into Hbest.
  unfold np_delete. case_decide; simpl; [|done].
  intros [= <-]. simpl. rewrite !length_insert.
  split; [done|]. split; [done|]. split; [|split; [|split]].
  - rewrite (take_S_r _ _ chosen) by (apply list_lookup_insert_eq; lia).
    rewrite take_insert_ge by lia.
    rewrite (delete_filter_ne _ j chosen); [|rewrite Hidx|done].
    2: { apply NoDup_filter, NoDup_seq. }
    rewrite Hidx, list_filter_filter. apply list_filter_iff.
    intros t. rewrite not_elem_of_app, not_elem_of_cons, elem_of_nil. tauto.
  - by rewrite take_insert_ge.
  - by rewrite take_insert_ge.
  - exists aux, j. split; [done|]. split; [done|]. split; [eauto|].
    rewrite !list_lookup_insert_eq by lia. done.
Qed.

(** After the first selection every point is chosen greedily: among the
    points not selected so far, taken in increasing order, the next one is
    the [np.argmax] of the scores that the solver gives them together with
    the points selected so far; without [nan] among these scores, it is
    the first point of maximal score. *)
Theorem _rkhs_vs_greedy (X : ndarray) (Y : list Z) (n : Z)
    (sel : list nat) (sc : list float) (means : list float)
    (variances : list (list float)) :
  _rkhs_vs X Y n = Ok (sel, sc) ->
  means_and_variances X Y = Ok (means, variances) ->
  forall i, (1 <= i < Z.to_nat n)%nat ->
    let chosen := take i sel in
    let candidates := filter (fun t => t ∉ chosen) (seq 0 (shape1 X)) in
    exists aux j,
      mapM (candidate_score means variances chosen) candidates = Ok aux /\
      np_argmax aux = Ok j /\
      is_Some (candidates !! j) /\
      sel !! i = candidates !! j /\
      sc !! i = aux !! j /\
      (Forall (fun x => isnan x = false) aux -> first_argmax aux j).
Proof.
  intros Hok Hstats.
  pose proof (_rkhs_vs_ok_inv _ _ _ _ _ Hok) as (Hn & _).
  revert Hok. unfold RKVS._rkhs_vs, py_assert.
  replace (1 <=? n)%Z with true by (symmetry; apply Z.leb_le; lia).
  replace (n <=? Z.of_nat (shape1 X))%Z with true
    by (symmetry; apply Z.leb_le; lia).
  simpl. rewrite Hstats. simpl.
  destruct (mu_sigma_of sqrtQ means variances) as [mu_sigma|]; simpl;
    [|done].
  destruct (np_argmax _) as [first|]; simpl; [|done].
  destruct (getitem "mu_sigma" _ first) as [fs|]; simpl; [|done].
  unfold np_delete. rewrite length_seq. case_decide as Hfirst; simpl; [|done].
  set (n' := Z.to_nat n). set (P := shape1 X) in *.
  set (G := fun (sel : list nat) (sc : list float) (i : nat) =>
    exists aux j,
      mapM (candidate_score means variances (take i sel))
           (filter (fun t => t ∉ take i sel) (seq 0 P)) = Ok aux /\
      np_argmax aux = Ok j /\
      is_Some (filter (fun t => t ∉ take i sel) (seq 0 P) !! j) /\
      sel !! i = filter (fun t => t ∉ take i sel) (seq 0 P) !! j /\
      sc !! i = aux !! j).
  set (Inv := fun (i : nat) (st : loop_state) =>
    length (selected_features st) = n' /\
    length (score st) = n' /\
    indexes st
    = filter (fun t => t ∉ take i (selected_features st)) (seq 0 P) /\
    forall i', (1 <= i' < i)%nat ->
               G (selected_features st) (score st) i').
  destruct (for_each _ _ _) as [fin|] eqn:Hrun; simpl; [|done].
  intros [= <- <-].
  apply (for_each_seq_inv _ Inv) in Hrun.
  - destruct Hrun as (_ & _ & _ & HG). intros i Hi.
    destruct (HG i) as (aux & j & Haux & Hj & Hsome & Hsel & Hsc); [lia|].
    exists aux, j. do 5 (split; [done|]).
    intros Hnan. by apply np_argmax_first.
  - unfold Inv. simpl. rewrite !length_insert, !length_replicate.
    split; [done|]. split; [done|]. split; [|intros i'; lia].
    assert (take 1 (<[0%nat:=first]> (replicate n' 0%nat)) = [first]) as ->.
    { destruct n' as [|m] eqn:E; [lia|]. done. }
    rewrite (delete_filter_ne _ first first);
      [|apply NoDup_seq|by apply lookup_seq_lt].
    apply list_filter_iff. intros t.
    rewrite not_elem_of_cons, elem_of_nil. tauto.
  - intros j t t' Hj (Hlsel & Hlsc & Hidx & HG) Hstep.
    destruct (select_next_greedy means variances n' P j t t')
      as (Hlsel' & Hlsc' & Hidx' & Htsel & Htsc & aux & a & Haux & Ha & Hsome
          & Hsel & Hsc); [lia|done..|].
    split; [done|]. split; [done|]. split; [done|].
    intros i' Hi'.
    destruct (decide (i' = j)) as [->|Hne].
    + exists aux, a. rewrite Htsel, <- Hidx. done.
    + destruct (HG i') as (aux' & a' & Haux' & Ha' & Hsome' & Hsel' & Hsc');
        [lia|].
      assert (take i' (selected_features t')
              = take i' (selected_features t)) as Ei.
      { pose proof (f_equal (take i') Htsel) as E.
        by rewrite !take_take, !Nat.min_l in E by lia. }
      assert (selected_features t' !! i' = selected_features t !! i') as Es.
      { rewrite <- (lookup_take_lt _ j i') by lia. rewrite Htsel.
        by rewrite lookup_take_lt by lia. }
      assert (score t' !! i' = score t !! i') as Ec.
      { rewrite <- (lookup_take_lt _ j i') by lia. rewrite Htsc.
        by rewrite lookup_take_lt by lia. }
      exists aux', a'. rewrite Ei, Es, Ec. done.
Qed.

End Estimator.

(** Two components fitted on the three-point batch, then two new curves. *)
Lemma transform_after_fit_witness :
  let fitted :=
    (RKVS.fit Kernels.sqrt_floor Kernels.lstsq_gauss
       (RKVS.__init__ (Some 2%Z)) Examples.three_point_batch
       [0; 0; 1; 1]%Z).1 in
  exists features,
    _features_ fitted = Some features /\
    length features = 2%nat /\
    NoDup features /\
    Forall (fun t => t < 3)%nat features /\
    (3 = 3 ->
     RKVS.transform fitted Examples.new_curves
     = Ok (map (fun row => map (fun t => Fin (nth t row 0%Q)) features)
               (data_matrix Examples.new_curves))) /\
    (3 <> 3 ->
     RKVS.transform fitted Examples.new_curves
     = Err (ValueError DifferentNumberOfPoints)).
Proof.
  intros fitted.
  apply (transform_after_fit Kernels.sqrt_floor Kernels.lstsq_gauss
           (RKVS.__init__ (Some 2%Z)) fitted Examples.three_point_batch
           Examples.new_curves [0; 0; 1; 1]%Z).
  - vm_compute. reflexivity.
  - reflexivity.
  - vm_compute. lia.
  - vm_compute. lia.
  - repeat constructor.
Defined.

Lemma get_support_after_fit_witness :
  let fitted :=
    (RKVS.fit Kernels.sqrt_floor Kernels.lstsq_gauss
       (RKVS.__init__ (Some 2%Z)) Examples.three_point_batch
       [0; 0; 1; 1]%Z).1 in
  exists features mask,
    get_support fitted true = Ok (inl features) /\
    get_support fitted false = Ok (inr mask) /\
    _features_ fitted = Some features /\
    length mask = 3%nat /\
    (forall t, mask !! t = Some true <-> t ∈ features) /\
    count_occ Bool.bool_dec mask true = 2%nat.
Proof.
  intros fitted.
  apply (get_support_after_fit Kernels.sqrt_floor Kernels.lstsq_gauss
           (RKVS.__init__ (Some 2%Z)) fitted Examples.three_point_batch
           [0; 0; 1; 1]%Z).
  vm_compute. reflexivity.
Defined.

(** Four components asked of a grid of three points. *)
Lemma transform_after_failed_fit_witness :
  let self :=
    (RKVS.fit Kernels.sqrt_floor Kernels.lstsq_gauss
       (RKVS.__init__ (Some 4%Z)) Examples.three_point_batch
       [0; 0; 1; 1]%Z).1 in
  check_is_fitted self = Ok tt /\
  get_support self false = Err (AttributeError "_features_") /\
  (3 = 3 ->
   RKVS.transform self Examples.new_curves
   = Err (AttributeError "_features_")) /\
  (3 <> 3 ->
   RKVS.transform self Examples.new_curves
   = Err (ValueError DifferentNumberOfPoints)).
Proof.
  apply (transform_after_failed_fit Kernels.sqrt_floor Kernels.lstsq_gauss
           (Some 4%Z) Examples.three_point_batch Examples.new_curves
           [0; 0; 1; 1]%Z AssertionError false).
  - reflexivity.
  - reflexivity.
  - reflexivity.
  - vm_compute. reflexivity.
  - vm_compute. reflexivity.
  - reflexivity.
  - vm_compute. lia.
  - vm_compute. lia.
Defined.

(** Three components and two on the three-point sample. *)
Lemma _rkhs_vs_nested_witness :
  exists sel sc,
    RKVS._rkhs_vs Kernels.sqrt_floor Kernels.lstsq_gauss
      Examples.three_point_sample [0; 0; 1; 1]%Z 3 = Ok (sel, sc) /\
    RKVS._rkhs_vs Kernels.sqrt_floor Kernels.lstsq_gauss
      Examples.three_point_sample [0; 0; 1; 1]%Z 2
    = Ok (take 2 sel, take 2 sc).
Proof.
  assert (exists sel sc,
            RKVS._rkhs_vs Kernels.sqrt_floor Kernels.lstsq_gauss
              Examples.three_point_sample [0; 0; 1; 1]%Z 3 = Ok (sel, sc))
    as (sel & sc & H) by (vm_compute; eauto).
  exists sel, sc. split; [exact H|].
  apply (_rkhs_vs_nested Kernels.sqrt_floor Kernels.lstsq_gauss
           Examples.three_point_sample [0; 0; 1; 1]%Z 3 2 sel sc H). lia.
Defined.

Lemma _rkhs_vs_greedy_witness :
  exists sel sc means variances,
    RKVS._rkhs_vs Kernels.sqrt_floor Kernels.lstsq_gauss
      Examples.three_point_sample [0; 0; 1; 1]%Z 3 = Ok (sel, sc) /\
    means_and_variances Examples.three_point_sample [0; 0; 1; 1]%Z
    = Ok (means, variances) /\
    forall i, (1 <= i < 3)%nat ->
      let chosen := take i sel in
      let candidates := filter (fun t => t ∉ chosen) (seq 0 3) in
      exists aux j,
        mapM (RKVS.candidate_score Kernels.lstsq_gauss means variances chosen)
             candidates = Ok aux /\
        np_argmax aux = Ok j /\
        is_Some (candidates !! j) /\
        sel !! i = candidates !! j /\
        sc !! i = aux !! j /\
        (Forall (fun x => isnan x = false) aux -> first_argmax aux j).
Proof.
  assert (exists sel sc,
            RKVS._rkhs_vs Kernels.sqrt_floor Kernels.lstsq_gauss
              Examples.three_point_sample [0; 0; 1; 1]%Z 3 = Ok (sel, sc))
    as (sel & sc & H) by (vm_compute; eauto).
  assert (exists means variances,
            means_and_variances Examples.three_point_sample [0; 0; 1; 1]%Z
            = Ok (means, variances))
    as (means & variances & Hstats) by (vm_compute; eauto).
  exists sel, sc, means, variances. split; [exact H|]. split; [exact Hstats|].
  exact (_rkhs_vs_greedy Kernels.sqrt_floor Kernels.lstsq_gauss
           Examples.three_point_sample [0; 0; 1; 1]%Z 3 sel sc means variances
           H Hstats).
Defined.

End RKVSFacts.

(** ** The basis smoother *)

Module BasisFacts.
Import NumPyQ Basis.
Local Open Scope Q_scope.

Lemma np_array_equal_iff (a b : list Q) :
  np_array_equal a b = true <-> Forall2 Qeq a b.
Proof.
  unfold np_array_equal. rewrite andb_true_iff, Nat.eqb_eq. split.
  - intros [Hlen Hall]. revert b Hlen Hall.
    induction a as [|x a IH]; intros [|y b] Hlen Hall; try done.
    simpl in Hall. apply andb_true_iff in Hall as [Hxy Hall].
    constructor; [by apply Qeq_bool_iff|]. apply IH; [|done].
    simpl in Hlen. lia.
  - induction 1 as [|x y a b Hxy _ [IHlen IHall]]; [done|].
    simpl. split; [lia|]. apply andb_true_iff. split; [|done].
    by apply Qeq_bool_iff.
Qed.

(** Between tuples of the same length, the check compares every array. *)
Lemma same_input_points_iff (fitted given : list (list Q)) :
  length fitted = length given ->
  same_input_points fitted given = true
  <-> Forall2 (Forall2 Qeq) fitted given.
Proof.
  unfold same_input_points. revert given.
  induction fitted as [|i fitted IH]; intros [|s given] Hlen; try done.
  simpl. rewrite andb_true_iff, Forall2_cons, np_array_equal_iff.
  rewrite IH by (simpl in Hlen; lia). done.
Qed.

(** The check stops at the end of the shorter tuple. *)
Lemma same_input_points_prefix (fitted extra : list (list Q)) :
  same_input_points fitted (fitted ++ extra) = true.
Proof.
  unfold same_input_points. induction fitted as [|i fitted IH]; [done|].
  simpl. rewrite IH, andb_true_r. apply np_array_equal_iff.
  apply Forall_Forall2_diag, Forall_forall. intros q _. reflexivity.
Qed.

Section Smoother.

Variable basis_values : list (list Q) -> res (list (list Q)).
Variable compute_penalty_matrix : res (list (list Q)).
Variable solve_regularized_weighted_lstsq :
  list (list Q) -> list (list Q) -> list (list Q) -> LstsqMethod ->
  res (list (list Q)).
Variable linear_smoother_fit : BasisSmoother -> FData -> res (list (list Q)).
Variable linear_smoother_transform : BasisSmoother -> FData -> res smoothed.

Local Abbreviation fit := (fit linear_smoother_fit).
Local Abbreviation transform :=
  (transform basis_values compute_penalty_matrix
             solve_regularized_weighted_lstsq linear_smoother_transform).
Local Abbreviation _coef_matrix :=
  (_coef_matrix basis_values compute_penalty_matrix
                solve_regularized_weighted_lstsq).

Local Abbreviation smooth :=
  (smooth basis_values compute_penalty_matrix
          solve_regularized_weighted_lstsq linear_smoother_transform).

(** On data with as many arrays of input points as were recorded by
    [fit], [transform] raises its [AssertionError] exactly when some array
    differs from the recorded one, and otherwise smooths the data. *)
Theorem transform_checks_input_points (self : BasisSmoother) (X : FData)
    (fitted given : list (list Q)) :
  input_points_ self = Some fitted ->
  _input_points X = Ok given ->
  length fitted = length given ->
  (Forall2 (Forall2 Qeq) fitted given -> transform self X = smooth self X)
  /\ (~ Forall2 (Forall2 Qeq) fitted given ->
      transform self X = Err AssertionError).
Proof.
  intros Hfitted Hgiven Hlen.
  unfold Basis.transform, check_input_points. rewrite Hfitted, Hgiven. simpl.
  pose proof (same_input_points_iff fitted given Hlen) as Hiff.
  destruct (same_input_points fitted given); simpl.
  - split; [done|]. intros Hne. destruct Hne. by apply Hiff.
  - split; [|done]. intros Heq. apply Hiff in Heq. done.
Qed.

(** C6 fails where the two tuples of input points differ in length: a
    smoother fitted on the grid 0, 1/2, 1 of a one-dimensional domain
    accepts a grid over a two-dimensional domain that starts with the same
    axis, and one fitted on two irregular points accepts a sample with a
    third point; no [AssertionError] is raised and the data are smoothed
    on their own points. *)
Lemma transform_accepts_other_input_points :
  let grid_1d := Grid (mkFDataGrid [[0; 1 # 2; 1]] [[3; 1; 3]] 1) in
  let grid_2d :=
    Grid (mkFDataGrid [[0; 1 # 2; 1]; [0; 1]]
                      [[3; 3; 1; 1; 3; 3]] 1) in
  let sample_2 := Irregular [[0]; [1]] [[3]; [3]] in
  let sample_3 := Irregular [[0]; [1]; [2]] [[3]; [3]; [1]] in
  (fit (__init__ None None (Some true)) grid_1d).2 = Ok tt
  /\ _input_points grid_2d <> _input_points grid_1d
  /\ transform (fit (__init__ None None (Some true)) grid_1d).1 grid_2d
     = smooth (fit (__init__ None None (Some true)) grid_1d).1 grid_2d
  /\ (fit (__init__ None None (Some true)) sample_2).2 = Ok tt
  /\ _input_points sample_3 <> _input_points sample_2
  /\ transform (fit (__init__ None None (Some true)) sample_2).1 sample_3
     = smooth (fit (__init__ None None (Some true)) sample_2).1 sample_3.
Proof.
  repeat split; try done.
Qed.

End Smoother.

(** Witness of [transform_checks_input_points]: the same grid, and a grid
    with another last point, for the smoother on the constant basis. *)
Lemma transform_checks_input_points_witness :
  let fitted :=
    (Basis.fit Examples.constant_fit (__init__ None None (Some true))
               (Grid (mkFDataGrid [[0; 1 # 2; 1]] [[3; 1; 3]] 1))).1 in
  (exists c,
     Basis.transform Examples.constant_basis_values
       Examples.constant_penalty_matrix Examples.constant_solve
       Examples.constant_transform fitted
       (Grid (mkFDataGrid [[0; 1 # 2; 1]] [[4; 2; 0]] 1))
     = Ok (InBasis [[c]]) /\ c == 2)
  /\ Basis.transform Examples.constant_basis_values
       Examples.constant_penalty_matrix Examples.constant_solve
       Examples.constant_transform fitted
       (Grid (mkFDataGrid [[0; 1 # 2; 2]] [[4; 2; 0]] 1))
     = Err AssertionError.
Proof.
  intros fitted. split.
  - exists (6 # 3). split; [|reflexivity].
    rewrite (proj1 (transform_checks_input_points
                      Examples.constant_basis_values
                      Examples.constant_penalty_matrix Examples.constant_solve
                      Examples.constant_transform fitted
                      (Grid (mkFDataGrid [[0; 1 # 2; 1]] [[4; 2; 0]] 1))
                      [[0; 1 # 2; 1]] [[0; 1 # 2; 1]]
                      eq_refl eq_refl eq_refl)).
    + vm_compute. reflexivity.
    + reflexivity.
  - apply (transform_checks_input_points
             Examples.constant_basis_values
             Examples.constant_penalty_matrix Examples.constant_solve
             Examples.constant_transform fitted
             (Grid (mkFDataGrid [[0; 1 # 2; 2]] [[4; 2; 0]] 1))
             [[0; 1 # 2; 1]] [[0; 1 # 2; 2]]); try reflexivity.
    intros H. apply Forall2_cons in H as [H _].
    apply Forall2_cons in H as [_ H]. apply Forall2_cons in H as [_ H].
    apply Forall2_cons in H as [H _]. discriminate H.
Defined.

(** *** [fit] followed by [transform] *)

Lemma same_input_points_refl (points : list (list Q)) :
  same_input_points points points = true.
Proof.
  rewrite <- (app_nil_r points) at 2. apply same_input_points_prefix.
Qed.

Section FitTransform.

Variable basis_values : list (list Q) -> res (list (list Q)).
Variable compute_penalty_matrix : res (list (list Q)).
Variable solve_regularized_weighted_lstsq :
  list (list Q) -> list (list Q) -> list (list Q) -> LstsqMethod ->
  res (list (list Q)).
Variable linear_smoother_fit : BasisSmoother -> FData -> res (list (list Q)).
Variable linear_smoother_transform : BasisSmoother -> FData -> res smoothed.

Local Abbreviation fit := (fit linear_smoother_fit).
Local Abbreviation transform :=
  (transform basis_values compute_penalty_matrix
             solve_regularized_weighted_lstsq linear_smoother_transform).
Local Abbreviation smooth :=
  (smooth basis_values compute_penalty_matrix
          solve_regularized_weighted_lstsq linear_smoother_transform).

(** What [fit] records, whether the base class then raises or not. *)
Lemma fit_records (self : BasisSmoother) (X : FData) (points : list (list Q)) :
  _input_points X = Ok points ->
  input_points_ (fit self X).1 = Some points /\
  output_points_ (fit self X).1 = Some (default points (output_points self)) /\
  method (fit self X).1 = method self /\
  output_points (fit self X).1 = output_points self /\
  return_basis (fit self X).1 = return_basis self /\
  (return_basis self = true ->
   (fit self X).2 = Ok tt /\ hat_matrix_ (fit self X).1 = hat_matrix_ self).
Proof.
  intros Hp. unfold Basis.fit. rewrite Hp. simpl.
  destruct (return_basis self) eqn:Hrb; simpl.
  - by destruct (output_points self).
  - destruct (linear_smoother_fit _ X); simpl;
      by destruct (output_points self).
Qed.

(** [fit] records the input points of its data, and the output points
    asked for or else the input points; the data it was given, and any
    data with the same input points, then pass the check of [transform]
    and are smoothed.  With [return_basis=True], [fit] computes no hat
    matrix and returns on every grid or irregular sample. *)
Theorem fit_then_transform (self : BasisSmoother) (X X' : FData)
    (points : list (list Q)) :
  _input_points X = Ok points ->
  _input_points X' = Ok points ->
  let fitted := (fit self X).1 in
  input_points_ fitted = Some points /\
  output_points_ fitted = Some (default points (output_points self)) /\
  transform fitted X = smooth fitted X /\
  transform fitted X' = smooth fitted X' /\
  (return_basis self = true ->
   (fit self X).2 = Ok tt /\ hat_matrix_ fitted = hat_matrix_ self).
Proof.
  intros Hp Hp' fitted.
  destruct (fit_records self X points Hp) as (Hin & Hout & _ & _ & _ & Hrb).
  split; [done|]. split; [done|]. split; [|split; [|done]].
  - unfold Basis.transform, check_input_points. fold fitted in Hin.
    rewrite Hin, Hp. simpl. by rewrite same_input_points_refl.
  - unfold Basis.transform, check_input_points. fold fitted in Hin.
    rewrite Hin, Hp'. simpl. by rewrite same_input_points_refl.
Qed.

End FitTransform.

(** The smoother on the constant basis, fitted on a grid of three points
    and applied to other values on the same grid. *)
Lemma fit_then_transform_witness :
  let X := Grid (mkFDataGrid [[0; 1 # 2; 1]] [[3; 1; 3]] 1) in
  let X' := Grid (mkFDataGrid [[0; 1 # 2; 1]] [[4; 2; 0]] 1) in
  let fitted :=
    (Basis.fit Examples.constant_fit (__init__ None None (Some true)) X).1 in
  input_points_ fitted = Some [[0; 1 # 2; 1]] /\
  output_points_ fitted = Some [[0; 1 # 2; 1]] /\
  Basis.transform Examples.constant_basis_values
    Examples.constant_penalty_matrix Examples.constant_solve
    Examples.constant_transform fitted X
  = Basis.smooth Examples.constant_basis_values
      Examples.constant_penalty_matrix Examples.constant_solve
      Examples.constant_transform fitted X /\
  Basis.transform Examples.constant_basis_values
    Examples.constant_penalty_matrix Examples.constant_solve
    Examples.constant_transform fitted X'
  = Basis.smooth Examples.constant_basis_values
      Examples.constant_penalty_matrix Examples.constant_solve
      Examples.constant_transform fitted X' /\
  (true = true ->
   (Basis.fit Examples.constant_fit (__init__ None None (Some true)) X).2
   = Ok tt /\ hat_matrix_ fitted = None).
Proof.
  intros X X'.
  apply (fit_then_transform Examples.constant_basis_values
           Examples.constant_penalty_matrix Examples.constant_solve
           Examples.constant_fit Examples.constant_transform
           (__init__ None None (Some true)) X X' [[0; 1 # 2; 1]]).
  - reflexivity.
  - reflexivity.
Defined.

End BasisFacts.

(** ** Calls before [fit] *)

Module EstimatorFacts.

(** C7, as amended.  [RKHSVariableSelection.transform] raises the
    not-fitted error exactly on the instances none of whose fitted
    attributes is set; [OutliergramOutlierDetector] defines no [predict],
    so that the call fails with an [AttributeError], before [fit] as after
    it and whatever the method would do; and [BasisSmoother.transform] on
    an instance without [input_points_] fails with the [AttributeError] of
    that attribute. *)
Theorem calls_before_fit :
  (forall self X,
     RKVS.transform self X = Err NotFittedError
     <-> RKVS._features_shape_ self = None /\ RKVS._features_ self = None
         /\ RKVS._scores_ self = None)
  /\ (forall n_components X,
        RKVS.transform (RKVS.__init__ n_components) X = Err NotFittedError)
  /\ (forall (A : Type) (body : res A),
        Outliergram.invoke "predict" body = Err (AttributeError "predict"))
  /\ (forall basis_values compute_penalty_matrix
             solve_regularized_weighted_lstsq linear_smoother_transform
             self X,
        Basis.input_points_ self = None ->
        Basis.transform basis_values compute_penalty_matrix
          solve_regularized_weighted_lstsq linear_smoother_transform self X
        = Err (AttributeError "input_points_")).
Proof.
  split; [|split; [|split]].
  - intros self X. unfold RKVS.transform, RKVS.check_is_fitted. split.
    + intros H.
      destruct (RKVS._features_shape_ self) as [shape|],
        (RKVS._features_ self) as [features|],
        (RKVS._scores_ self) as [scores|]; simpl in H; try done; exfalso.
      all: destruct (RKVS.check_array _) as [M|e] eqn:Hchk; simpl in H.
      all: try (revert Hchk; unfold RKVS.check_array;
                destruct (_ && _); congruence).
      all: destruct (negb _); try done.
      all: apply NumPyFacts.mapM_err in H as (row & _ & H).
      all: by apply NumPyFacts.take_indices_err in H.
    + intros (-> & -> & ->). done.
  - reflexivity.
  - reflexivity.
  - intros ? ? ? ? self X Hnone.
    unfold Basis.transform, Basis.check_input_points. by rewrite Hnone.
Qed.

(** C7, as stated, fails: [predict] on a detector that was never fitted
    does not raise the not-fitted error, and neither does
    [BasisSmoother.transform]. *)
Lemma predict_before_fit_not_a_not_fitted_error :
  kind_of (AttributeError "predict") <> NotFitted
  /\ Outliergram.invoke "predict"
       (Outliergram.fit_predict OutliergramSpec.ModifiedBandDepth
          OutliergramSpec.modified_epigraph_index
          (Outliergram.__init__ None)
          OutliergramSpec.docstring_batch).2
     <> Err NotFittedError
  /\ Basis.transform Examples.constant_basis_values
       Examples.constant_penalty_matrix Examples.constant_solve
       Examples.constant_transform
       (Basis.__init__ None None None)
       (Basis.Grid OutliergramSpec.docstring_batch)
     <> Err NotFittedError.
Proof. repeat split; discriminate. Qed.

End EstimatorFacts.

(** ** The depth classifiers *)

Module DepthClassifierFacts.
Import NumPy NumPyFacts DepthClassifiers.

(** The entry of a list comprehension with two loops, the inner one over
    a list of [M] entries. *)
Lemma lookup_bind_pairs {A B} (outer : list A) (inner : list B)
    (c m : nat) (a : A) (b : B) :
  outer !! c = Some a -> inner !! m = Some b ->
  (x ← outer; y ← inner; [(x, y)]) !! (c * length inner + m)%nat
  = Some (a, b).
Proof.
  revert c. induction outer as [|x outer IH]; intros c; [done|].
  intros Hc Hm.
  assert (length (y ← inner; [(x, y)]) = length inner) as Hlen.
  { clear. induction inner as [|y inner IH]; [done|]. 
    change (length ((x, y) :: (y ← inner; [(x, y)])) = length (y :: inner)).
    simpl. by rewrite IH. }
  change (x ← x :: outer; y ← inner; [(x, y)])
    with ((y ← inner; [(x, y)]) ++ (x ← outer; y ← inner; [(x, y)])).
  destruct c as [|c]; simpl in Hc.
  - injection Hc as ->. rewrite lookup_app_l.
    2: { rewrite Hlen. by eapply lookup_lt_Some. }
    simpl. clear -Hm. revert m Hm.
    induction inner as [|y inner IH]; intros m Hm; [done|].
    change ((y ← y :: inner; [(a, y)])) with ((a, y) :: (y ← inner; [(a, y)])).
    destruct m as [|m]; simpl in *; [by injection Hm as ->|by apply IH].
  - rewrite lookup_app_r by (rewrite Hlen; lia).
    rewrite Hlen. replace (S c * length inner + m - length inner)%nat
      with (c * length inner + m)%nat by lia.
    by apply IH.
Qed.

Lemma length_bind_pairs {A B} (outer : list A) (inner : list B) :
  length (x ← outer; y ← inner; [(x, y)])
  = (length outer * length inner)%nat.
Proof.
  induction outer as [|x outer IH]; [done|].
  change (x ← x :: outer; y ← inner; [(x, y)])
    with ((y ← inner; [(x, y)]) ++ (x ← outer; y ← inner; [(x, y)])).
  rewrite length_app, IH. simpl. f_equal.
  clear. induction inner as [|y inner IH]; [done|].
  change (length ((x, y) :: (y ← inner; [(x, y)])) = length (y :: inner)).
  simpl. by rewrite IH.
Qed.

Section Classifier.
Context `{Package}.
Import MaximumDepthClassifier.

(** A fit that returns has stored the classes and, for each class, a clone
    of the depth method fitted on the samples of the class. *)
Lemma classifier_fit_ok_inv (self0 self : MaximumDepthClassifier)
    (X0 : FDataGrid) (y : list Z) :
  fit self0 X0 y = (self, Ok tt) ->
  exists classes y_ind distributions,
    _classifier_get_classes y = Ok (classes, y_ind) /\
    self = mkClassifier (depth_method self0) (Some classes)
                        (Some distributions) /\
    length distributions = length classes /\
    forall c, (c < length classes)%nat ->
      exists cloned X_class fitted,
        clone (depth_method self0) = Ok cloned /\
        getitem_mask X0 (np_eq y_ind c) = Ok X_class /\
        depth_fit cloned X_class = Ok fitted /\
        distributions !! c = Some fitted.
Proof.
  unfold fit.
  destruct (_classifier_get_classes y) as [[classes y_ind]|]; [|done].
  simpl.
  destruct (mapM _ (seq 0 (length classes))) as [ds|] eqn:Hds; [|done].
  intros [= <-]. exists classes, y_ind, ds. split; [done|]. split; [done|].
  pose proof (mapM_length _ _ _ Hds) as Hlen. rewrite length_seq in Hlen.
  split; [done|]. intros c Hc.
  destruct (mapM_lookup _ _ _ c c Hds) as (fitted & Hf & Hlk).
  { by apply lookup_seq_lt. }
  destruct (clone (depth_method self0)) as [cloned|]; simpl in Hf; [|done].
  destruct (getitem_mask X0 (np_eq y_ind c)) as [X_class|]; simpl in Hf;
    [|done].
  by exists cloned, X_class, fitted.
Qed.

(** After a fit that returned, [predict] gives every sample the label of
    the class in which it is deepest: with the depths of the samples in
    each class (clones of the depth method fitted on the training samples
    of the class), the label is that of the class at [np.argmax] of the
    depths of the sample, the first class of maximal depth when no depth
    is [nan].  Without classes, [predict] raises the [ValueError] of
    [np.argmax] on an empty sequence. *)
Theorem predict_deepest_class (self0 self : MaximumDepthClassifier)
    (X0 X : FDataGrid) (y : list Z) (classes : list Z) (y_ind : list nat)
    (distributions : list Depth) (depths : list (list float)) :
  fit self0 X0 y = (self, Ok tt) ->
  _classifier_get_classes y = Ok (classes, y_ind) ->
  distributions_ self = Some distributions ->
  mapM (fun distribution => depth_predict distribution X) distributions
  = Ok depths ->
  Forall (fun d => length d = n_samples X) depths ->
  classes_ self = Some classes /\
  length depths = length classes /\
  (forall c, (c < length classes)%nat ->
     exists cloned X_class fitted d,
       clone (depth_method self0) = Ok cloned /\
       getitem_mask X0 (np_eq y_ind c) = Ok X_class /\
       depth_fit cloned X_class = Ok fitted /\
       depth_predict fitted X = Ok d /\
       depths !! c = Some d) /\
  (classes = [] -> predict self X = Err (ValueError ArgmaxEmpty)) /\
  (classes <> [] ->
   exists labels,
     predict self X = Ok labels /\
     length labels = n_samples X /\
     forall s, (s < n_samples X)%nat ->
       exists c label,
         np_argmax (map (fun d => nth s d NaN) depths) = Ok c /\
         classes !! c = Some label /\
         labels !! s = Some label /\
         (Forall (fun d => isnan (nth s d NaN) = false) depths ->
          RKVSSpec.first_argmax (map (fun d => nth s d NaN) depths) c)).
Proof.
  intros Hfit Hcls Hdist Hdepths Hshape.
  apply classifier_fit_ok_inv in Hfit
    as (classes' & y_ind' & ds & Hcls' & -> & Hlen & Hfitted).
  rewrite Hcls in Hcls'. injection Hcls' as <- <-.
  simpl in Hdist. injection Hdist as <-.
  pose proof (mapM_length _ _ _ Hdepths) as Hld. rewrite Hlen in Hld.
  split; [done|]. split; [done|]. split; [|split].
  - intros c Hc.
    destruct (Hfitted c Hc) as (cloned & X_class & fitted & Hcl & Hx & Hf & Hlk).
    destruct (mapM_lookup _ _ _ c fitted Hdepths Hlk) as (d & Hd & Hdl).
    by exists cloned, X_class, fitted, d.
  - intros ->. unfold predict. simpl. rewrite Hdepths. simpl.
    destruct depths; [done|]. simpl in Hld. lia.
  - intros Hne. unfold predict. simpl. rewrite Hdepths. simpl.
    destruct depths as [|row depths'].
    { destruct classes; [done|]. simpl in Hld. lia. }
    unfold np_argmax_axis0. cbv beta iota.
    assert (length row = n_samples X) as Hrow
      by (by apply Forall_cons in Hshape as [? _]).
    assert (row :: depths' <> []) as Ed by done.
    revert Hdepths Hshape Hld Ed. generalize (row :: depths').
    intros depths Hdepths Hshape Hld Ed.
    rewrite Hrow.
    destruct (mapM_ok (fun s => np_argmax (map (fun r => nth s r NaN) depths))
                (seq 0 (n_samples X))) as (deepest & Hdeep & Hldeep).
    { intros s _.
      destruct (np_argmax_ok (map (fun r => nth s r NaN) depths))
        as (c & Hc & _); [|eauto].
      by destruct depths. }
    rewrite Hdeep. simpl. rewrite length_seq in Hldeep.
    assert (Forall (fun c => c < length classes)%nat deepest) as Hin.
    { apply Forall_forall. intros c Hc.
      destruct (mapM_ok_elem _ _ _ Hdeep c Hc) as (s & _ & Hs).
      destruct (np_argmax_ok (map (fun r => nth s r NaN) depths))
        as (c' & Hc' & Hlt); [by destruct depths|].
      rewrite Hs in Hc'. injection Hc' as <-.
      by rewrite length_map, Hld in Hlt. }
    rewrite (take_indices_nth _ _ _ 0%Z Hin).
    eexists. split; [done|]. split; [by rewrite length_map|].
    intros s Hs.
    destruct (mapM_lookup _ _ _ s s Hdeep) as (c & Hc & Hlk);
      [by apply lookup_seq_lt|].
    rewrite Forall_forall in Hin.
    assert (c < length classes)%nat as Hclt
      by (apply Hin; by eapply list_elem_of_lookup_2).
    destruct (lookup_lt_is_Some_2 classes c Hclt) as [label Hlabel].
    exists c, label. split; [done|]. split; [done|]. split.
    + rewrite list_lookup_fmap, Hlk. simpl.
      by rewrite (nth_lookup_Some _ _ _ _ Hlabel).
    + intros Hnan. apply np_argmax_first; [|done].
      apply Forall_fmap. eapply Forall_impl; [exact Hnan|]. done.
Qed.

End Classifier.

Section Transformer.
Context `{Package}.
Import DDTransform.

(** After a fit that returned, [transform] gives one row per sample and
    one column per pair of a class and a depth method, the classes in
    order and, within a class, the methods in order: the entry of the
    sample [s] in column [c * M + m], for [M] methods, is the depth of [s]
    for a clone of the method [m] fitted on the training samples of the
    class [c]. *)
Theorem transform_columns (self0 self : DDTransform) (X0 X : FDataGrid)
    (y : list Z) (classes : list Z) (y_ind : list nat)
    (distributions : list Depth) (depths : list (list float)) :
  fit self0 X0 y = (self, Ok tt) ->
  _classifier_get_classes y = Ok (classes, y_ind) ->
  distributions_ self = Some distributions ->
  mapM (fun distribution => depth_predict distribution X) distributions
  = Ok depths ->
  Forall (fun d => length d = n_samples X) depths ->
  let M := length (depth_methods self0) in
  length depths = (length classes * M)%nat /\
  (forall c m method,
     (c < length classes)%nat -> depth_methods self0 !! m = Some method ->
     exists cloned X_class fitted d,
       clone method = Ok cloned /\
       getitem_mask X0 (np_eq y_ind c) = Ok X_class /\
       depth_fit cloned X_class = Ok fitted /\
       depth_predict fitted X = Ok d /\
       depths !! (c * M + m)%nat = Some d) /\
  (depths = [] -> transform self X = Ok []) /\
  (depths <> [] ->
   exists out,
     transform self X = Ok out /\
     length out = n_samples X /\
     forall s row, out !! s = Some row ->
       length row = (length classes * M)%nat /\
       forall j d, depths !! j = Some d -> row !! j = d !! s).
Proof.
  intros Hfit Hcls. revert Hfit. unfold fit. rewrite Hcls. simpl.
  destruct (mapM _ _) as [ds|] eqn:Hds; [|done].
  intros [= <-]. simpl. intros [= <-] Hdepths Hshape.
  set (M := length (depth_methods self0)).
  pose proof (mapM_length _ _ _ Hds) as Hlds.
  rewrite length_bind_pairs, length_seq in Hlds. fold M in Hlds.
  pose proof (mapM_length _ _ _ Hdepths) as Hld. rewrite Hlds in Hld.
  split; [done|]. split; [|split].
  - intros c m method Hc Hm.
    destruct (mapM_lookup _ _ _ (c * M + m) (c, method) Hds)
      as (fitted & Hf & Hlk).
    { apply lookup_bind_pairs; [by apply lookup_seq_lt|done]. }
    simpl in Hf.
    destruct (clone method) as [cloned|]; simpl in Hf; [|done].
    destruct (getitem_mask X0 (np_eq y_ind c)) as [X_class|]; simpl in Hf;
      [|done].
    destruct (mapM_lookup _ _ _ _ fitted Hdepths Hlk) as (d & Hd & Hdl).
    by exists cloned, X_class, fitted, d.
  - intros ->. unfold transform. simpl. by rewrite Hdepths.
  - intros Hne. unfold transform. simpl. rewrite Hdepths. simpl.
    eexists. split; [done|].
    destruct depths as [|row depths']; [done|].
    unfold np_transpose. cbv beta iota.
    assert (length row = n_samples X) as ->
      by (by apply Forall_cons in Hshape as [? _]).
    revert Hshape Hld. generalize (row :: depths').
    intros depths Hshape Hld.
    split; [by rewrite length_map, length_seq|].
    intros s r Hr. apply list_lookup_fmap_Some in Hr as (s' & -> & Hs).
    apply lookup_seq in Hs as [-> Hs]. simpl.
    split; [by rewrite length_map|].
    intros j d Hd. rewrite list_lookup_fmap, Hd. simpl.
    rewrite Forall_forall in Hshape.
    assert (length d = n_samples X) as Hl
      by (apply Hshape; by eapply list_elem_of_lookup_2).
    destruct (lookup_lt_is_Some_2 d s) as [v Hv]; [lia|].
    by rewrite Hv, (nth_lookup_Some _ _ _ _ Hv).
Qed.

End Transformer.

Section Unfitted.
Context `{Package}.

(** Before [fit], [predict] and [transform] raise the not-fitted error.
    When [fit] on a new instance raises after the classes are found (in
    [clone], in the indexing of the data or in the [fit] of a depth),
    [classes_] is already assigned: the instance passes
    [check_is_fitted], and [predict] and [transform] raise an
    [AttributeError] for [distributions_]. *)
Theorem calls_without_distributions (depth_method : option Depth)
    (depth_methods : option (list Depth)) (X X' : FDataGrid) (y : list Z)
    (classes : list Z) (y_ind : list nat) :
  _classifier_get_classes y = Ok (classes, y_ind) ->
  let classifier := MaximumDepthClassifier.__init__ depth_method in
  let transformer := DDTransform.__init__ depth_methods in
  MaximumDepthClassifier.predict classifier X' = Err NotFittedError /\
  DDTransform.transform transformer X' = Err NotFittedError /\
  (forall e, (MaximumDepthClassifier.fit classifier X y).2 = Err e ->
     MaximumDepthClassifier.classes_
       (MaximumDepthClassifier.fit classifier X y).1 = Some classes /\
     MaximumDepthClassifier.predict
       (MaximumDepthClassifier.fit classifier X y).1 X'
     = Err (AttributeError "distributions_")) /\
  (forall e, (DDTransform.fit transformer X y).2 = Err e ->
     DDTransform.classes_ (DDTransform.fit transformer X y).1
     = Some classes /\
     DDTransform.transform (DDTransform.fit transformer X y).1 X'
     = Err (AttributeError "distributions_")).
Proof.
  intros Hcls classifier transformer.
  split; [by destruct depth_method|]. split; [by destruct depth_methods|].
  split.
  - intros e. unfold MaximumDepthClassifier.fit. rewrite Hcls. simpl.
    destruct (mapM _ _); simpl; [done|]. intros _.
    by destruct depth_method.
  - intros e. unfold DDTransform.fit. rewrite Hcls. simpl.
    destruct (mapM _ _); simpl; [done|]. intros _.
    by destruct depth_methods.
Qed.

End Unfitted.

(** The classifier of the examples, fitted on the two-class batch. *)
Lemma predict_deepest_class_witness :
  let self :=
    (MaximumDepthClassifier.fit (H := Examples.toy_package)
       (MaximumDepthClassifier.__init__ None) Examples.two_class_batch
       [0; 0; 1; 1]%Z).1 in
  exists depths,
    MaximumDepthClassifier.classes_ self = Some [0; 1]%Z /\
    length depths = 2%nat /\
    ([0; 1]%Z <> [] ->
     exists labels,
       MaximumDepthClassifier.predict self Examples.test_curves = Ok labels /\
       length labels = n_samples Examples.test_curves /\
       forall s, (s < n_samples Examples.test_curves)%nat ->
         exists c label,
           np_argmax (map (fun d => nth s d NaN) depths) = Ok c /\
           [0; 1]%Z !! c = Some label /\
           labels !! s = Some label /\
           (Forall (fun d => isnan (nth s d NaN) = false) depths ->
            RKVSSpec.first_argmax (map (fun d => nth s d NaN) depths) c)).
Proof.
  intros self.
  assert (exists distributions,
            MaximumDepthClassifier.distributions_ self = Some distributions)
    as [distributions Hdist] by (vm_compute; eauto).
  assert (exists depths,
            mapM (fun distribution =>
                    depth_predict (Package := Examples.toy_package)
                      distribution Examples.test_curves)
                 distributions = Ok depths) as [depths Hdepths].
  { revert Hdist. vm_compute. intros [= <-]. eauto. }
  exists depths.
  destruct (predict_deepest_class (H := Examples.toy_package)
              (MaximumDepthClassifier.__init__ None) self
              Examples.two_class_batch Examples.test_curves [0; 0; 1; 1]%Z
              [0; 1]%Z [0; 0; 1; 1]%nat distributions depths)
    as (Hc & Hl & _ & _ & Hp).
  - vm_compute. reflexivity.
  - reflexivity.
  - exact Hdist.
  - exact Hdepths.
  - revert Hdepths. revert Hdist. vm_compute. intros [= <-] [= <-].
    repeat constructor.
  - split; [exact Hc|]. split; [exact Hl|]. exact Hp.
Defined.

(** The transformer of the examples with two depth methods. *)
Lemma transform_columns_witness :
  let self :=
    (DDTransform.fit (H := Examples.toy_package)
       (DDTransform.__init__ None) Examples.two_class_batch
       [0; 0; 1; 1]%Z).1 in
  exists (depths : list (list float)) out,
    length depths = (2 * 2)%nat /\
    DDTransform.transform self Examples.test_curves = Ok out /\
    length out = n_samples Examples.test_curves /\
    forall s row, out !! s = Some row ->
      length row = (2 * 2)%nat /\
      forall j d, depths !! j = Some d -> row !! j = d !! s.
Proof.
  intros self.
  assert (exists distributions,
            DDTransform.distributions_ self = Some distributions)
    as [distributions Hdist] by (vm_compute; eauto).
  assert (exists depths,
            mapM (fun distribution =>
                    depth_predict (Package := Examples.toy_package)
                      distribution Examples.test_curves)
                 distributions = Ok depths) as [depths Hdepths].
  { revert Hdist. vm_compute. intros [= <-]. eauto. }
  exists depths.
  destruct (transform_columns (H := Examples.toy_package)
              (DDTransform.__init__ None) self
              Examples.two_class_batch Examples.test_curves [0; 0; 1; 1]%Z
              [0; 1]%Z [0; 0; 1; 1]%nat distributions depths)
    as (Hl & _ & _ & Hout).
  - vm_compute. reflexivity.
  - reflexivity.
  - exact Hdist.
  - exact Hdepths.
  - revert Hdepths. revert Hdist. vm_compute. intros [= <-] [= <-].
    repeat constructor.
  - destruct Hout as (out & Hout & Hlen & Hrows).
    { intros ->. simpl in Hl. discriminate Hl. }
    exists out. split; [exact Hl|]. split; [exact Hout|].
    split; [exact Hlen|]. exact Hrows.
Defined.

(** A depth whose [fit] raises. *)
Lemma calls_without_distributions_witness :
  let classifier :=
    MaximumDepthClassifier.__init__ (H := Examples.failing_package) None in
  let transformer :=
    DDTransform.__init__ (H := Examples.failing_package) None in
  MaximumDepthClassifier.predict classifier Examples.test_curves
  = Err NotFittedError /\
  DDTransform.transform transformer Examples.test_curves
  = Err NotFittedError /\
  MaximumDepthClassifier.predict
    (MaximumDepthClassifier.fit classifier Examples.two_class_batch
       [0; 0; 1; 1]%Z).1 Examples.test_curves
  = Err (AttributeError "distributions_") /\
  DDTransform.transform
    (DDTransform.fit transformer Examples.two_class_batch
       [0; 0; 1; 1]%Z).1 Examples.test_curves
  = Err (AttributeError "distributions_").
Proof.
  intros classifier transformer.
  destruct (calls_without_distributions (H := Examples.failing_package)
              None None Examples.two_class_batch Examples.test_curves
              [0; 0; 1; 1]%Z [0; 1]%Z [0; 0; 1; 1]%nat eq_refl)
    as (Hp & Ht & Hc & Hd).
  split; [exact Hp|]. split; [exact Ht|]. split.
  - apply (Hc ZeroDivisionError). reflexivity.
  - apply (Hd ZeroDivisionError). reflexivity.
Defined.

End DepthClassifierFacts.

(** ** The clustering plots *)

Module ClusteringFacts.
Import NumPyQ NumPyQFacts Clustering.
Local Open Scope Q_scope.

Lemma is_not_None_and_len_differs_false {A} (s : option (sequence A)) (n : Z) :
  is_not_None_and_len_differs s n = false
  <-> forall l, s = Some l -> len l = n.
Proof.
  destruct s as [l|]; simpl.
  - rewrite negb_false_iff, Z.eqb_eq. split; [by intros ? ? [= <-]|eauto].
  - split; [done|done].
Qed.

Lemma is_not_None_and_len_differs_true {A} (s : option (sequence A)) (n : Z) :
  is_not_None_and_len_differs s n = true
  <-> exists l, s = Some l /\ len l <> n.
Proof.
  destruct s as [l|]; simpl.
  - rewrite negb_true_iff, Z.eqb_neq. split; [eauto|].
    by intros (? & [= <-] & ?).
  - split; [done|]. by intros (? & ? & _).
Qed.

(** [_plot_clustering_checks] returns exactly when every sequence that is
    given has one entry per sample, or per cluster; the [ValueError] it
    raises otherwise names a sequence that is given with another
    length. *)
Theorem _plot_clustering_checks_sound {ColorLike : Type}
    (n_clusters : Z) (n_samples : nat)
    (sample_colors : option (sequence ColorLike))
    (sample_labels : option (sequence string))
    (cluster_colors : option (sequence ColorLike))
    (cluster_labels : option (sequence string))
    (center_colors : option (sequence ColorLike))
    (center_labels : option (sequence string)) :
  let checks :=
    _plot_clustering_checks n_clusters n_samples sample_colors sample_labels
      cluster_colors cluster_labels center_colors center_labels in
  (checks = Return tt <->
     (forall l, sample_colors = Some l -> len l = Z.of_nat n_samples) /\
     (forall l, sample_labels = Some l -> len l = Z.of_nat n_samples) /\
     (forall l, cluster_colors = Some l -> len l = n_clusters) /\
     (forall l, cluster_labels = Some l -> len l = n_clusters) /\
     (forall l, center_colors = Some l -> len l = n_clusters) /\
     (forall l, center_labels = Some l -> len l = n_clusters)) /\
  (forall e, checks = Raise e ->
     (e = ValueErrorOf "sample_colors must contain a color for each sample."
      /\ exists l, sample_colors = Some l /\ len l <> Z.of_nat n_samples) \/
     (e = ValueErrorOf "sample_labels must contain a label for each sample."
      /\ exists l, sample_labels = Some l /\ len l <> Z.of_nat n_samples) \/
     (e = ValueErrorOf "cluster_colors must contain a color for each cluster."
      /\ exists l, cluster_colors = Some l /\ len l <> n_clusters) \/
     (e = ValueErrorOf "cluster_labels must contain a label for each cluster."
      /\ exists l, cluster_labels = Some l /\ len l <> n_clusters) \/
     (e = ValueErrorOf "center_colors must contain a color for each center."
      /\ exists l, center_colors = Some l /\ len l <> n_clusters) \/
     (e = ValueErrorOf "centers_labels must contain a label for each center."
      /\ exists l, center_labels = Some l /\ len l <> n_clusters)).
Proof.
  intros checks. subst checks. unfold _plot_clustering_checks.
  pose proof (is_not_None_and_len_differs_false sample_colors
                (Z.of_nat n_samples)) as F1.
  pose proof (is_not_None_and_len_differs_true sample_colors
                (Z.of_nat n_samples)) as T1.
  pose proof (is_not_None_and_len_differs_false sample_labels
                (Z.of_nat n_samples)) as F2.
  pose proof (is_not_None_and_len_differs_true sample_labels
                (Z.of_nat n_samples)) as T2.
  pose proof (is_not_None_and_len_differs_false cluster_colors n_clusters)
    as F3.
  pose proof (is_not_None_and_len_differs_true cluster_colors n_clusters)
    as T3.
  pose proof (is_not_None_and_len_differs_false cluster_labels n_clusters)
    as F4.
  pose proof (is_not_None_and_len_differs_true cluster_labels n_clusters)
    as T4.
  pose proof (is_not_None_and_len_differs_false center_colors n_clusters)
    as F5.
  pose proof (is_not_None_and_len_differs_true center_colors n_clusters)
    as T5.
  pose proof (is_not_None_and_len_differs_false center_labels n_clusters)
    as F6.
  pose proof (is_not_None_and_len_differs_true center_labels n_clusters)
    as T6.
  destruct (is_not_None_and_len_differs sample_colors _).
  { split; [split; [done|]|].
    - intros (H1 & _). apply F1 in H1. done.
    - intros e [= <-]. left. split; [done|]. by apply T1. }
  destruct (is_not_None_and_len_differs sample_labels _).
  { split; [split; [done|]|].
    - intros (_ & H2 & _). apply F2 in H2. done.
    - intros e [= <-]. right. left. split; [done|]. by apply T2. }
  destruct (is_not_None_and_len_differs cluster_colors _).
  { split; [split; [done|]|].
    - intros (_ & _ & H3 & _). apply F3 in H3. done.
    - intros e [= <-]. do 2 right. left. split; [done|]. by apply T3. }
  destruct (is_not_None_and_len_differs cluster_labels _).
  { split; [split; [done|]|].
    - intros (_ & _ & _ & H4 & _). apply F4 in H4. done.
    - intros e [= <-]. do 3 right. left. split; [done|]. by apply T4. }
  destruct (is_not_None_and_len_differs center_colors _).
  { split; [split; [done|]|].
    - intros (_ & _ & _ & _ & H5 & _). apply F5 in H5. done.
    - intros e [= <-]. do 4 right. left. split; [done|]. by apply T5. }
  destruct (is_not_None_and_len_differs center_labels _).
  { split; [split; [done|]|].
    - intros (_ & _ & _ & _ & _ & H6). apply F6 in H6. done.
    - intros e [= <-]. do 5 right. split; [done|]. by apply T6. }
  split; [|done]. split; [|done]. intros _.
  repeat split; [by apply F1|by apply F2|by apply F3|by apply F4
                |by apply F5|by apply F6].
Qed.

(** *** The bars of the membership plot *)

Lemma mapM_Return {A B} (f : A -> result B) (g : A -> B) (l : list A) :
  (forall x, x ∈ l -> f x = Return (g x)) ->
  mapM f l = Return (map g l).
Proof.
  induction l as [|x l IH]; intros Hf; [done|].
  change (mapM f (x :: l)) with (y ← f x; k ← mapM f l; Return (y :: k)).
  rewrite Hf by (by left). simpl.
  rewrite IH by (intros z Hz; apply Hf; by right). done.
Qed.

Lemma np_sum_acc (a : list Q) (acc : Q) :
  foldl Qplus acc a == acc + np_sum a.
Proof.
  unfold np_sum. revert acc. induction a as [|x a IH]; intros acc; simpl.
  - ring.
  - rewrite (IH (acc + x)), (IH (0 + x)). ring.
Qed.

Lemma np_sum_cons (x : Q) (a : list Q) : np_sum (x :: a) == x + np_sum a.
Proof. unfold np_sum at 1. simpl. rewrite np_sum_acc. ring. Qed.

Lemma np_sum_ext (a b : list Q) : Forall2 Qeq a b -> np_sum a == np_sum b.
Proof.
  induction 1 as [|x y a b Hxy _ IH]; [reflexivity|].
  by rewrite !np_sum_cons, Hxy, IH.
Qed.

Lemma take_as_map (r : list Q) (c : nat) :
  (c <= length r)%nat -> take c r = map (fun j => nth j r 0) (seq 0 c).
Proof.
  revert c. induction r as [|x r IH]; intros c Hc.
  - simpl in Hc. by replace c with 0%nat by lia.
  - destruct c as [|c]; [done|]. simpl. f_equal.
    rewrite <- seq_shift, map_map. apply IH. simpl in Hc. lia.
Qed.

Section Plot.
Context {ColorLike : Type}.
Variable np_argsort : list Q -> list nat.

Local Abbreviation plot := (plot (ColorLike := ColorLike) np_argsort).

(** The bars of an array with one row per sample and as many columns as
    clusters: the heights of the cluster [i] are the column [i], the
    bottoms the sums of the columns before [i]. *)
Lemma stacked_bars_spec (labels_dim : matrix) :
  well_shaped labels_dim ->
  exists bars,
    stacked_bars labels_dim (shape0 labels_dim)
                 (Z.of_nat (shape1 labels_dim)) = Return bars /\
    length bars = shape1 labels_dim /\
    forall i, (i < shape1 labels_dim)%nat ->
      exists heights bottom,
        bars !! i = Some (heights, bottom) /\
        heights = map (fun r => nth i r 0) (rows labels_dim) /\
        length bottom = shape0 labels_dim /\
        forall s r, rows labels_dim !! s = Some r ->
          exists b, bottom !! s = Some b /\ b == np_sum (take i r).
Proof.
  intros [Hrows Hcols]. unfold stacked_bars.
  rewrite Nat.eqb_refl. simpl. rewrite Nat2Z.id.
  rewrite (mapM_Return _
    (fun i => (map (fun r => nth i r 0) (rows labels_dim),
               map (fun r => np_sum (take (i + 1) (0 :: r)))
                   (rows labels_dim)))).
  2: { intros i Hi. apply elem_of_seq in Hi. unfold column. simpl.
       replace (i + 1 <? S (shape1 labels_dim))%nat with true
         by (symmetry; apply Nat.ltb_lt; lia).
       simpl. rewrite !map_map. f_equal. f_equal.
       apply map_ext. intros r. by rewrite Nat.add_1_r. }
  eexists. split; [done|]. split; [by rewrite length_map, length_seq|].
  intros i Hi. eexists _, _. split.
  { rewrite list_lookup_fmap, lookup_seq_lt by done. done. }
  split; [done|]. split; [by rewrite length_map|].
  intros s r Hr. eexists. split.
  { rewrite list_lookup_fmap, Hr. done. }
  rewrite Nat.add_1_r. simpl. rewrite np_sum_cons. ring.
Qed.

(** Without sorting ([sort = -1]), for memberships with one row per
    sample and one column per cluster, [plot] draws for every cluster the
    memberships of the samples to it, each bar starting where the bars of
    the clusters before it end; the ticks carry the labels of the samples,
    their numbers when no labels are given. *)
Theorem plot_stacks_bars (membership : matrix) (n_clusters : Z)
    (n_samples : nat) (sample_labels cluster_labels : option (sequence string))
    (x_label y_label title : option string) :
  well_shaped membership ->
  shape0 membership = n_samples ->
  Z.of_nat (shape1 membership) = n_clusters ->
  (forall l, sample_labels = Some l -> len l = Z.of_nat n_samples) ->
  (forall l, cluster_labels = Some l -> len l = n_clusters) ->
  exists d,
    plot membership n_clusters n_samples (-1) sample_labels None
         cluster_labels x_label y_label title = Return d /\
    xticks d = seq 0 n_samples /\
    length (xticklabels d) = n_samples /\
    (sample_labels = None -> xticklabels d = map Number (seq 0 n_samples)) /\
    length (legend_labels d) = shape1 membership /\
    length (bars d) = shape1 membership /\
    forall i, (i < shape1 membership)%nat ->
      exists heights bottom,
        bars d !! i = Some (heights, bottom) /\
        heights = map (fun r => nth i r 0) (rows membership) /\
        length bottom = n_samples /\
        forall s r, rows membership !! s = Some r ->
          exists b, bottom !! s = Some b /\ b == np_sum (take i r).
Proof.
  intros Hshape Hn Hk Hsl Hcl. unfold Clustering.plot.
  replace ((-1 <? -1)%Z || (n_clusters <=? -1)%Z) with false
    by (symmetry; apply orb_false_iff; split;
        [apply Z.ltb_ge | apply Z.leb_gt]; lia).
  simpl.
  destruct (_plot_clustering_checks_sound (ColorLike := ColorLike)
              n_clusters n_samples None sample_labels None cluster_labels
              None None) as [Hchecks _].
  rewrite (proj2 Hchecks) by (repeat split; done). simpl.
  destruct (stacked_bars_spec membership Hshape) as (b & Hb & Hlb & Hbars).
  rewrite Hn, Hk in Hb. rewrite Hb. simpl.
  eexists. split; [done|]. simpl. split; [done|]. split; [|split; [|split]].
  - destruct sample_labels as [[l|l]|]; simpl.
    + specialize (Hsl _ eq_refl). unfold len in Hsl. simpl in Hsl.
      rewrite length_map. lia.
    + specialize (Hsl _ eq_refl). unfold len in Hsl. simpl in Hsl.
      rewrite length_map. lia.
    + by rewrite length_map, length_seq.
  - by intros ->.
  - destruct cluster_labels as [l|]; simpl.
    + specialize (Hcl _ eq_refl). unfold len in Hcl. lia.
    + rewrite length_map, length_seq. lia.
  - split; [done|]. rewrite <- Hn. done.
Qed.

Lemma zip_with_fmap_diag {A B C} (f : A -> B -> C) (g : A -> B) (l : list A) :
  zip_with f l (map g l) = map (fun x => f x (g x)) l.
Proof. induction l as [|x l IH]; simpl; [done|]. by rewrite IH. Qed.

Lemma zip_with_fmap_both {A B C D} (f : B -> C -> D) (h : A -> B)
    (g : A -> C) (l : list A) :
  zip_with f (map h l) (map g l) = map (fun x => f (h x) (g x)) l.
Proof. induction l as [|x l IH]; simpl; [done|]. by rewrite IH. Qed.

(** The columns 0 and [k] after they changed places. *)
Lemma nth_swapped_columns (r : list Q) (k c : nat) :
  (k < length r)%nat -> (c < length r)%nat ->
  nth c (<[k := nth 0 r 0]> (<[0%nat := nth k r 0]> r)) 0
  = nth (if decide (c = 0%nat) then k
         else if decide (c = k) then 0%nat else c) r 0.
Proof.
  intros Hk Hc.
  destruct (decide (c = k)) as [->|Hck].
  - rewrite (nth_lookup_Some _ _ _ (nth 0 r 0)).
    2: { apply list_lookup_insert_eq. rewrite length_insert. lia. }
    by destruct (decide (k = 0%nat)) as [->|].
  - destruct (decide (c = 0%nat)) as [->|Hc0].
    + rewrite (nth_lookup_Some _ _ _ (nth k r 0)); [done|].
      rewrite list_lookup_insert_ne by done.
      apply list_lookup_insert_eq. lia.
    + destruct (lookup_lt_is_Some_2 r c Hc) as [x Hx].
      rewrite (nth_lookup_Some _ _ _ x), (nth_lookup_Some _ _ _ x Hx); [done|].
      by rewrite !list_lookup_insert_ne by done.
Qed.

(** The branch that sorts, on memberships with one row per sample. *)
Lemma sort_samples_spec (membership : matrix) (k : nat)
    (labels : list tick) :
  (forall a, np_argsort a ≡ₚ seq 0 (length a)) ->
  well_shaped membership ->
  (k < shape1 membership)%nat ->
  length labels = shape0 membership ->
  let sample_indices :=
    np_argsort (map Qopp (map (fun r => nth k r 0) (rows membership))) in
  sample_indices ≡ₚ seq 0 (shape0 membership) /\
  sort_samples np_argsort membership k (NdArray labels)
  = Return
      (NdArray (map (fun i => nth i labels (Number 0)) sample_indices),
       mkMatrix (shape0 membership) (shape1 membership)
         (map (fun i =>
                 let r := nth i (rows membership) [] in
                 <[k := nth 0 r 0]> (<[0%nat := nth k r 0]> r))
              sample_indices)).
Proof.
  intros Hperm [Hrows Hcols] Hk Hlabels sample_indices.
  assert (sample_indices ≡ₚ seq 0 (shape0 membership)) as Hidx.
  { unfold sample_indices. rewrite Hperm, !length_map. by rewrite Hrows. }
  split; [done|].
  assert (forall i, i ∈ sample_indices -> (i < shape0 membership)%nat)
    as Hlt.
  { intros i Hi. rewrite Hidx in Hi. apply elem_of_seq in Hi. lia. }
  unfold sort_samples, column.
  replace (k <? shape1 membership)%nat with true
    by (symmetry; by apply Nat.ltb_lt).
  simpl. fold sample_indices.
  rewrite (mapM_Return _ (fun i => nth i labels (Number 0))).
  2: { intros i Hi. unfold getitem.
       destruct (lookup_lt_is_Some_2 labels i) as [x Hx];
         [rewrite Hlabels; by apply Hlt|].
       by rewrite Hx, (nth_lookup_Some _ _ _ _ Hx). }
  simpl. unfold take_rows.
  rewrite (mapM_Return _ (fun i => nth i (rows membership) [])).
  2: { intros i Hi. unfold getitem.
       destruct (lookup_lt_is_Some_2 (rows membership) i) as [x Hx];
         [rewrite Hrows; by apply Hlt|].
       by rewrite Hx, (nth_lookup_Some _ _ _ _ Hx). }
  simpl.
  replace (0 <? shape1 membership)%nat with true
    by (symmetry; apply Nat.ltb_lt; lia).
  replace (k <? shape1 membership)%nat with true
    by (symmetry; by apply Nat.ltb_lt).
  simpl. unfold set_column. simpl.
  replace (0 <? shape1 membership)%nat with true
    by (symmetry; apply Nat.ltb_lt; lia).
  simpl.
  replace (k <? shape1 membership)%nat with true
    by (symmetry; by apply Nat.ltb_lt).
  simpl. f_equal. f_equal.
  rewrite (Permutation_length Hidx), length_seq. f_equal.
  rewrite zip_with_fmap_diag, zip_with_fmap_both, map_map. done.
Qed.

(** With [sort = k >= 0] and the labels of the samples left out or given
    as an array, [plot] puts the samples in the order of [np.argsort] of
    the negated memberships to the cluster [k], so that the first bars,
    which show the cluster [k], do not grow from left to right; the
    clusters 0 and [k] change places, every bar starts where the bars
    before it end, and the ticks carry the labels of the samples in their
    new order. *)
Theorem plot_sorts_samples (membership : matrix) (n_clusters : Z)
    (n_samples : nat) (sort : Z)
    (sample_labels cluster_labels : option (sequence string))
    (x_label y_label title : option string) :
  (forall a, np_argsort a ≡ₚ seq 0 (length a)) ->
  (forall a, ascending (map (fun i => nth i a 0) (np_argsort a))) ->
  well_shaped membership ->
  shape0 membership = n_samples ->
  Z.of_nat (shape1 membership) = n_clusters ->
  (0 <= sort < n_clusters)%Z ->
  (sample_labels = None \/
   exists l, sample_labels = Some (NdArray l) /\ length l = n_samples) ->
  (forall l, cluster_labels = Some l -> len l = n_clusters) ->
  let k := Z.to_nat sort in
  let shown c :=
    if decide (c = 0%nat) then k else if decide (c = k) then 0%nat else c in
  let labels := items (sample_labels_or_arange sample_labels n_samples) in
  exists d sample_indices,
    plot membership n_clusters n_samples sort sample_labels None
         cluster_labels x_label y_label title = Return d /\
    sample_indices ≡ₚ seq 0 n_samples /\
    Forall2 (fun t i => labels !! i = Some t) (xticklabels d) sample_indices /\
    length (bars d) = shape1 membership /\
    (forall c, (c < shape1 membership)%nat ->
       exists heights bottom,
         bars d !! c = Some (heights, bottom) /\
         Forall2 (fun h i => exists r, rows membership !! i = Some r /\
                                       h = nth (shown c) r 0)
                 heights sample_indices /\
         Forall2 (fun b i => exists r, rows membership !! i = Some r /\
                    b == np_sum (map (fun c' => nth (shown c') r 0)
                                     (seq 0 c)))
                 bottom sample_indices) /\
    (forall heights bottom s s' h h',
       bars d !! 0%nat = Some (heights, bottom) ->
       (s <= s')%nat -> heights !! s = Some h -> heights !! s' = Some h' ->
       h' <= h).
Proof.
  intros Hperm Hsorted Hshape Hn Hk Hsort Hsl Hcl k shown labels.
  assert (k < shape1 membership)%nat as Hklt by lia.
  assert (length labels = shape0 membership) as Hlabels.
  { unfold labels. destruct Hsl as [->|(l & -> & Hl)]; simpl.
    - by rewrite length_map, length_seq.
    - rewrite length_map. lia. }
  destruct (sort_samples_spec membership k labels Hperm Hshape Hklt Hlabels)
    as [Hidx Hrun].
  set (sample_indices :=
         np_argsort (map Qopp (map (fun r => nth k r 0) (rows membership))))
    in *.
  set (sorted_rows :=
         map (fun i => let r := nth i (rows membership) [] in
                       <[k := nth 0 r 0]> (<[0%nat := nth k r 0]> r))
             sample_indices) in *.
  destruct Hshape as [Hrows Hcols].
  assert (forall i, i ∈ sample_indices ->
            exists r, rows membership !! i = Some r /\
                      nth i (rows membership) [] = r /\
                      length r = shape1 membership) as Hrow.
  { intros i Hi. rewrite Hidx in Hi. apply elem_of_seq in Hi.
    destruct (lookup_lt_is_Some_2 (rows membership) i) as [r Hr]; [lia|].
    exists r. split; [done|]. split; [by apply nth_lookup_Some|].
    rewrite Forall_forall in Hcols. apply Hcols.
    by eapply list_elem_of_lookup_2. }
  assert (well_shaped (mkMatrix (shape0 membership) (shape1 membership)
                                sorted_rows)) as Hshape'.
  { split; simpl.
    - unfold sorted_rows. rewrite length_map, (Permutation_length Hidx).
      by rewrite length_seq, Hn.
    - apply Forall_forall. intros r Hr.
      apply list_elem_of_fmap in Hr as (i & -> & Hi).
      destruct (Hrow i Hi) as (r & _ & -> & Hlen). simpl.
      by rewrite !length_insert. }
  destruct (stacked_bars_spec _ Hshape') as (b & Hb & Hlb & Hbars).
  simpl in Hb, Hlb, Hbars.
  exists (mkDrawn b (seq 0 n_samples)
            (map (fun i => nth i labels (Number 0)) sample_indices)
            (_get_labels x_label y_label title "Sample").1.1
            (_get_labels x_label y_label title "Sample").1.2
            (cluster_labels_or_default cluster_labels n_clusters)
            (_get_labels x_label y_label title "Sample").2),
    sample_indices.
  split; [|split; [by rewrite <- Hn|split; [|split; [done|split]]]].
  - unfold Clustering.plot.
    replace ((sort <? -1)%Z || (n_clusters <=? sort)%Z) with false
      by (symmetry; apply orb_false_iff; split;
          [apply Z.ltb_ge | apply Z.leb_gt]; lia).
    simpl.
    destruct (_plot_clustering_checks_sound (ColorLike := ColorLike)
                n_clusters n_samples None sample_labels None cluster_labels
                None None) as [Hchecks _].
    rewrite (proj2 Hchecks).
    2: { repeat split; try done. intros l ->.
         destruct Hsl as [?|(l' & [= ->] & Hl)]; [done|].
         unfold len. simpl. lia. }
    simpl. replace (sort =? -1)%Z with false
      by (symmetry; apply Z.eqb_neq; lia).
    fold k.
    assert (sample_labels_or_arange sample_labels n_samples
            = NdArray labels) as ->.
    { unfold labels. by destruct Hsl as [->|(l & -> & _)]. }
    rewrite Hrun. simpl. rewrite <- Hn, <- Hk, Hb. done.
  - simpl. apply Forall2_fmap_l, Forall_Forall2_diag, Forall_forall.
    intros i Hi. rewrite Hidx in Hi. apply elem_of_seq in Hi.
    destruct (lookup_lt_is_Some_2 labels i) as [t Ht]; [lia|].
    simpl. rewrite Ht. f_equal. symmetry. by apply nth_lookup_Some.
  - intros c Hc. destruct (Hbars c Hc) as (heights & bottom & Hlk & -> & Hlen
                                           & Hbottom).
    exists (map (fun r => nth c r 0) sorted_rows), bottom.
    split; [done|]. split.
    + unfold sorted_rows. rewrite map_map.
      apply Forall2_fmap_l, Forall_Forall2_diag, Forall_forall.
      intros i Hi. simpl. destruct (Hrow i Hi) as (r & Hr & -> & Hlr).
      exists r. split; [done|].
      apply nth_swapped_columns; lia.
    + apply Forall2_same_length_lookup. split.
      { rewrite Hlen, (Permutation_length Hidx), length_seq. done. }
      intros s bs i Hbs Hi.
      destruct (Hrow i) as (r & Hr & Hnth & Hlr);
        [by eapply list_elem_of_lookup_2|].
      exists r. split; [done|].
      destruct (Hbottom s (<[k := nth 0 r 0]> (<[0%nat := nth k r 0]> r)))
        as (b' & Hb' & Eb').
      { unfold sorted_rows. rewrite list_lookup_fmap, Hi. simpl.
        by rewrite Hnth. }
      rewrite Hbs in Hb'. injection Hb' as <-. rewrite Eb'.
      rewrite take_as_map by (rewrite !length_insert; lia).
      apply np_sum_ext. apply Forall2_fmap, Forall_Forall2_diag, Forall_forall.
      intros c' Hc'. apply elem_of_seq in Hc'.
      rewrite nth_swapped_columns by lia. reflexivity.
  - simpl. intros heights bottom s s' h h' Hb0 Hss Hh Hh'.
    destruct (Hbars 0%nat) as (heights0 & bottom0 & Hlk & -> & _); [lia|].
    rewrite Hlk in Hb0. injection Hb0 as <- <-.
    unfold sorted_rows in Hh, Hh'. rewrite map_map in Hh, Hh'.
    apply list_lookup_fmap_Some in Hh as (i & -> & Hi).
    apply list_lookup_fmap_Some in Hh' as (i' & -> & Hi').
    destruct (Hrow i) as (r & Hr & -> & Hlr);
      [by eapply list_elem_of_lookup_2|].
    destruct (Hrow i') as (r' & Hr' & -> & Hlr');
      [by eapply list_elem_of_lookup_2|].
    simpl. rewrite !nth_swapped_columns by lia. simpl.
    pose proof (Hsorted (map Qopp (map (fun r => nth k r 0)
                                       (rows membership)))) as Hasc.
    fold sample_indices in Hasc.
    set (keys := map (fun i => nth i (map Qopp (map (fun r => nth k r 0)
                                                    (rows membership))) 0)
                     sample_indices) in *.
    assert (forall t j q, sample_indices !! t = Some j ->
              rows membership !! j = Some q ->
              nth t keys 0 = - nth k q 0) as Hkey.
    { intros t j q Ht Hq. apply nth_lookup_Some.
      unfold keys. rewrite list_lookup_fmap, Ht. simpl. f_equal.
      apply nth_lookup_Some. by rewrite !list_lookup_fmap, Hq. }
    assert (length keys = length sample_indices) as Hlk'
      by (unfold keys; by rewrite length_map).
    pose proof (ascending_nth keys s s' Hasc) as Hle. rewrite Hlk' in Hle.
    specialize (Hle ltac:(split; [done|by eapply lookup_lt_Some])).
    rewrite (Hkey s i r), (Hkey s' i' r') in Hle by done.
    lra.
Qed.

(** With [sort >= 0], labels of the samples given as a Python list make
    [plot] raise a [TypeError]: the list is indexed by the array of the
    sorted indices. *)
Theorem plot_sorted_list_labels (membership : matrix) (n_clusters : Z)
    (n_samples : nat) (sort : Z) (l : list string)
    (cluster_labels : option (sequence string))
    (x_label y_label title : option string) :
  (Z.of_nat (shape1 membership) = n_clusters) ->
  (0 <= sort < n_clusters)%Z ->
  length l = n_samples ->
  (forall l, cluster_labels = Some l -> len l = n_clusters) ->
  plot membership n_clusters n_samples sort (Some (PyList l)) None
       cluster_labels x_label y_label title
  = Raise (TypeErrorOf "sample_labels").
Proof.
  intros Hk Hsort Hl Hcl. unfold Clustering.plot.
  replace ((sort <? -1)%Z || (n_clusters <=? sort)%Z) with false
    by (symmetry; apply orb_false_iff; split;
        [apply Z.ltb_ge | apply Z.leb_gt]; lia).
  simpl.
  destruct (_plot_clustering_checks_sound (ColorLike := ColorLike)
              n_clusters n_samples None (Some (PyList l)) None cluster_labels
              None None) as [Hchecks _].
  rewrite (proj2 Hchecks).
  2: { repeat split; try done. intros ? [= <-]. unfold len. simpl. lia. }
  simpl. replace (sort =? -1)%Z with false
    by (symmetry; apply Z.eqb_neq; lia).
  unfold sort_samples, column.
  replace (Z.to_nat sort <? shape1 membership)%nat with true
    by (symmetry; apply Nat.ltb_lt; lia).
  done.
Qed.

End Plot.

(** *** The sort of the examples *)

Lemma insert_index_perm (a : list Q) (i : nat) (l : list nat) :
  Kernels.insert_index a i l ≡ₚ i :: l.
Proof.
  induction l as [|j l IH]; simpl; [done|].
  destruct (Qle_bool _ _); [done|]. rewrite IH. apply Permutation_swap.
Qed.

Lemma argsort_perm (a : list Q) : Kernels.argsort a ≡ₚ seq 0 (length a).
Proof.
  unfold Kernels.argsort. induction (seq 0 (length a)) as [|i l IH]; simpl; [done|].
  by rewrite insert_index_perm, IH.
Qed.

Lemma insert_index_ascending (a : list Q) (i : nat) (l : list nat) :
  ascending (map (fun j => nth j a 0) l) ->
  ascending (map (fun j => nth j a 0) (Kernels.insert_index a i l)).
Proof.
  unfold ascending. induction l as [|j l IH]; simpl; intros Hl.
  - repeat constructor.
  - apply StronglySorted_inv in Hl as [Hl Hj].
    destruct (Qle_bool (nth i a 0) (nth j a 0)) eqn:E; simpl.
    + apply Qle_bool_iff in E. constructor; [by constructor|].
      constructor; [done|].
      eapply Forall_impl; [exact Hj|]. intros z Hz. simpl in Hz. lra.
    + assert (nth j a 0 < nth i a 0) as Hlt
        by (apply Qltb_lt; unfold Qltb; by rewrite E).
      constructor; [by apply IH|].
      rewrite (insert_index_perm a i l). simpl. constructor; [lra|done].
Qed.

Lemma argsort_ascending (a : list Q) :
  ascending (map (fun i => nth i a 0) (Kernels.argsort a)).
Proof.
  unfold Kernels.argsort. induction (seq 0 (length a)) as [|i l IH]; simpl.
  - constructor.
  - by apply insert_index_ascending.
Qed.

(** The memberships of the examples without sorting. *)
Lemma plot_stacks_bars_witness :
  exists d,
    Clustering.plot (ColorLike := string) Kernels.argsort
      Examples.memberships 2 3 (-1) None None None None None None
    = Return d /\
    xticks d = seq 0 3 /\
    length (xticklabels d) = 3%nat /\
    (@None (sequence string) = None ->
     xticklabels d = map Number (seq 0 3)) /\
    length (legend_labels d) = 2%nat /\
    length (bars d) = 2%nat /\
    forall i, (i < 2)%nat ->
      exists heights bottom,
        bars d !! i = Some (heights, bottom) /\
        heights = map (fun r => nth i r 0) (rows Examples.memberships) /\
        length bottom = 3%nat /\
        forall s r, rows Examples.memberships !! s = Some r ->
          exists b, bottom !! s = Some b /\ b == np_sum (take i r).
Proof.
  apply (plot_stacks_bars (ColorLike := string) Kernels.argsort
           Examples.memberships 2 3 None None None None None).
  - split; [reflexivity|]. repeat constructor.
  - reflexivity.
  - reflexivity.
  - intros l H. discriminate H.
  - intros l H. discriminate H.
Defined.

(** The memberships of the examples sorted by the second cluster. *)
Lemma plot_sorts_samples_witness :
  exists d sample_indices,
    Clustering.plot (ColorLike := string) Kernels.argsort
      Examples.memberships 2 3 1 None None None None None None
    = Return d /\
    sample_indices ≡ₚ seq 0 3 /\
    Forall2 (fun t i => map Number (seq 0 3) !! i = Some t)
            (xticklabels d) sample_indices /\
    length (bars d) = 2%nat /\
    (forall heights bottom s s' h h',
       bars d !! 0%nat = Some (heights, bottom) ->
       (s <= s')%nat -> heights !! s = Some h -> heights !! s' = Some h' ->
       h' <= h).
Proof.
  destruct (plot_sorts_samples (ColorLike := string) Kernels.argsort
              Examples.memberships 2 3 1 None None None None None)
    as (d & sample_indices & Hd & Hperm & Hticks & Hlen & _ & Hdesc).
  - exact argsort_perm.
  - exact argsort_ascending.
  - split; [reflexivity|]. repeat constructor.
  - reflexivity.
  - reflexivity.
  - lia.
  - left. reflexivity.
  - intros l H. discriminate H.
  - exists d, sample_indices. split; [exact Hd|]. split; [exact Hperm|].
    split; [exact Hticks|]. split; [exact Hlen|]. exact Hdesc.
Defined.

(** Three labels in a Python list, and the sort by the second cluster. *)
Lemma plot_sorted_list_labels_witness :
  Clustering.plot (ColorLike := string) Kernels.argsort
    Examples.memberships 2 3 1 (Some (PyList ["a"; "b"; "c"]%string)) None
    None None None None
  = Raise (TypeErrorOf "sample_labels").
Proof.
  apply (plot_sorted_list_labels (ColorLike := string) Kernels.argsort
           Examples.memberships 2 3 1 ["a"; "b"; "c"]%string None
           None None None).
  - reflexivity.
  - lia.
  - reflexivity.
  - intros l H. discriminate H.
Defined.

End ClusteringFacts.
